(** * AI Vision Toolkit: request marshalling, reply interpretation, UI state

    A shallow embedding of [src/services/geminiService.ts] and of the state
    handlers of [src/App.tsx], with the properties of the written
    specification stated and settled against it.

    Strings are ECMAScript strings: finite sequences of UTF-16 code units,
    here [list N].  The platform functions the code calls
    ([String.prototype.trim], [String.prototype.replace] with the two
    regular expressions of the source, [String.prototype.split],
    [JSON.parse], [FileReader.readAsDataURL], [Promise.all]) are modelled
    after their standards; the remote generative service is a parameter. *)

From Stdlib Require Import List String Ascii NArith Arith Bool Lia.
From Stdlib Require Import Permutation.
From Stdlib Require Strings.Byte.
Import ListNotations.

Set Implicit Arguments.
Set Warnings "-register-all".

Local Open Scope N_scope.

(** ** ECMAScript strings *)

Module JsString.

(** A UTF-16 code unit, and a string of them. *)
Abbreviation char16 := N (only parsing).
Abbreviation jsstring := (list N) (only parsing).

(** Code units of an ASCII literal of the source text. *)
Definition js (s : string) : jsstring :=
  List.map N_of_ascii (list_ascii_of_string s).

Fixpoint eqb (s t : jsstring) : bool :=
  match s, t with
  | [], [] => true
  | c :: s', d :: t' => (c =? d) && eqb s' t'
  | _, _ => false
  end.

(** [WhiteSpace] and [LineTerminator] of ECMA-262: what [trim] removes. *)
Definition isWhiteSpace (c : char16) : bool :=
  (c =? 9) || (c =? 10) || (c =? 11) || (c =? 12) || (c =? 13) ||
  (c =? 32) || (c =? 160) || (c =? 5760) ||
  ((8192 <=? c) && (c <=? 8202)) ||
  (c =? 8232) || (c =? 8233) || (c =? 8239) || (c =? 8287) ||
  (c =? 12288) || (c =? 65279).

Fixpoint trimStart (s : jsstring) : jsstring :=
  match s with
  | [] => []
  | c :: r => if isWhiteSpace c then trimStart r else s
  end.

Definition trimEnd (s : jsstring) : jsstring :=
  rev (trimStart (rev s)).

(** [String.prototype.trim] *)
Definition trim (s : jsstring) : jsstring := trimEnd (trimStart s).

(** [s.startsWith(p)]: the rest of [s] after the prefix [p], if any. *)
Fixpoint stripPrefix (p s : jsstring) : option jsstring :=
  match p, s with
  | [], _ => Some s
  | c :: p', d :: s' => if c =? d then stripPrefix p' s' else None
  | _ :: _, [] => None
  end.

Definition stripSuffix (p s : jsstring) : option jsstring :=
  option_map (@rev _) (stripPrefix (rev p) (rev s)).

(** [s.split(sep)] for a one-unit separator: the pieces between the
    occurrences of [sep]; never empty. *)
Fixpoint split (sep : char16) (s : jsstring) : list jsstring :=
  match s with
  | [] => [[]]
  | c :: r =>
      if c =? sep then [] :: split sep r
      else match split sep r with
           | [] => [[c]]
           | p :: ps => (c :: p) :: ps
           end
  end.

End JsString.
Import JsString.

(** ** [JSON.parse]

    ECMA-262 defines JSON text by a lexical grammar (tokens separated by
    optional white space) and a syntactic grammar over the tokens; the model
    follows that split.  A number keeps its lexeme: its rounding to a
    double is not modelled.  An object keeps its members in source order,
    duplicates included; [get] reads the last one, as the parsed object's
    property would. *)

Module Json.

Inductive JSON : Type :=
| JNull
| JBool (b : bool)
| JNumber (lexeme : jsstring)
| JString (s : jsstring)
| JArray (items : list JSON)
| JObject (members : list (jsstring * JSON)).

Inductive token : Type :=
| TLBrace | TRBrace | TLBrack | TRBrack | TColon | TComma
| TTrue | TFalse | TNull
| TString (s : jsstring)
| TNumber (lexeme : jsstring).

(** JSON white space: tab, line feed, carriage return, space. *)
Definition isJsonWs (c : char16) : bool :=
  (c =? 9) || (c =? 10) || (c =? 13) || (c =? 32).

Definition isDigit (c : char16) : bool := (48 <=? c) && (c <=? 57).

Definition hexValue (c : char16) : option N :=
  if isDigit c then Some (c - 48)
  else if (65 <=? c) && (c <=? 70) then Some (c - 55)
  else if (97 <=? c) && (c <=? 102) then Some (c - 87)
  else None.

Definition hex4 (a b c d : char16) : option char16 :=
  match hexValue a, hexValue b, hexValue c, hexValue d with
  | Some x, Some y, Some z, Some w => Some (((x * 16 + y) * 16 + z) * 16 + w)
  | _, _, _, _ => None
  end.

(** The single-character escapes after a reverse solidus. *)
Definition unescape (e : char16) : option char16 :=
  if e =? 34 then Some 34           (* quotation mark *)
  else if e =? 92 then Some 92      (* reverse solidus *)
  else if e =? 47 then Some 47      (* solidus *)
  else if e =? 98 then Some 8       (* b: backspace *)
  else if e =? 102 then Some 12     (* f: form feed *)
  else if e =? 110 then Some 10     (* n: line feed *)
  else if e =? 114 then Some 13     (* r: carriage return *)
  else if e =? 116 then Some 9      (* t: tab *)
  else None.

Definition consChar (c : char16) (r : option (jsstring * jsstring))
  : option (jsstring * jsstring) :=
  match r with
  | Some (str, rest) => Some (c :: str, rest)
  | None => None
  end.

(** The characters of a string token after its opening quote: the decoded
    value and the input after the closing quote. *)
Fixpoint lexString (s : jsstring) : option (jsstring * jsstring) :=
  match s with
  | [] => None
  | c :: rest =>
      if c =? 34 then Some ([], rest)
      else if c =? 92 then
        match rest with
        | [] => None
        | e :: rest1 =>
            if e =? 117 then
              match rest1 with
              | a :: b :: c' :: d :: rest2 =>
                  match hex4 a b c' d with
                  | Some u => consChar u (lexString rest2)
                  | None => None
                  end
              | _ => None
              end
            else
              match unescape e with
              | Some u => consChar u (lexString rest1)
              | None => None
              end
        end
      else if c <? 32 then None
      else consChar c (lexString rest)
  end.

Fixpoint spanDigits (s : jsstring) : jsstring * jsstring :=
  match s with
  | [] => ([], [])
  | c :: r =>
      if isDigit c then let (d, r') := spanDigits r in (c :: d, r')
      else ([], s)
  end.

(** The integer part: a zero, or a non-zero digit and more digits. *)
Definition lexInt (s : jsstring) : option (jsstring * jsstring) :=
  match s with
  | [] => None
  | c :: r =>
      if c =? 48 then Some ([48], r)
      else if isDigit c then let (d, r') := spanDigits r in Some (c :: d, r')
      else None
  end.

(** The optional fraction: a point and at least one digit. *)
Definition lexFrac (s : jsstring) : option (jsstring * jsstring) :=
  match s with
  | c :: r =>
      if c =? 46 then
        match spanDigits r with
        | ([], _) => None
        | (d, r') => Some (c :: d, r')
        end
      else Some ([], s)
  | [] => Some ([], s)
  end.

(** The optional exponent: e or E, an optional sign, at least one digit. *)
Definition lexExp (s : jsstring) : option (jsstring * jsstring) :=
  match s with
  | c :: r =>
      if (c =? 101) || (c =? 69) then
        let (sign, r1) :=
          match r with
          | g :: r0 => if (g =? 43) || (g =? 45) then ([g], r0) else ([], r)
          | [] => ([], r)
          end in
        match spanDigits r1 with
        | ([], _) => None
        | (d, r') => Some (c :: sign ++ d, r')
        end
      else Some ([], s)
  | [] => Some ([], s)
  end.

Definition lexNumber (s : jsstring) : option (jsstring * jsstring) :=
  let (sign, s0) :=
    match s with
    | c :: r => if c =? 45 then ([c], r) else ([], s)
    | [] => ([], s)
    end in
  match lexInt s0 with
  | None => None
  | Some (i, s1) =>
      match lexFrac s1 with
      | None => None
      | Some (f, s2) =>
          match lexExp s2 with
          | None => None
          | Some (e, s3) => Some (sign ++ i ++ f ++ e, s3)
          end
      end
  end.

Definition consTok (t : token) (r : option (list token))
  : option (list token) :=
  match r with
  | Some ts => Some (t :: ts)
  | None => None
  end.

(** The token sequence of a JSON text.  Every step consumes at least one
    code unit, so [length s] steps always suffice (see
    [JsonFacts.lexTokens_fuel]). *)
Fixpoint lexTokens (fuel : nat) (s : jsstring) : option (list token) :=
  match fuel with
  | O => match s with [] => Some [] | _ => None end
  | S fuel' =>
      match s with
      | [] => Some []
      | c :: rest =>
          if isJsonWs c then lexTokens fuel' rest
          else if c =? 123 then consTok TLBrace (lexTokens fuel' rest)
          else if c =? 125 then consTok TRBrace (lexTokens fuel' rest)
          else if c =? 91 then consTok TLBrack (lexTokens fuel' rest)
          else if c =? 93 then consTok TRBrack (lexTokens fuel' rest)
          else if c =? 58 then consTok TColon (lexTokens fuel' rest)
          else if c =? 44 then consTok TComma (lexTokens fuel' rest)
          else if c =? 34 then
            match lexString rest with
            | Some (str, rest') => consTok (TString str) (lexTokens fuel' rest')
            | None => None
            end
          else if (c =? 45) || isDigit c then
            match lexNumber s with
            | Some (lx, rest') => consTok (TNumber lx) (lexTokens fuel' rest')
            | None => None
            end
          else
            match stripPrefix (js "true") s with
            | Some rest' => consTok TTrue (lexTokens fuel' rest')
            | None =>
                match stripPrefix (js "false") s with
                | Some rest' => consTok TFalse (lexTokens fuel' rest')
                | None =>
                    match stripPrefix (js "null") s with
                    | Some rest' => consTok TNull (lexTokens fuel' rest')
                    | None => None
                    end
                end
            end
      end
  end.

Definition lex (s : jsstring) : option (list token) :=
  lexTokens (List.length s) s.

(** The syntactic grammar, as a pushdown automaton over the tokens: one
    frame per array or object that is still open. *)
Inductive frame : Type :=
| FArray (done : list JSON)
| FObject (done : list (jsstring * JSON)) (key : jsstring).

(** A value [v] has just been completed under the open frames [stk].
    [parseAfter] consumes what may follow it. *)
Fixpoint parseValue (ts : list token) (stk : list frame) {struct ts}
  : option JSON :=
  match ts with
  | [] => None
  | t :: r =>
      match t with
      | TNull => parseAfter r JNull stk
      | TTrue => parseAfter r (JBool true) stk
      | TFalse => parseAfter r (JBool false) stk
      | TString s => parseAfter r (JString s) stk
      | TNumber n => parseAfter r (JNumber n) stk
      | TLBrack =>
          match r with
          | TRBrack :: r' => parseAfter r' (JArray []) stk
          | _ => parseValue r (FArray [] :: stk)
          end
      | TLBrace =>
          match r with
          | TRBrace :: r' => parseAfter r' (JObject []) stk
          | TString k :: TColon :: r' => parseValue r' (FObject [] k :: stk)
          | _ => None
          end
      | _ => None
      end
  end
with parseAfter (ts : list token) (v : JSON) (stk : list frame) {struct ts}
  : option JSON :=
  match stk with
  | [] => match ts with [] => Some v | _ => None end
  | FArray done :: stk' =>
      match ts with
      | TComma :: r => parseValue r (FArray (v :: done) :: stk')
      | TRBrack :: r => parseAfter r (JArray (rev (v :: done))) stk'
      | _ => None
      end
  | FObject done k :: stk' =>
      match ts with
      | TComma :: TString k' :: TColon :: r =>
          parseValue r (FObject ((k, v) :: done) k' :: stk')
      | TRBrace :: r => parseAfter r (JObject (rev ((k, v) :: done))) stk'
      | _ => None
      end
  end.

(** [JSON.parse(text)]: [None] stands for the [SyntaxError] it throws. *)
Definition parse (s : jsstring) : option JSON :=
  match lex s with
  | Some ts => parseValue ts []
  | None => None
  end.

(** Property read [o[k]]: the last member named [k]. *)
Fixpoint lookup (k : jsstring) (ms : list (jsstring * JSON)) : option JSON :=
  match ms with
  | [] => None
  | (k', v) :: r =>
      match lookup k r with
      | Some w => Some w
      | None => if JsString.eqb k k' then Some v else None
      end
  end.

Definition get (k : jsstring) (v : JSON) : option JSON :=
  match v with
  | JObject ms => lookup k ms
  | _ => None
  end.

End Json.
Import Json.

(** ** Promises, thrown values and observable effects *)

Module Async.

(** A thrown value: an [Error] object with its [name] and [message]. *)
Record JsError : Type := { name : jsstring; message : jsstring }.

(** [new Error(message)] *)
Definition Error (m : jsstring) : JsError :=
  {| name := js "Error"; message := m |}.

(** What [JSON.parse] throws; the engine's message text is not modelled. *)
Definition SyntaxError : JsError :=
  {| name := js "SyntaxError"; message := js "Unexpected token in JSON" |}.

(** The fate of a promise: it is fulfilled, it is rejected, or it never
    settles. *)
Inductive Promise (A : Type) : Type :=
| Fulfilled (a : A)
| Rejected (e : JsError)
| Pending.
Arguments Rejected {A} e.
Arguments Pending {A}.

Definition settled {A} (p : Promise A) : bool :=
  match p with Pending => false | _ => true end.

End Async.
Import Async.

(** ** Base64 and data URLs (RFC 4648, RFC 2397), as [FileReader] makes them *)

Module Base64.

Import Strings.Byte.

(** The character of a six-bit value. *)
Definition digit (v : N) : char16 :=
  if v <? 26 then 65 + v
  else if v <? 52 then 97 + (v - 26)
  else if v <? 62 then 48 + (v - 52)
  else if v =? 62 then 43
  else 47.

(** The six-bit value of a character of the alphabet. *)
Definition value (c : char16) : option N :=
  if (65 <=? c) && (c <=? 90) then Some (c - 65)
  else if (97 <=? c) && (c <=? 122) then Some (c - 97 + 26)
  else if (48 <=? c) && (c <=? 57) then Some (c - 48 + 52)
  else if c =? 43 then Some 62
  else if c =? 47 then Some 63
  else None.

Definition pad : char16 := 61.

Fixpoint encode (bs : list byte) : jsstring :=
  match bs with
  | [] => []
  | [a] =>
      let x := to_N a in
      [digit (x / 4); digit ((x mod 4) * 16); pad; pad]
  | [a; b] =>
      let x := to_N a in
      let y := to_N b in
      [digit (x / 4); digit ((x mod 4) * 16 + y / 16);
       digit ((y mod 16) * 4); pad]
  | a :: b :: c :: r =>
      let x := to_N a in
      let y := to_N b in
      let z := to_N c in
      digit (x / 4) :: digit ((x mod 4) * 16 + y / 16) ::
      digit ((y mod 16) * 4 + z / 64) :: digit (z mod 64) :: encode r
  end.

Definition bytes3 (p q r s : N) : option (list byte) :=
  let n := ((p * 64 + q) * 64 + r) * 64 + s in
  match of_N (n / 65536), of_N ((n / 256) mod 256), of_N (n mod 256) with
  | Some a, Some b, Some c => Some [a; b; c]
  | _, _, _ => None
  end.

Fixpoint decode (s : jsstring) : option (list byte) :=
  match s with
  | [] => Some []
  | c1 :: c2 :: c3 :: c4 :: r =>
      match value c1, value c2 with
      | Some p, Some q =>
          if (c3 =? pad) && (c4 =? pad) then
            match r, of_N ((p * 64 + q) / 16) with
            | [], Some a => Some [a]
            | _, _ => None
            end
          else
            match value c3 with
            | None => None
            | Some t =>
                if c4 =? pad then
                  let n := (p * 64 + q) * 64 + t in
                  match r, of_N (n / 1024), of_N ((n / 4) mod 256) with
                  | [], Some a, Some b => Some [a; b]
                  | _, _, _ => None
                  end
                else
                  match value c4, decode r with
                  | Some u, Some rest =>
                      option_map (fun l => l ++ rest) (bytes3 p q t u)
                  | _, _ => None
                  end
            end
      | _, _ => None
      end
  | _ => None
  end.

End Base64.

(** ** MIME types, as [FileReader] writes them into a data URL

    The reader parses the blob's type as a MIME type and writes its
    serialization; the two algorithms are those of the MIME Sniffing
    standard (parse a MIME type, serialize a MIME type).  Positions in the
    input are suffixes here. *)

Module Mime.

Definition isHTTPWhitespace (c : char16) : bool :=
  (c =? 9) || (c =? 10) || (c =? 13) || (c =? 32).

Definition isAlphanumeric (c : char16) : bool :=
  ((48 <=? c) && (c <=? 57)) || ((65 <=? c) && (c <=? 90)) ||
  ((97 <=? c) && (c <=? 122)).

(** HTTP token code points: the alphanumerics and the marks of RFC 7230's
    token (exclamation mark, number sign, dollar, percent, ampersand,
    apostrophe, asterisk, plus, hyphen, full stop, caret, underscore,
    backtick, bar, tilde). *)
Definition isHTTPToken (c : char16) : bool :=
  isAlphanumeric c ||
  existsb (N.eqb c) [33; 35; 36; 37; 38; 39; 42; 43; 45; 46; 94; 95; 96; 124; 126].

(** HTTP quoted-string token code points. *)
Definition isQuotedStringToken (c : char16) : bool :=
  (c =? 9) || ((32 <=? c) && (c <=? 126)) || ((128 <=? c) && (c <=? 255)).

Definition asciiLowercase (s : jsstring) : jsstring :=
  map (fun c => if (65 <=? c) && (c <=? 90) then c + 32 else c) s.

Fixpoint dropWhile (f : char16 -> bool) (s : jsstring) : jsstring :=
  match s with
  | [] => []
  | c :: r => if f c then dropWhile f r else s
  end.

Definition removeTrailing (f : char16 -> bool) (s : jsstring) : jsstring :=
  rev (dropWhile f (rev s)).

(** Collect the code units before the first one that [stop] accepts: what
    was collected, and the input from that unit on. *)
Fixpoint collect (stop : char16 -> bool) (s : jsstring)
  : jsstring * jsstring :=
  match s with
  | [] => ([], [])
  | c :: r =>
      if stop c then ([], s)
      else let (taken, rest) := collect stop r in (c :: taken, rest)
  end.

(** Collect an HTTP quoted string, from the unit after the opening quote:
    the value with its escapes resolved, and the input after the closing
    quote. *)
Fixpoint collectQuoted (s : jsstring) : jsstring * jsstring :=
  match s with
  | [] => ([], [])
  | c :: r =>
      if c =? 34 then ([], r)
      else if c =? 92 then
        match r with
        | [] => ([92], [])
        | d :: r' => let (value, rest) := collectQuoted r' in (d :: value, rest)
        end
      else let (value, rest) := collectQuoted r in (c :: value, rest)
  end.

Record MIMEType : Type :=
  { type : jsstring;
    subtype : jsstring;
    parameters : list (jsstring * jsstring) }.

Definition hasParameter (name : jsstring)
  (ps : list (jsstring * jsstring)) : bool :=
  existsb (fun p => JsString.eqb name (fst p)) ps.

(** The last step of the parameter loop: keep the parameter when its name
    is a token, its value a quoted-string token, and the name is new. *)
Definition setParameter (name value : jsstring)
  (ps : list (jsstring * jsstring)) : list (jsstring * jsstring) :=
  if negb (JsString.eqb name []) && forallb isHTTPToken name &&
     forallb isQuotedStringToken value && negb (hasParameter name ps)
  then ps ++ [(name, value)]
  else ps.

(** The parameter loop.  [rest] is the input from the current position,
    which is at a semicolon or at the end; every round moves past that
    semicolon, so the length of the input is enough [fuel]. *)
Fixpoint parseParameters (fuel : nat) (rest : jsstring)
  (ps : list (jsstring * jsstring)) : list (jsstring * jsstring) :=
  match fuel, rest with
  | O, _ => ps
  | _, [] => ps
  | S fuel', _ :: afterSemicolon =>
      let (name0, atStop) :=
        collect (fun c => (c =? 59) || (c =? 61))
          (dropWhile isHTTPWhitespace afterSemicolon) in
      let name := asciiLowercase name0 in
      match atStop with
      | [] => ps
      | c :: afterStop =>
          if c =? 59 then parseParameters fuel' atStop ps
          else
            match afterStop with
            | 34 :: afterQuote =>
                let (value, afterValue) := collectQuoted afterQuote in
                parseParameters fuel'
                  (snd (collect (N.eqb 59) afterValue))
                  (setParameter name value ps)
            | _ =>
                let (value0, atSemicolon) := collect (N.eqb 59) afterStop in
                let value := removeTrailing isHTTPWhitespace value0 in
                match value with
                | [] => parseParameters fuel' atSemicolon ps
                | _ =>
                    parseParameters fuel' atSemicolon
                      (setParameter name value ps)
                end
            end
      end
  end.

(** Parse a MIME type; [None] is failure. *)
Definition parse (input : jsstring) : option MIMEType :=
  let input :=
    removeTrailing isHTTPWhitespace (dropWhile isHTTPWhitespace input) in
  let (type0, atSlash) := collect (N.eqb 47) input in
  match type0, forallb isHTTPToken type0, atSlash with
  | _ :: _, true, _ :: afterSlash =>
      let (subtype0, atSemicolon) := collect (N.eqb 59) afterSlash in
      let subtype1 := removeTrailing isHTTPWhitespace subtype0 in
      match subtype1, forallb isHTTPToken subtype1 with
      | _ :: _, true =>
          Some {| type := asciiLowercase type0;
                  subtype := asciiLowercase subtype1;
                  parameters :=
                    parseParameters (List.length atSemicolon) atSemicolon [] |}
      | _, _ => None
      end
  | _, _, _ => None
  end.

(** A value that is not a token is written as a quoted string, with a
    backslash before every quote and backslash. *)
Definition escape (value : jsstring) : jsstring :=
  flat_map (fun c => if (c =? 34) || (c =? 92) then [92; c] else [c]) value.

Definition serializeValue (value : jsstring) : jsstring :=
  match value with
  | _ :: _ =>
      if forallb isHTTPToken value then value
      else [34] ++ escape value ++ [34]
  | [] => [34; 34]
  end.

(** Serialize a MIME type. *)
Definition serialize (m : MIMEType) : jsstring :=
  type m ++ [47] ++ subtype m ++
  flat_map (fun p => [59] ++ fst p ++ [61] ++ serializeValue (snd p))
    (parameters m).

End Mime.

Module Browser.

(** A [File]: its media type, its bytes, and whether reading it ends in an
    error (the file was moved, its permissions changed, ...). *)
Record File : Type :=
  { type : jsstring;
    content : list Init.Byte.byte;
    readFails : bool }.

(** The media type that the reader writes for a blob of the given type:
    the type parsed and serialized, or application/octet-stream when the
    type does not parse (the empty type among them). *)
Definition mediaType (type : jsstring) : jsstring :=
  match Mime.parse type with
  | Some m => Mime.serialize m
  | None => js "application/octet-stream"
  end.

(** The data URL of a blob. *)
Definition dataURL (type : jsstring) (bs : list Init.Byte.byte)
  : jsstring :=
  js "data:" ++ mediaType type ++ js ";base64," ++ Base64.encode bs.

(** [reader.result] when [loadend] fires after [reader.readAsDataURL(file)]:
    the data URL, or [null] after a read error. *)
Definition readAsDataURL (file : File) : option jsstring :=
  if readFails file then None
  else Some (dataURL (type file) (content file)).

End Browser.
Import Browser.

(** ** The request and response types of the client library *)

Module GenAI.

(** [Type.STRING], [Type.ARRAY], [Type.OBJECT] schemas. *)
Inductive Schema : Type :=
| STRING (description : option jsstring)
| ARRAY (description : option jsstring) (items : Schema)
| OBJECT (properties : list (jsstring * Schema)) (required : list jsstring).

Inductive Part : Type :=
| inlineData (data : option jsstring) (mimeType : jsstring)
| textPart (text : jsstring).

Record Config : Type :=
  { systemInstruction : option jsstring;
    responseMimeType : option jsstring;
    responseSchema : option Schema }.

Record Parameters : Type :=
  { model : jsstring;
    parts : list Part;
    config : option Config }.

(** [response.text] is a string or [undefined]. *)
Record Response : Type := { text : option jsstring }.

End GenAI.

(** What a call does that can be seen from outside, in order. *)
Inductive Effect : Type :=
| ReadAsDataURL (file : File)
| GenerateContent (request : GenAI.Parameters)
| JsonParse (text : jsstring)
| ConsoleError (label : jsstring) (e : JsError).

(** An [async] function body that has run as far as it ever will: its
    promise and the effects it performed. *)
Definition Async (A : Type) : Type := (Promise A * list Effect)%type.

Definition ret {A} (a : A) : Async A := (Fulfilled a, []).

Definition throw {A} (e : JsError) : Async A := (Rejected e, []).

Definition perform (eff : Effect) : Async unit := (Fulfilled tt, [eff]).

Definition await {A} (p : Promise A) : Async A := (p, []).

Definition bind {A B} (m : Async A) (k : A -> Async B) : Async B :=
  match m with
  | (Fulfilled a, l) => let (p, l') := k a in (p, l ++ l')
  | (Rejected e, l) => (Rejected e, l)
  | (Pending, l) => (Pending, l)
  end.

(** [try { m } catch (error) { handler error }] *)
Definition tryCatch {A} (m : Async A) (handler : JsError -> Async A)
  : Async A :=
  match m with
  | (Rejected e, l) => let (p, l') := handler e in (p, l ++ l')
  | _ => m
  end.

Notation "x <- m ;; k" := (bind m (fun x => k))
  (at level 61, m at next level, right associativity).
Notation "m ;;; k" := (bind m (fun _ => k))
  (at level 61, right associativity).

(** [JSON.parse(text)] as a step of a body. *)
Definition JSON_parse (text : jsstring) : Async JSON :=
  perform (JsonParse text) ;;;
  match parse text with
  | Some v => ret v
  | None => throw SyntaxError
  end.

(** [Promise.all([p, q])]: fulfilled when both are, rejected as soon as one
    is; when both are rejected, [firstLeft] tells which rejection came
    first.  The effects of the two calls are listed one call after the
    other; how they interleave in time is not modelled, and no statement
    below rests on the order between effects of different calls. *)
Definition Promise_all {A B} (firstLeft : bool) (p : Async A) (q : Async B)
  : Async (A * B) :=
  let (pa, la) := p in
  let (pb, lb) := q in
  (match pa, pb with
   | Fulfilled a, Fulfilled b => Fulfilled (a, b)
   | Rejected e, Rejected e' => Rejected (if firstLeft then e else e')
   | Rejected e, _ => Rejected e
   | _, Rejected e => Rejected e
   | _, _ => Pending
   end, la ++ lb).

(** ** [src/services/geminiService.ts] *)

Module GeminiService.

Definition quoted (s : string) : jsstring := [34] ++ js s ++ [34].

(** [export interface TextExtractionResponse] *)
Record TextExtractionResponse : Type := { text : jsstring }.

(** The executor of [base64EncodedDataPromise]: [onloadend] resolves with
    [reader.result.split(',')[1]] when the result is a string, and does
    nothing otherwise; there is no [reject]. *)
Definition base64EncodedDataPromise (file : File)
  : Async (option jsstring) :=
  perform (ReadAsDataURL file) ;;;
  await (match readAsDataURL file with
         | Some result => Fulfilled (nth_error (split 44 result) 1)
         | None => Pending
         end).

Definition fileToGenerativePart (file : File) : Async GenAI.Part :=
  data <- base64EncodedDataPromise file ;;
  ret (GenAI.inlineData data (type file)).

Definition analysisSchema : GenAI.Schema :=
  GenAI.OBJECT
    [ (js "title",
       GenAI.STRING (Some
         (js "A short, creative title for the image analysis. e.g., " ++
          quoted "Whispers of the Past")));
      (js "summary",
       GenAI.STRING (Some
         (js "A one or two-sentence summary describing the image, focusing on the mood and subject.")));
      (js "detected_objects",
       GenAI.ARRAY
         (Some (js "A list of 3-5 primary objects or subjects detected in the image."))
         (GenAI.OBJECT
            [ (js "name",
               GenAI.STRING (Some
                 (js "The name of the detected object (e.g., " ++
                  quoted "Person" ++ js ", " ++ quoted "Antique Book" ++
                  js ").")));
              (js "icon",
               GenAI.STRING (Some
                 (js "A simple keyword for an icon representing the object. Choose from: Person, Dress, Hat, Book, Lisp, Building, Nature, Animal, Vehicle, Other."))) ]
            [js "name"; js "icon"]));
      (js "color_palette",
       GenAI.ARRAY
         (Some (js "An array of 5 dominant HEX color codes from the image."))
         (GenAI.STRING (Some
            (js "A color in HEX format (e.g., " ++ quoted "#FFFFFF" ++
             js ").")))) ]
    [js "title"; js "summary"; js "detected_objects"; js "color_palette"].

Definition suggestionsSchema : GenAI.Schema :=
  GenAI.OBJECT
    [ (js "suggestions",
       GenAI.ARRAY
         (Some (js "A list of 3-4 concise and insightful questions a user might ask about the image."))
         (GenAI.STRING None)) ]
    [js "suggestions"].

(** [s.replace(/^```json\n?/, '')] *)
Definition replaceLeadingFence (s : jsstring) : jsstring :=
  match stripPrefix (js "```json") s with
  | Some r => match stripPrefix [10] r with Some r' => r' | None => r end
  | None => s
  end.

(** [s.replace(/\n?```$/, '')]: the match is the final three backticks
    together with a line feed just before them, if there is one. *)
Definition replaceTrailingFence (s : jsstring) : jsstring :=
  match stripSuffix (js "```") s with
  | Some r => match stripSuffix [10] r with Some r' => r' | None => r end
  | None => s
  end.

Definition emptyAnalysis : JsError :=
  Error (js "Failed to analyze image. The AI returned an empty response.").
Definition failedAnalysis : JsError :=
  Error (js "Failed to analyze image. The AI may not have been able to provide a structured response.").
Definition failedExtraction : JsError :=
  Error (js "Failed to extract text from the image.").
Definition emptySuggestions : JsError :=
  Error (js "Failed to generate prompt suggestions. The AI returned an empty response.").
Definition failedSuggestions : JsError :=
  Error (js "Failed to generate prompt suggestions.").

Definition extractPrompt : jsstring :=
  js "Extract all visible text from the image. Pay close attention to text that is rotated, skewed, or in a non-standard layout. The text may be in any language. Preserve line breaks and paragraph structure as seen in the image. Return only the extracted text as a single string.".

Definition systemInstruction : jsstring :=
  js "You are an expert image analyst. Your task is to generate a few thought-provoking questions about the provided image to help guide the user's exploration. The questions should be concise and relevant to the image's content.".

Section Service.

(** [ai.models.generateContent]: the remote service, whatever it does. *)
Variable generateContent : GenAI.Parameters -> Promise GenAI.Response.

Definition ai_models_generateContent (request : GenAI.Parameters)
  : Async GenAI.Response :=
  perform (GenerateContent request) ;;; await (generateContent request).

Definition analyzeImage (imageFile : File) (prompt : jsstring)
  : Async JSON :=
  tryCatch
    (imagePart <- fileToGenerativePart imageFile ;;
     let textPart := GenAI.textPart prompt in
     response <- ai_models_generateContent
       {| GenAI.model := js "gemini-2.5-flash";
          GenAI.parts := [imagePart; textPart];
          GenAI.config := Some
            {| GenAI.systemInstruction := None;
               GenAI.responseMimeType := Some (js "application/json");
               GenAI.responseSchema := Some analysisSchema |} |} ;;
     let rawText := GenAI.text response in
     match rawText with
     | None | Some [] => throw emptyAnalysis
     | Some rawText =>
         let jsonString := trim rawText in
         let cleanedJsonString :=
           replaceTrailingFence (replaceLeadingFence jsonString) in
         JSON_parse cleanedJsonString
     end)
    (fun error =>
       perform (ConsoleError (js "Error analyzing image with Gemini API:")
                  error) ;;;
       throw failedAnalysis).

Definition extractTextFromImage (imageFile : File)
  : Async TextExtractionResponse :=
  tryCatch
    (imagePart <- fileToGenerativePart imageFile ;;
     let textPart := GenAI.textPart extractPrompt in
     response <- ai_models_generateContent
       {| GenAI.model := js "gemini-2.5-flash";
          GenAI.parts := [imagePart; textPart];
          GenAI.config := None |} ;;
     ret {| text := match GenAI.text response with
                    | Some t => t
                    | None => []
                    end |})
    (fun error =>
       perform (ConsoleError (js "Error extracting text with Gemini API:")
                  error) ;;;
       throw failedExtraction).

Definition getPromptSuggestions (imageFile : File) : Async JSON :=
  tryCatch
    (imagePart <- fileToGenerativePart imageFile ;;
     response <- ai_models_generateContent
       {| GenAI.model := js "gemini-2.5-flash";
          GenAI.parts := [imagePart];
          GenAI.config := Some
            {| GenAI.systemInstruction := Some systemInstruction;
               GenAI.responseMimeType := Some (js "application/json");
               GenAI.responseSchema := Some suggestionsSchema |} |} ;;
     let rawText := GenAI.text response in
     match rawText with
     | None | Some [] => throw emptySuggestions
     | Some rawText =>
         let jsonString := trim rawText in
         let cleanedJsonString :=
           replaceTrailingFence (replaceLeadingFence jsonString) in
         JSON_parse cleanedJsonString
     end)
    (fun error =>
       perform (ConsoleError
                  (js "Error getting prompt suggestions from Gemini API:")
                  error) ;;;
       throw failedSuggestions).

End Service.

End GeminiService.
Import GeminiService.

(** ** The state handlers of [src/App.tsx] *)

Module App.

Inductive AppState : Type := idle | loading | interactive.

(** The [useState] cells of [App]. *)
Record State : Type :=
  { appState : AppState;
    imageFile : option File;
    prompt : jsstring;
    analysisResult : option JSON;
    textResult : option TextExtractionResponse;
    error : option jsstring }.

Definition initial : State :=
  {| appState := idle;
     imageFile := None;
     prompt := js "Analyze this image";
     analysisResult := None;
     textResult := None;
     error := None |}.

Definition handleImageChange (file : File) (s : State) : State :=
  {| imageFile := Some file;
     analysisResult := None;
     textResult := None;
     error := None;
     prompt := js "Analyze this image";
     appState := interactive |}.

Definition handleReset (s : State) : State :=
  {| imageFile := None;
     analysisResult := None;
     textResult := None;
     error := None;
     appState := idle;
     prompt := prompt s |}.

(** [handleAnalyze] up to its [await]: the guard and the four setters. *)
Definition analyzeRequested (s : State) : State :=
  match imageFile s with
  | None => s
  | Some _ =>
      {| error := None;
         analysisResult := None;
         textResult := None;
         appState := loading;
         imageFile := imageFile s;
         prompt := prompt s |}
  end.

(** [handleAnalyze] after its [await]: the rest of [try], or [catch], and
    then [finally], applied to the state of that moment. *)
Definition analyzeSettled
  (joined : JSON * TextExtractionResponse + JsError) (s : State) : State :=
  match joined with
  | inl (analysis, text) =>
      {| analysisResult := Some analysis;
         textResult := Some text;
         appState := interactive;
         imageFile := imageFile s;
         prompt := prompt s;
         error := error s |}
  | inr err =>
      {| error := Some (match message err with
                        | [] => js "An unknown error occurred."
                        | m => m
                        end);
         appState := interactive;
         imageFile := imageFile s;
         prompt := prompt s;
         analysisResult := analysisResult s;
         textResult := textResult s |}
  end.

(** One run of [handleAnalyze] with nothing else happening meanwhile. *)
Record Run : Type :=
  { suspended : State;        (* the state when the handler first yields *)
    effects : list Effect;    (* what the run did *)
    completed : option State  (* the state when the handler ends, if ever *)
  }.

Section Handlers.

Variable generateContent : GenAI.Parameters -> Promise GenAI.Response.
Variable firstLeft : bool.

(** The joined call of [handleAnalyze]. *)
Definition joinedCalls (file : File) (p : jsstring)
  : Async (JSON * TextExtractionResponse) :=
  Promise_all firstLeft
    (analyzeImage generateContent file p)
    (extractTextFromImage generateContent file).

Definition handleAnalyze (s : State) : Run :=
  match imageFile s with
  | None => {| suspended := s; effects := []; completed := Some s |}
  | Some file =>
      let s1 := analyzeRequested s in
      let (joined, effs) := joinedCalls file (prompt s) in
      {| suspended := s1;
         effects := effs;
         completed :=
           match joined with
           | Fulfilled r => Some (analyzeSettled (inl r) s1)
           | Rejected err => Some (analyzeSettled (inr err) s1)
           | Pending => None
           end |}
  end.

End Handlers.

(** The transitions of the application. *)
Inductive Event : Type :=
| ImageSelected (file : File)
| ResetClicked
| AnalyzeRequested
| AnalyzeSettled (joined : JSON * TextExtractionResponse + JsError).

Definition step (s : State) (ev : Event) : State :=
  match ev with
  | ImageSelected file => handleImageChange file s
  | ResetClicked => handleReset s
  | AnalyzeRequested => analyzeRequested s
  | AnalyzeSettled joined => analyzeSettled joined s
  end.

Definition run (s : State) (evs : list Event) : State :=
  fold_left step evs s.

(** Whenever the state is [loading], an image is selected. *)
Definition loadingHasImage (s : State) : Prop :=
  appState s = loading -> imageFile s <> None.

End App.

Import App.

(** * The rest of [src/App.tsx] *)

(** ** [Uploader]: the two ways a file comes in *)

Module Uploader.

(** [s.startsWith(p)] *)
Definition startsWith (p s : jsstring) : bool :=
  match stripPrefix p s with Some _ => true | None => false end.

(** [handleFileChange]: [event.target.files] is a [FileList] or [null]; the
    first file, if there is one, goes to [onImageChange], whatever its type
    (the [accept] attribute of the input is a hint to the file dialog). *)
Definition handleFileChange (onImageChange : File -> State -> State)
  (files : option (list File)) (s : State) : State :=
  match files with
  | Some (file :: _) => onImageChange file s
  | _ => s
  end.

(** [handlePaste]: the first file of the clipboard, when its type starts with
    image/. *)
Definition handlePaste (onImageChange : File -> State -> State)
  (files : list File) (s : State) : State :=
  match files with
  | file :: _ =>
      if startsWith (js "image/") (type file) then onImageChange file s
      else s
  | [] => s
  end.

End Uploader.

(** ** What [App] returns: the JSX of lines 144 to 214

    The model follows the evaluation of the expression by the JavaScript
    engine: which branches are taken, which values are handed to the
    elements, and whether a property access or a call throws a [TypeError].
    What React does afterwards with the elements (and the preview image,
    which needs the object URL) is not modelled.  The icons come from
    ./components/icons; each import is bound to a component, a function,
    hence truthy. *)

Module View.

Inductive Icon : Type :=
| PersonIcon | BookIcon | ClothingIcon | BuildingIcon | NatureIcon | OtherIcon.

(** [const iconMap], an object literal: its own properties. *)
Definition iconMap : list (jsstring * Icon) :=
  [ (js "Person", PersonIcon);
    (js "Book", BookIcon);
    (js "Dress", ClothingIcon);
    (js "Hat", ClothingIcon);
    (js "Lisp", OtherIcon);
    (js "Building", BuildingIcon);
    (js "Nature", NatureIcon);
    (js "Other", OtherIcon) ].

(** The properties that an object literal inherits from [Object.prototype]
    (ECMA-262, with its annex B). *)
Definition objectPrototype : list jsstring :=
  [ js "constructor"; js "__defineGetter__"; js "__defineSetter__";
    js "hasOwnProperty"; js "__lookupGetter__"; js "__lookupSetter__";
    js "isPrototypeOf"; js "propertyIsEnumerable"; js "toString";
    js "valueOf"; js "__proto__"; js "toLocaleString" ].

(** What [IconComponent] is bound to: one of the icons, or a member that
    [iconMap] inherits (a function or an object, so truthy). *)
Inductive Component : Type :=
| IconOf (icon : Icon)
| InheritedMember (key : jsstring).

Fixpoint ownProperty (A : Type) (key : jsstring) (m : list (jsstring * A))
  : option A :=
  match m with
  | [] => None
  | (k, a) :: r => if JsString.eqb key k then Some a else ownProperty key r
  end.

(** [iconMap[key] || OtherIcon] for a string [key]. *)
Definition iconComponent (key : jsstring) : Component :=
  match ownProperty key iconMap with
  | Some icon => IconOf icon
  | None =>
      if existsb (JsString.eqb key) objectPrototype then InheritedMember key
      else IconOf OtherIcon
  end.

(** The property key that a value read from a reply is converted to.
    [OtherKey] stands for a string that names no property of [iconMap], own
    or inherited: the digits of a number, or array elements joined by
    commas.  [KeyThrows]: the conversion throws a [TypeError]. *)
Inductive PropertyKey : Type :=
| Key (s : jsstring)
| OtherKey
| KeyThrows.

Definition keyThrows (k : PropertyKey) : bool :=
  match k with KeyThrows => true | _ => false end.

(** [ToPropertyKey] on a value made by [JSON.parse].  An object is converted
    by [Object.prototype.toString], unless an own property named toString
    (never callable here) hides it: then [valueOf] gives the object back and
    the conversion throws.  An array is joined, null elements as empty. *)
Fixpoint toPropertyKey (v : JSON) : PropertyKey :=
  match v with
  | JNull => Key (js "null")
  | JBool true => Key (js "true")
  | JBool false => Key (js "false")
  | JNumber _ => OtherKey
  | JString s => Key s
  | JArray items =>
      match items with
      | [] => Key []
      | [x] => match x with JNull => Key [] | _ => toPropertyKey x end
      | _ =>
          if existsb (fun x => keyThrows (toPropertyKey x)) items
          then KeyThrows else OtherKey
      end
  | JObject members =>
      match lookup (js "toString") members with
      | Some _ => KeyThrows
      | None => Key (js "[object Object]")
      end
  end.

(** [v.key] for one of the keys the JSX reads (title, summary,
    detected_objects, color_palette, name, icon; no prototype has them):
    [None] is the [TypeError] of reading from null, [Some None] is
    [undefined]. *)
Definition readProperty (key : jsstring) (v : JSON) : option (option JSON) :=
  match v with
  | JNull => None
  | JObject members => Some (lookup key members)
  | _ => Some None
  end.

(** One entry of the detected-objects grid: the component and the child. *)
Record ObjectCard : Type :=
  { component : Component;
    label : option JSON }.

(** The callback of [detected_objects.map]. *)
Definition objectCard (obj : JSON) : option ObjectCard :=
  match readProperty (js "icon") obj with
  | None => None
  | Some icon =>
      match match icon with
            | Some i => toPropertyKey i
            | None => Key (js "undefined")
            end with
      | KeyThrows => None
      | OtherKey =>
          Some {| component := IconOf OtherIcon;
                  label := lookup (js "name")
                             match obj with JObject m => m | _ => [] end |}
      | Key k =>
          Some {| component := iconComponent k;
                  label := lookup (js "name")
                             match obj with JObject m => m | _ => [] end |}
      end
  end.

Fixpoint traverse (A B : Type) (f : A -> option B) (l : list A)
  : option (list B) :=
  match l with
  | [] => Some []
  | a :: r =>
      match f a, traverse f r with
      | Some b, Some bs => Some (b :: bs)
      | _, _ => None
      end
  end.

(** [x.map(f)] where [x] was read from a parsed reply: only an array has a
    callable [map]. *)
Definition arrayMap (A : Type) (f : JSON -> option A) (x : option JSON)
  : option (list A) :=
  match x with
  | Some (JArray items) => traverse f items
  | _ => None
  end.

(** The three analysis cards. *)
Record AnalysisCards : Type :=
  { title : option JSON;
    summary : option JSON;
    objects : list ObjectCard;
    palette : list JSON }.

(** The screen with an image selected. *)
Record Workspace : Type :=
  { analyzeDisabled : bool;
    loadingShown : bool;
    errorShown : option jsstring;
    cards : option AnalysisCards;
    textShown : option jsstring }.

Inductive Screen : Type :=
| UploaderScreen
| WorkspaceScreen (w : Workspace).

Definition isLoading (a : AppState) : bool :=
  match a with loading => true | _ => false end.

Section Render.

(** Whether the number that a lexeme denotes, rounded to a double, is zero. *)
Variable numberIsZero : jsstring -> bool.

(** [v && ...] *)
Definition truthy (v : JSON) : bool :=
  match v with
  | JNull => false
  | JBool b => b
  | JNumber n => negb (numberIsZero n)
  | JString [] => false
  | JString _ => true
  | JArray _ => true
  | JObject _ => true
  end.

(** [analysisResult && (<> ... </>)]: [None] is a [TypeError]. *)
Definition analysisBlock (analysisResult : option JSON)
  : option (option AnalysisCards) :=
  match analysisResult with
  | None => Some None
  | Some v =>
      if truthy v then
        match readProperty (js "title") v, readProperty (js "summary") v,
              readProperty (js "detected_objects") v,
              readProperty (js "color_palette") v with
        | Some t, Some s, Some d, Some c =>
            match arrayMap objectCard d, arrayMap (@Some JSON) c with
            | Some os, Some cs =>
                Some (Some {| title := t; summary := s;
                              objects := os; palette := cs |})
            | _, _ => None
            end
        | _, _, _, _ => None
        end
      else Some None
  end.

(** [textResult && textResult.text.trim() && (...)] *)
Definition textBlock (textResult : option TextExtractionResponse)
  : option jsstring :=
  match textResult with
  | Some t => match trim (text t) with [] => None | _ => Some (text t) end
  | None => None
  end.

(** [error && <div>{error}</div>] *)
Definition errorBlock (error : option jsstring) : option jsstring :=
  match error with
  | Some [] => None
  | Some m => Some m
  | None => None
  end.

(** The value of [App]'s [return]; [None] when evaluating it throws. *)
Definition render (s : State) : option Screen :=
  match imageFile s with
  | None => Some UploaderScreen
  | Some _ =>
      match analysisBlock (analysisResult s) with
      | None => None
      | Some cs =>
          Some (WorkspaceScreen
                  {| analyzeDisabled := isLoading (appState s);
                     loadingShown := isLoading (appState s);
                     errorShown := errorBlock (error s);
                     cards := cs;
                     textShown := textBlock (textResult s) |})
      end
  end.

End Render.

End View.

(** ** Sessions: what a user can do, and the runs still in flight

    A transition is offered only when its control is on the screen: the
    uploader when no image is selected, the two buttons when one is, the
    analyze button only when it is not disabled.  The counter is the number
    of [handleAnalyze] runs whose joined promise has not settled yet. *)

Module Session.

Inductive Ui : State -> nat -> Prop :=
| ui_start : Ui initial 0
| ui_select (s : State) (n : nat) (file : File) :
    Ui s n -> imageFile s = None -> Ui (handleImageChange file s) n
| ui_reset (s : State) (n : nat) :
    Ui s n -> imageFile s <> None -> Ui (handleReset s) n
| ui_analyze (s : State) (n : nat) :
    Ui s n -> imageFile s <> None -> appState s <> loading ->
    Ui (analyzeRequested s) (S n)
| ui_settle (s : State) (n : nat)
    (joined : JSON * TextExtractionResponse + JsError) :
    Ui s (S n) -> Ui (analyzeSettled joined s) n.

End Session.

(** * Vocabulary of the statements *)

(** ** Fixtures: a small readable file and services with a fixed answer *)

Definition sampleFile : File :=
  {| type := js "image/png";
     content := [Init.Byte.x89; Init.Byte.x50; Init.Byte.x4e; Init.Byte.x47];
     readFails := false |}.

Definition brokenFile : File :=
  {| type := js "image/png"; content := []; readFails := true |}.

(** Every name and every value of the parameters is made of code units
    that have [P]. *)
Definition keptParameters (P : char16 -> Prop)
  (ps : list (jsstring * jsstring)) : Prop :=
  Forall (fun p => Forall P (fst p) /\ Forall P (snd p)) ps.

(** A readable file whose type carries a parameter with a comma in its
    value. *)
Definition parameterFile : File :=
  {| type := js "image/png;x=a,b";
     content := [Init.Byte.x89; Init.Byte.x50; Init.Byte.x4e; Init.Byte.x47];
     readFails := false |}.

(** The service that answers every request with the same text. *)
Definition replyWith (reply : option jsstring)
  : GenAI.Parameters -> Promise GenAI.Response :=
  fun _ => Fulfilled {| GenAI.text := reply |}.

(** The service that answers structured requests with nothing and free-text
    requests with [reply]. *)
Definition replyToFreeTextOnly (reply : jsstring)
  : GenAI.Parameters -> Promise GenAI.Response :=
  fun request =>
    match GenAI.config request with
    | Some _ => Fulfilled {| GenAI.text := None |}
    | None => Fulfilled {| GenAI.text := Some reply |}
    end.

Definition selected (file : File) : State := handleImageChange file initial.

(** No [JSON.parse] among the effects. *)
Definition parsesNothing (effs : list Effect) : Prop :=
  forall t, ~ In (JsonParse t) effs.

(** No outbound call among the effects. *)
Definition callsNothing (effs : list Effect) : Prop :=
  forall r, ~ In (GenerateContent r) effs.

(** The two [replace] calls of the structured paths. *)
Definition cleanFences (s : jsstring) : jsstring :=
  replaceTrailingFence (replaceLeadingFence s).

(** The fences that the two regular expressions of the source remove: three
    backticks and json, with or without a line feed after them, in front;
    three backticks, with or without a line feed before them, behind. *)
Definition isLeadingFence (l : jsstring) : Prop :=
  l = [] \/ l = js "```json" \/ l = js "```json" ++ [10].

Definition isTrailingFence (t : jsstring) : Prop :=
  t = [] \/ t = js "```" \/ t = 10 :: js "```".

(** The fences as the specification words them: in front, a line of three
    backticks and any language tag, or none; behind, three backticks. *)
Definition isSpecLeadingFence (l : jsstring) : Prop :=
  l = [] \/ exists tag, ~ In 10 tag /\ l = js "```" ++ tag ++ [10].

Definition isSpecTrailingFence (t : jsstring) : Prop :=
  t = [] \/ t = js "```".

(** Some property that an object schema requires is absent from the value. *)
Definition missingRequired (schema : GenAI.Schema) (v : JSON) : bool :=
  match schema with
  | GenAI.OBJECT _ required =>
      existsb (fun k => match get k v with Some _ => false | None => true end)
        required
  | _ => false
  end.

(** The reply of the scenario: a fence line tagged json, an object whose
    string holds the two-character escape for a line feed, a closing
    fence. *)
Definition fencedHello : jsstring :=
  js "```json" ++ [10] ++
  js "{" ++ quoted "text" ++ js ":" ++ [34] ++ js "hello\nworld" ++ [34] ++
  js "}" ++ [10] ++ js "```".

Definition helloObject : JSON :=
  JObject [(js "text", JString (js "hello" ++ [10] ++ js "world"))].

(** An empty object between fence lines that carry no language tag. *)
Definition untaggedFence : jsstring :=
  js "```" ++ [10] ++ js "{}" ++ [10] ++ js "```".

(** An analysis reply that is valid JSON and has no [color_palette]. *)
Definition noPalette : jsstring :=
  js "{" ++ quoted "title" ++ js ":" ++ quoted "Dusk" ++ js "," ++
  quoted "summary" ++ js ":" ++ quoted "A quiet street." ++ js "," ++
  quoted "detected_objects" ++ js ":[]}".

Definition noPaletteObject : JSON :=
  JObject [(js "title", JString (js "Dusk"));
           (js "summary", JString (js "A quiet street."));
           (js "detected_objects", JArray [])].

(** A character that can begin a token, and one that can end a token. *)
Definition isTokenStart (c : char16) : bool :=
  (c =? 123) || (c =? 125) || (c =? 91) || (c =? 93) || (c =? 58) ||
  (c =? 44) || (c =? 34) || (c =? 45) || isDigit c ||
  (c =? 116) || (c =? 102) || (c =? 110).

Definition isTokenEnd (c : char16) : bool :=
  (c =? 123) || (c =? 125) || (c =? 91) || (c =? 93) || (c =? 58) ||
  (c =? 44) || (c =? 34) || isDigit c || (c =? 101) || (c =? 108).

(** What a helper of the lexer does with the last character [x] of its
    input, given its result [onAll] on the whole input and [onFront] on the
    input without [x]. *)
Definition leftOver (A : Type) (x : char16)
  (onAll onFront : option (A * jsstring)) : Prop :=
  forall a rest, onAll = Some (a, rest) ->
    (exists r, rest = r ++ [x] /\ onFront = Some (a, r)) \/
    (rest = [] /\ isTokenEnd x = true).

(** [lexNumber] after its sign. *)
Definition afterSign (sign s0 : jsstring) : option (jsstring * jsstring) :=
  match lexInt s0 with
  | None => None
  | Some (i, s1) =>
      match lexFrac s1 with
      | None => None
      | Some (f, s2) =>
          match lexExp s2 with
          | None => None
          | Some (e, s3) => Some (sign ++ i ++ f ++ e, s3)
          end
      end
  end.

(** What [trim] keeps of a wrapped text in front of the core of the payload
    and behind it: the fence and the payload's white space [w1] (or [w2])
    next to it, when there is a fence. *)
Definition frontKept (w1 lead : jsstring) : jsstring :=
  match lead with [] => [] | _ => lead ++ w1 end.

Definition backKept (w2 trail : jsstring) : jsstring :=
  match trail with [] => [] | _ => w2 ++ trail end.

(** ** The requests that the three calls build *)

Definition imagePartOf (file : File) : GenAI.Part :=
  GenAI.inlineData
    match readAsDataURL file with
    | Some result => nth_error (split 44 result) 1
    | None => None
    end
    (type file).

Definition analysisRequest (file : File) (p : jsstring) : GenAI.Parameters :=
  {| GenAI.model := js "gemini-2.5-flash";
     GenAI.parts := [imagePartOf file; GenAI.textPart p];
     GenAI.config := Some
       {| GenAI.systemInstruction := None;
          GenAI.responseMimeType := Some (js "application/json");
          GenAI.responseSchema := Some analysisSchema |} |}.

Definition extractionRequest (file : File) : GenAI.Parameters :=
  {| GenAI.model := js "gemini-2.5-flash";
     GenAI.parts := [imagePartOf file; GenAI.textPart extractPrompt];
     GenAI.config := None |}.

Definition suggestionsRequest (file : File) : GenAI.Parameters :=
  {| GenAI.model := js "gemini-2.5-flash";
     GenAI.parts := [imagePartOf file];
     GenAI.config := Some
       {| GenAI.systemInstruction := Some systemInstruction;
          GenAI.responseMimeType := Some (js "application/json");
          GenAI.responseSchema := Some suggestionsSchema |} |}.

(** The requests among the effects, in order. *)
Fixpoint requestsOf (effs : list Effect) : list GenAI.Parameters :=
  match effs with
  | [] => []
  | GenerateContent r :: rest => r :: requestsOf rest
  | _ :: rest => requestsOf rest
  end.

(** The texts handed to [JSON.parse], in order. *)
Fixpoint parsesOf (effs : list Effect) : list jsstring :=
  match effs with
  | [] => []
  | JsonParse t :: rest => t :: parsesOf rest
  | _ :: rest => parsesOf rest
  end.

(** The service that answers structured requests with one text and
    free-text requests with another. *)
Definition replyByKind (structured freeText : jsstring)
  : GenAI.Parameters -> Promise GenAI.Response :=
  fun request =>
    match GenAI.config request with
    | Some _ => Fulfilled {| GenAI.text := Some structured |}
    | None => Fulfilled {| GenAI.text := Some freeText |}
    end.

(** The service that fails structured requests with an empty answer and never
    answers free-text requests. *)
Definition silentOnFreeText : GenAI.Parameters -> Promise GenAI.Response :=
  fun request =>
    match GenAI.config request with
    | Some _ => Fulfilled {| GenAI.text := None |}
    | None => Pending
    end.

(** The service that rejects every request. *)
Definition failWith (e : JsError) : GenAI.Parameters -> Promise GenAI.Response :=
  fun _ => Rejected e.

(** A value with the shape that [analysisSchema] asks for, as far as the JSX
    relies on it: an object whose [detected_objects] is an array of objects
    with a string (or no) [icon], and whose [color_palette] is an array. *)
Definition plainObject (obj : JSON) : bool :=
  match obj with
  | JObject m =>
      match lookup (js "icon") m with
      | Some (JString _) => true
      | None => true
      | _ => false
      end
  | _ => false
  end.

Definition hasAnalysisShape (v : JSON) : bool :=
  match v with
  | JObject m =>
      match lookup (js "detected_objects") m, lookup (js "color_palette") m with
      | Some (JArray objs), Some (JArray _) => forallb plainObject objs
      | _, _ => false
      end
  | _ => false
  end.

(** The grid entry that the JSX makes of such an object. *)
Definition plainCard (obj : JSON) : View.ObjectCard :=
  {| View.component :=
       View.iconComponent
         match get (js "icon") obj with
         | Some (JString k) => k
         | _ => js "undefined"
         end;
     View.label := get (js "name") obj |}.

Definition isArray (x : option JSON) : bool :=
  match x with Some (JArray _) => true | _ => false end.

(** A reply with the full shape. *)
Definition fullReply : jsstring :=
  js "{" ++ quoted "title" ++ js ":" ++ quoted "Dusk" ++ js "," ++
  quoted "summary" ++ js ":" ++ quoted "A quiet street." ++ js "," ++
  quoted "detected_objects" ++ js ":[{" ++ quoted "name" ++ js ":" ++
  quoted "Cat" ++ js "," ++ quoted "icon" ++ js ":" ++ quoted "Animal" ++
  js "}]," ++ quoted "color_palette" ++ js ":[" ++ quoted "#102030" ++
  js "]}".

Definition fullReplyObject : JSON :=
  JObject [(js "title", JString (js "Dusk"));
           (js "summary", JString (js "A quiet street."));
           (js "detected_objects",
            JArray [JObject [(js "name", JString (js "Cat"));
                             (js "icon", JString (js "Animal"))]]);
           (js "color_palette", JArray [JString (js "#102030")])].

(** * Properties *)

Ltac run_service H_read H_svc :=
  unfold analyzeImage, getPromptSuggestions, extractTextFromImage,
    fileToGenerativePart, base64EncodedDataPromise, readAsDataURL,
    ai_models_generateContent;
  rewrite ?H_read;
  cbn [bind perform await tryCatch ret throw fst snd app];
  rewrite ?H_svc;
  cbn [bind perform await tryCatch ret throw fst snd app GenAI.text].

Ltac no_effect :=
  let t := fresh "t" in
  let H := fresh "H" in
  intros t H; cbn [In] in H;
  repeat (destruct H as [H | H]; [discriminate H |]); exact H.

(** ** The platform models on known inputs *)

Example trim_removes_unicode_space :
  trim ([160; 32; 10] ++ js "a b" ++ [9; 8232; 65279]) = js "a b".
Proof. vm_compute. reflexivity. Qed.

Example split_keeps_empty_pieces :
  split 44 (js ",a,,b") = [[]; js "a"; []; js "b"].
Proof. vm_compute. reflexivity. Qed.

Example replace_takes_one_line_feed :
  cleanFences (js "```json" ++ [10; 10] ++ js "1" ++ [10; 10] ++ js "```")
    = [10] ++ js "1" ++ [10].
Proof. vm_compute. reflexivity. Qed.

Example parse_nested :
  parse (js " [1, -2.5e+3, true, null, {}, [[]]] ")
    = Some (JArray [JNumber (js "1"); JNumber (js "-2.5e+3"); JBool true;
                    JNull; JObject []; JArray [JArray []]]).
Proof. vm_compute. reflexivity. Qed.

Example parse_unicode_escape :
  parse (quoted "\u0041\/\t") = Some (JString [65; 47; 9]).
Proof. vm_compute. reflexivity. Qed.

Example parse_rejects :
  map parse [js ""; js "01"; js "[1,]"; js "{} {}"; js "1."; js "tru";
             js "+1"; quoted "a" ++ js ":1"; [34; 9; 34]; js "{'a':1}"]
    = repeat None 10.
Proof. vm_compute. reflexivity. Qed.

(** The test vectors of RFC 4648, section 10. *)
Example encode_rfc4648 :
  map Base64.encode
    [[]; [Init.Byte.x66]; [Init.Byte.x66; Init.Byte.x6f];
     [Init.Byte.x66; Init.Byte.x6f; Init.Byte.x6f];
     [Init.Byte.x66; Init.Byte.x6f; Init.Byte.x6f; Init.Byte.x62];
     [Init.Byte.x66; Init.Byte.x6f; Init.Byte.x6f; Init.Byte.x62;
      Init.Byte.x61; Init.Byte.x72]]
    = [js ""; js "Zg=="; js "Zm8="; js "Zm9v"; js "Zm9vYg=="; js "Zm9vYmFy"].
Proof. vm_compute. reflexivity. Qed.

Example readAsDataURL_sample :
  readAsDataURL sampleFile = Some (js "data:image/png;base64,iVBORw==").
Proof. vm_compute. reflexivity. Qed.

Example mediaType_written :
  mediaType (js "image/png") = js "image/png" /\
  mediaType (js " IMAGE/PNG ; Charset=UTF-8") = js "image/png;charset=UTF-8" /\
  mediaType [] = js "application/octet-stream" /\
  mediaType (js "image") = js "application/octet-stream" /\
  mediaType (js "image/png,x") = js "application/octet-stream" /\
  mediaType (js "image/png;x=a,b")
    = js "image/png;x=" ++ [34] ++ js "a,b" ++ [34] /\
  mediaType (js "image/png;x=1;x=2;y;=z;w=")
    = js "image/png;x=1".
Proof. vm_compute. repeat split. Qed.

Example readAsDataURL_unparsable_type :
  readAsDataURL {| type := js "image/png,x";
                   content := content sampleFile;
                   readFails := false |}
    = Some (js "data:application/octet-stream;base64,iVBORw==").
Proof. vm_compute. reflexivity. Qed.

(** ** Facts about the lexical grammar *)

Module JsonFacts.

(** Turns every comparison of the goal into its two cases. *)
Ltac compare_all :=
  repeat match goal with
    | |- context [N.eqb ?a ?b] => destruct (N.eqb_spec a b); try lia
    | |- context [N.leb ?a ?b] => destruct (N.leb_spec a b); try lia
    | |- context [N.ltb ?a ?b] => destruct (N.ltb_spec a b); try lia
    end;
  cbn [andb orb negb]; try reflexivity; try discriminate; try lia.

Ltac compare_in H :=
  repeat match type of H with
    | context [N.eqb ?a ?b] => destruct (N.eqb_spec a b); try lia
    | context [N.leb ?a ?b] => destruct (N.leb_spec a b); try lia
    | context [N.ltb ?a ?b] => destruct (N.ltb_spec a b); try lia
    end;
  cbn [andb orb negb] in H; try discriminate H.

Lemma jsonWs_is_whiteSpace (c : char16) :
  isJsonWs c = true -> isWhiteSpace c = true.
Proof.
  unfold isJsonWs, isWhiteSpace. intros H. compare_in H; compare_all.
Qed.

Ltac split_cases H :=
  repeat (apply orb_true_iff in H; destruct H as [H | H]).

Ltac plain_char H :=
  first
    [ apply N.eqb_eq in H; subst; vm_compute;
      repeat split; intros; discriminate
    | let Ha := fresh "Ha" in
      let Hb := fresh "Hb" in
      unfold isDigit in H; apply andb_true_iff in H;
      destruct H as [Ha Hb]; apply N.leb_le in Ha, Hb;
      unfold isWhiteSpace, isJsonWs;
      (repeat split; [compare_all | compare_all | lia | lia]) ].

Lemma tokenStart_plain (c : char16) :
  isTokenStart c = true ->
  isWhiteSpace c = false /\ isJsonWs c = false /\ c <> 96 /\ c <> 10.
Proof.
  unfold isTokenStart. intros H. split_cases H; plain_char H.
Qed.

Lemma tokenEnd_plain (c : char16) :
  isTokenEnd c = true ->
  isWhiteSpace c = false /\ isJsonWs c = false /\ c <> 96 /\ c <> 10.
Proof.
  unfold isTokenEnd. intros H. split_cases H; plain_char H.
Qed.

Lemma digit_is_tokenEnd (c : char16) : isDigit c = true -> isTokenEnd c = true.
Proof.
  intros H. unfold isTokenEnd. rewrite H. rewrite !orb_true_r. reflexivity.
Qed.

(** *** What a helper of the lexer does with the last character

    The input is [s ++ [x]].  Either [x] is left in the rest, and the helper
    does on [s] what it did; or [x] was taken as the last character of the
    token ([leftOver]). *)

Lemma spanDigits_snoc (x : char16) (s d rest : jsstring) :
  spanDigits (s ++ [x]) = (d, rest) ->
  (exists r, rest = r ++ [x] /\ spanDigits s = (d, r)) \/
  (rest = [] /\ isTokenEnd x = true).
Proof.
  revert d rest.
  induction s as [| c r IH]; intros d rest H; cbn [app spanDigits] in *.
  - destruct (isDigit x) eqn:E; inversion H; subst.
    + right. split; [reflexivity | apply digit_is_tokenEnd, E].
    + left. exists []. split; reflexivity.
  - destruct (isDigit c) eqn:E.
    + destruct (spanDigits (r ++ [x])) as [d' r'] eqn:E1.
      inversion H; subst.
      destruct (IH d' rest eq_refl) as [(r1 & -> & ->) | (-> & Hx)].
      * left. exists r1. split; reflexivity.
      * right. split; [reflexivity | exact Hx].
    + inversion H; subst. left. exists (c :: r). split; reflexivity.
Qed.

Lemma lexInt_snoc (x : char16) (s : jsstring) :
  leftOver x (lexInt (s ++ [x])) (lexInt s).
Proof.
  intros i rest H. destruct s as [| c r]; cbn [app lexInt] in *.
  - destruct (x =? 48) eqn:E0.
    + inversion H; subst. right. split; [reflexivity |].
      apply N.eqb_eq in E0; subst; reflexivity.
    + destruct (isDigit x) eqn:E; [| discriminate H].
      cbn [spanDigits] in H. inversion H; subst.
      right. split; [reflexivity | apply digit_is_tokenEnd, E].
  - destruct (c =? 48).
    + inversion H; subst. left. exists r. split; reflexivity.
    + destruct (isDigit c); [| discriminate H].
      destruct (spanDigits (r ++ [x])) as [d' r'] eqn:E1.
      inversion H; subst.
      destruct (spanDigits_snoc _ _ E1) as [(r1 & -> & ->) | (-> & Hx)].
      * left. exists r1. split; reflexivity.
      * right. split; [reflexivity | exact Hx].
Qed.

Lemma lexFrac_snoc (x : char16) (s : jsstring) :
  leftOver x (lexFrac (s ++ [x])) (lexFrac s).
Proof.
  intros f rest H. destruct s as [| c r]; cbn [app lexFrac] in *.
  - destruct (x =? 46).
    + cbn [spanDigits] in H. discriminate H.
    + inversion H; subst. left. exists []. split; reflexivity.
  - destruct (c =? 46).
    + destruct (spanDigits (r ++ [x])) as [d' r'] eqn:E1.
      destruct (spanDigits_snoc _ _ E1) as [(r1 & -> & ->) | (-> & Hx)].
      * destruct d' as [| d0 d']; [discriminate H |].
        inversion H; subst. left. exists r1. split; reflexivity.
      * destruct d' as [| d0 d']; [discriminate H |].
        inversion H; subst. right. split; [reflexivity | exact Hx].
    + inversion H; subst. left. exists (c :: r). split; reflexivity.
Qed.

Lemma lexExp_snoc (x : char16) (s : jsstring) :
  leftOver x (lexExp (s ++ [x])) (lexExp s).
Proof.
  intros e rest H. destruct s as [| c r]; cbn [app lexExp] in *.
  - destruct ((x =? 101) || (x =? 69)).
    + cbn [spanDigits] in H. discriminate H.
    + inversion H; subst. left. exists []. split; reflexivity.
  - destruct ((c =? 101) || (c =? 69)).
    + destruct r as [| g r0]; cbn [app] in H.
      * destruct ((x =? 43) || (x =? 45)).
        -- cbn [spanDigits] in H. discriminate H.
        -- cbn [spanDigits] in H. destruct (isDigit x) eqn:E.
           ++ inversion H; subst. right.
              split; [reflexivity | apply digit_is_tokenEnd, E].
           ++ discriminate H.
      * destruct ((g =? 43) || (g =? 45)).
        -- destruct (spanDigits (r0 ++ [x])) as [d' r'] eqn:E1.
           destruct (spanDigits_snoc _ _ E1) as [(r1 & -> & ->) | (-> & Hx)].
           ++ destruct d' as [| d0 d']; [discriminate H |].
              inversion H; subst. left. exists r1. split; reflexivity.
           ++ destruct d' as [| d0 d']; [discriminate H |].
              inversion H; subst. right. split; [reflexivity | exact Hx].
        -- change (g :: r0 ++ [x]) with ((g :: r0) ++ [x]) in H.
           destruct (spanDigits ((g :: r0) ++ [x])) as [d' r'] eqn:E1.
           destruct (spanDigits_snoc _ _ E1) as [(r1 & -> & Hr) | (-> & Hx)].
           ++ cbv zeta iota beta. rewrite Hr.
              destruct d' as [| d0 d']; [discriminate H |].
              inversion H; subst. left. exists r1. split; reflexivity.
           ++ destruct d' as [| d0 d']; [discriminate H |].
              inversion H; subst. right. split; [reflexivity | exact Hx].
    + inversion H; subst. left. exists (c :: r). split; reflexivity.
Qed.

Lemma lexNumber_afterSign (s : jsstring) :
  lexNumber s =
  match s with
  | c :: r => if c =? 45 then afterSign [c] r else afterSign [] s
  | [] => afterSign [] s
  end.
Proof.
  unfold lexNumber, afterSign.
  destruct s as [| c r]; [reflexivity |].
  destruct (c =? 45); reflexivity.
Qed.

Lemma afterSign_snoc (x : char16) (sign s : jsstring) :
  leftOver x (afterSign sign (s ++ [x])) (afterSign sign s).
Proof.
  intros lx rest H. unfold afterSign in *.
  destruct (lexInt (s ++ [x])) as [[i s1] |] eqn:Ei; [| discriminate H].
  destruct (lexInt_snoc _ _ Ei) as [(r1 & -> & ->) | (-> & Hx)].
  - destruct (lexFrac (r1 ++ [x])) as [[f s2] |] eqn:Ef; [| discriminate H].
    destruct (lexFrac_snoc _ _ Ef) as [(r2 & -> & ->) | (-> & Hx)].
    + destruct (lexExp (r2 ++ [x])) as [[e s3] |] eqn:Ee; [| discriminate H].
      inversion H; subst.
      destruct (lexExp_snoc _ _ Ee) as [(r3 & -> & ->) | (-> & Hx)].
      * left. exists r3. split; reflexivity.
      * right. split; [reflexivity | exact Hx].
    + cbn in H. inversion H; subst. right. split; [reflexivity | exact Hx].
  - cbn in H. inversion H; subst. right. split; [reflexivity | exact Hx].
Qed.

Lemma lexNumber_snoc (x : char16) (s : jsstring) :
  leftOver x (lexNumber (s ++ [x])) (lexNumber s).
Proof.
  rewrite !lexNumber_afterSign.
  destruct s as [| c r]; cbn [app].
  - destruct (x =? 45).
    + intros lx rest H. discriminate H.
    + apply (afterSign_snoc x [] []).
  - destruct (c =? 45).
    + apply afterSign_snoc.
    + apply (afterSign_snoc x [] (c :: r)).
Qed.

Lemma consChar_Some (u : char16) (o : option (jsstring * jsstring))
  (str rest : jsstring) :
  consChar u o = Some (str, rest) ->
  exists str', o = Some (str', rest) /\ str = u :: str'.
Proof.
  destruct o as [[s0 r0] |]; cbn; intros H; inversion H; subst.
  exists s0. split; reflexivity.
Qed.

Lemma lexString_snoc_bounded (x : char16) (n : nat) :
  forall s, (List.length s <= n)%nat ->
  leftOver x (lexString (s ++ [x])) (lexString s).
Proof.
  induction n as [| n IH]; intros s Hn str rest H.
  - destruct s; [| cbn in Hn; lia].
    cbn [app lexString] in H.
    destruct (x =? 34) eqn:E.
    + inversion H; subst. right. split; [reflexivity |].
      apply N.eqb_eq in E; subst; reflexivity.
    + destruct (x =? 92); [discriminate H |].
      destruct (x <? 32); discriminate H.
  - destruct s as [| c r].
    { apply (IH [] ltac:(cbn; lia) str rest H). }
    cbn [List.length] in Hn. cbn [app lexString] in H |- *.
    destruct (c =? 34).
    { inversion H; subst. left. exists r. split; reflexivity. }
    destruct (c =? 92).
    + destruct r as [| e r1]; cbn [app] in H.
      { destruct (x =? 117); [discriminate H |].
        destruct (unescape x); discriminate H. }
      cbn [List.length] in Hn.
      destruct (e =? 117).
      * destruct r1 as [| a [| b [| c' [| d r2]]]]; cbn [app] in H;
          try discriminate H.
        -- destruct (hex4 a b c' x); discriminate H.
        -- cbn [List.length] in Hn.
           destruct (hex4 a b c' d) as [u |]; [| discriminate H].
           apply consChar_Some in H. destruct H as (str' & H & ->).
           destruct (IH r2 ltac:(lia) str' rest H)
             as [(r3 & -> & ->) | (-> & Hx)].
           ++ left. exists r3. split; reflexivity.
           ++ right. split; [reflexivity | exact Hx].
      * destruct (unescape e) as [u |]; [| discriminate H].
        apply consChar_Some in H. destruct H as (str' & H & ->).
        destruct (IH r1 ltac:(lia) str' rest H)
          as [(r3 & -> & ->) | (-> & Hx)].
        -- left. exists r3. split; reflexivity.
        -- right. split; [reflexivity | exact Hx].
    + destruct (c <? 32); [discriminate H |].
      apply consChar_Some in H. destruct H as (str' & H & ->).
      destruct (IH r ltac:(lia) str' rest H) as [(r3 & -> & ->) | (-> & Hx)].
      * left. exists r3. split; reflexivity.
      * right. split; [reflexivity | exact Hx].
Qed.

Lemma lexString_snoc (x : char16) (s : jsstring) :
  leftOver x (lexString (s ++ [x])) (lexString s).
Proof. apply (@lexString_snoc_bounded x (List.length s) s (le_n _)). Qed.

Lemma stripPrefix_snoc (x : char16) (p : jsstring) :
  forall s rest,
    stripPrefix p (s ++ [x]) = Some rest ->
    (exists r, rest = r ++ [x] /\ stripPrefix p s = Some r) \/
    (rest = [] /\ exists p0, p = p0 ++ [x]).
Proof.
  induction p as [| c p' IH]; intros s rest H.
  - cbn in H. inversion H; subst. left. exists s. split; reflexivity.
  - destruct s as [| d s']; cbn [app stripPrefix] in *.
    + destruct (N.eqb_spec c x) as [-> | _]; [| discriminate H].
      destruct p'; [| discriminate H].
      inversion H; subst. right. split; [reflexivity |].
      exists []. reflexivity.
    + destruct (c =? d); [| discriminate H].
      destruct (IH s' rest H) as [(r & -> & ->) | (-> & p0 & ->)].
      * left. exists r. split; reflexivity.
      * right. split; [reflexivity |]. exists (c :: p0). reflexivity.
Qed.

(** The three literal names end in a character that ends a token. *)
Lemma literal_snoc (x : char16) (lit s rest : jsstring) :
  isTokenEnd (last lit 0) = true ->
  stripPrefix lit (s ++ [x]) = Some rest ->
  (exists r, rest = r ++ [x] /\ stripPrefix lit s = Some r) \/
  (rest = [] /\ isTokenEnd x = true).
Proof.
  intros Hl H.
  destruct (stripPrefix_snoc _ _ _ H) as [L | (-> & p0 & ->)].
  - left. exact L.
  - right. split; [reflexivity |]. rewrite last_last in Hl. exact Hl.
Qed.

Lemma stripPrefix_app_None (p s w : jsstring) :
  stripPrefix p (s ++ w) = None -> stripPrefix p s = None.
Proof.
  revert s. induction p as [| c p' IH]; intros s H.
  - discriminate H.
  - destruct s as [| d s']; [reflexivity |].
    cbn [app stripPrefix] in *.
    destruct (c =? d); [apply IH, H | reflexivity].
Qed.

Lemma consTok_Some (t : token) (o : option (list token)) (ts : list token) :
  consTok t o = Some ts -> exists ts', o = Some ts' /\ ts = t :: ts'.
Proof.
  destruct o as [ts0 |]; cbn; intros H; inversion H; subst.
  exists ts0. split; reflexivity.
Qed.

Lemma lexTokens_nil (n : nat) : lexTokens n [] = Some [].
Proof. destruct n; reflexivity. Qed.

Ltac token_end E :=
  right; unfold isTokenEnd; rewrite E; rewrite ?orb_true_r; reflexivity.

(** *** The last character of a text that lexes

    It is white space, and then the text without it lexes to the same
    tokens; or it ends a token. *)
Lemma lexTokens_snoc (x : char16) (n : nat) :
  forall s ts,
    lexTokens n (s ++ [x]) = Some ts ->
    (isJsonWs x = true /\ lexTokens n s = Some ts) \/ isTokenEnd x = true.
Proof.
  induction n as [| n IH]; intros s ts H.
  { destruct s; cbn in H; discriminate H. }
  assert (step : forall t r ts0,
            consTok t (lexTokens n (r ++ [x])) = Some ts0 ->
            (isJsonWs x = true /\ consTok t (lexTokens n r) = Some ts0) \/
            isTokenEnd x = true).
  { intros t r ts0 H0. apply consTok_Some in H0.
    destruct H0 as (ts' & H0 & ->).
    destruct (IH _ _ H0) as [[Hw Hl] | Hx]; [left | right; exact Hx].
    split; [exact Hw | rewrite Hl; reflexivity]. }
  destruct s as [| c r]; cbn [app lexTokens] in H |- *.
  - destruct (isJsonWs x) eqn:Ew.
    { rewrite lexTokens_nil in H. left. split; [reflexivity | exact H]. }
    destruct (x =? 123) eqn:E1; [token_end E1 |].
    destruct (x =? 125) eqn:E2; [token_end E2 |].
    destruct (x =? 91) eqn:E3; [token_end E3 |].
    destruct (x =? 93) eqn:E4; [token_end E4 |].
    destruct (x =? 58) eqn:E5; [token_end E5 |].
    destruct (x =? 44) eqn:E6; [token_end E6 |].
    destruct (x =? 34) eqn:E7; [token_end E7 |].
    destruct ((x =? 45) || isDigit x).
    { destruct (lexNumber [x]) as [[lx rest] |] eqn:En; [| discriminate H].
      destruct (@lexNumber_snoc x [] lx rest En) as [(r & _ & Hr) | (_ & Hx)];
        [discriminate Hr | right; exact Hx]. }
    destruct (stripPrefix (js "true") [x]) as [rest |] eqn:Et.
    { destruct (@literal_snoc x (js "true") [] rest eq_refl Et)
        as [(r & _ & Hr) | (_ & Hx)]; [discriminate Hr | right; exact Hx]. }
    destruct (stripPrefix (js "false") [x]) as [rest |] eqn:Ef.
    { destruct (@literal_snoc x (js "false") [] rest eq_refl Ef)
        as [(r & _ & Hr) | (_ & Hx)]; [discriminate Hr | right; exact Hx]. }
    destruct (stripPrefix (js "null") [x]) as [rest |] eqn:En;
      [| discriminate H].
    destruct (@literal_snoc x (js "null") [] rest eq_refl En)
      as [(r & _ & Hr) | (_ & Hx)]; [discriminate Hr | right; exact Hx].
  - destruct (isJsonWs c); [apply IH, H |].
    destruct (c =? 123); [apply step, H |].
    destruct (c =? 125); [apply step, H |].
    destruct (c =? 91); [apply step, H |].
    destruct (c =? 93); [apply step, H |].
    destruct (c =? 58); [apply step, H |].
    destruct (c =? 44); [apply step, H |].
    destruct (c =? 34).
    { destruct (lexString (r ++ [x])) as [[str rest] |] eqn:Es;
        [| discriminate H].
      destruct (lexString_snoc _ _ Es) as [(r1 & -> & ->) | (_ & Hx)];
        [apply step, H | right; exact Hx]. }
    destruct ((c =? 45) || isDigit c).
    { change (c :: r ++ [x]) with ((c :: r) ++ [x]) in H.
      destruct (lexNumber ((c :: r) ++ [x])) as [[lx rest] |] eqn:En;
        [| discriminate H].
      destruct (lexNumber_snoc _ _ En) as [(r1 & -> & ->) | (_ & Hx)];
        [apply step, H | right; exact Hx]. }
    change (c :: r ++ [x]) with ((c :: r) ++ [x]) in H.
    destruct (stripPrefix (js "true") ((c :: r) ++ [x])) as [rest |] eqn:Et.
    { destruct (@literal_snoc x (js "true") _ rest eq_refl Et)
        as [(r1 & -> & ->) | (_ & Hx)]; [apply step, H | right; exact Hx]. }
    rewrite (stripPrefix_app_None _ _ _ Et).
    destruct (stripPrefix (js "false") ((c :: r) ++ [x])) as [rest |] eqn:Ef.
    { destruct (@literal_snoc x (js "false") _ rest eq_refl Ef)
        as [(r1 & -> & ->) | (_ & Hx)]; [apply step, H | right; exact Hx]. }
    rewrite (stripPrefix_app_None _ _ _ Ef).
    destruct (stripPrefix (js "null") ((c :: r) ++ [x])) as [rest |] eqn:En;
      [| discriminate H].
    destruct (@literal_snoc x (js "null") _ rest eq_refl En)
      as [(r1 & -> & ->) | (_ & Hx)]; [apply step, H | right; exact Hx].
Qed.

(** *** Fuel

    Every step of [lexTokens] takes at least one character, so any fuel from
    the length of the text on gives the same result. *)

Lemma spanDigits_length (s d r : jsstring) :
  spanDigits s = (d, r) -> (List.length r <= List.length s)%nat.
Proof.
  revert d r. induction s as [| c s' IH]; intros d r H; cbn [spanDigits] in H.
  - inversion H; subst. apply le_n.
  - destruct (isDigit c).
    + destruct (spanDigits s') as [d' r'] eqn:E. inversion H; subst.
      specialize (IH _ _ eq_refl). cbn [List.length]. lia.
    + inversion H; subst. apply le_n.
Qed.

Lemma lexInt_length (s i r : jsstring) :
  lexInt s = Some (i, r) -> (List.length r < List.length s)%nat.
Proof.
  destruct s as [| c s']; cbn [lexInt]; intros H; [discriminate H |].
  destruct (c =? 48).
  - inversion H; subst. cbn [List.length]. lia.
  - destruct (isDigit c); [| discriminate H].
    destruct (spanDigits s') as [d' r'] eqn:E. inversion H; subst.
    apply spanDigits_length in E. cbn [List.length]. lia.
Qed.

Lemma lexFrac_length (s f r : jsstring) :
  lexFrac s = Some (f, r) -> (List.length r <= List.length s)%nat.
Proof.
  destruct s as [| c s']; cbn [lexFrac]; intros H.
  - inversion H; subst. apply le_n.
  - destruct (c =? 46).
    + destruct (spanDigits s') as [d' r'] eqn:E.
      apply spanDigits_length in E.
      destruct d'; [discriminate H |]. inversion H; subst.
      cbn [List.length]. lia.
    + inversion H; subst. apply le_n.
Qed.

Lemma lexExp_length (s e r : jsstring) :
  lexExp s = Some (e, r) -> (List.length r <= List.length s)%nat.
Proof.
  destruct s as [| c s']; cbn [lexExp]; intros H.
  - inversion H; subst. apply le_n.
  - destruct ((c =? 101) || (c =? 69)).
    + destruct s' as [| g s0].
      * cbn in H. discriminate H.
      * destruct ((g =? 43) || (g =? 45)).
        -- destruct (spanDigits s0) as [d' r'] eqn:E.
           apply spanDigits_length in E.
           destruct d'; [discriminate H |]. inversion H; subst.
           cbn [List.length]. lia.
        -- destruct (spanDigits (g :: s0)) as [d' r'] eqn:E.
           apply spanDigits_length in E.
           destruct d'; [discriminate H |]. inversion H; subst.
           cbn [List.length] in *. lia.
    + inversion H; subst. apply le_n.
Qed.

Lemma afterSign_length (sign s lx r : jsstring) :
  afterSign sign s = Some (lx, r) -> (List.length r < List.length s)%nat.
Proof.
  unfold afterSign. intros H.
  destruct (lexInt s) as [[i s1] |] eqn:Ei; [| discriminate H].
  destruct (lexFrac s1) as [[f s2] |] eqn:Ef; [| discriminate H].
  destruct (lexExp s2) as [[e s3] |] eqn:Ee; [| discriminate H].
  inversion H; subst.
  apply lexInt_length in Ei. apply lexFrac_length in Ef.
  apply lexExp_length in Ee. lia.
Qed.

Lemma lexNumber_length (s lx r : jsstring) :
  lexNumber s = Some (lx, r) -> (List.length r < List.length s)%nat.
Proof.
  rewrite lexNumber_afterSign. destruct s as [| c s'].
  - intros H. discriminate H.
  - destruct (c =? 45); intros H; apply afterSign_length in H;
      cbn [List.length] in *; lia.
Qed.

Lemma lexString_length_bounded (n : nat) :
  forall s str r,
    (List.length s <= n)%nat ->
    lexString s = Some (str, r) -> (List.length r < List.length s)%nat.
Proof.
  induction n as [| n IH]; intros s str r Hn H.
  - destruct s; [discriminate H | cbn in Hn; lia].
  - destruct s as [| c s']; [discriminate H |].
    cbn [List.length] in *. cbn [lexString] in H.
    destruct (c =? 34); [inversion H; subst; lia |].
    destruct (c =? 92).
    + destruct s' as [| e s1]; [discriminate H |].
      cbn [List.length] in *.
      destruct (e =? 117).
      * destruct s1 as [| a [| b [| c' [| d s2]]]]; try discriminate H.
        cbn [List.length] in *.
        destruct (hex4 a b c' d); [| discriminate H].
        apply consChar_Some in H. destruct H as (str' & H & _).
        apply IH in H; lia.
      * destruct (unescape e); [| discriminate H].
        apply consChar_Some in H. destruct H as (str' & H & _).
        apply IH in H; lia.
    + destruct (c <? 32); [discriminate H |].
      apply consChar_Some in H. destruct H as (str' & H & _).
      apply IH in H; lia.
Qed.

Lemma lexString_length (s str r : jsstring) :
  lexString s = Some (str, r) -> (List.length r < List.length s)%nat.
Proof. apply (@lexString_length_bounded (List.length s)), le_n. Qed.

Lemma stripPrefix_length (p : jsstring) :
  forall s r,
    stripPrefix p s = Some r ->
    List.length s = (List.length p + List.length r)%nat.
Proof.
  induction p as [| c p' IH]; intros s r H.
  - inversion H; subst. reflexivity.
  - destruct s as [| d s']; [discriminate H |].
    cbn [stripPrefix] in H. destruct (c =? d); [| discriminate H].
    apply IH in H. cbn [List.length]. lia.
Qed.

Lemma lexTokens_fuel (n : nat) :
  forall m s,
    (List.length s <= n)%nat -> (List.length s <= m)%nat ->
    lexTokens n s = lexTokens m s.
Proof.
  induction n as [| n IH]; intros m s Hn Hm.
  { destruct s; [| cbn in Hn; lia]. rewrite !lexTokens_nil. reflexivity. }
  destruct s as [| c r]; [rewrite !lexTokens_nil; reflexivity |].
  destruct m as [| m]; [cbn in Hm; lia |].
  cbn [List.length] in Hn, Hm.
  assert (go : forall r', (List.length r' <= List.length r)%nat ->
                          lexTokens n r' = lexTokens m r').
  { intros r' Hr. apply IH; lia. }
  cbn [lexTokens].
  rewrite (go r (le_n _)).
  destruct (isJsonWs c); [reflexivity |].
  repeat match goal with
         | |- (if ?b then consTok ?t _ else _) = _ =>
             destruct b; [reflexivity |]
         end.
  destruct (c =? 34).
  { destruct (lexString r) as [[str rest] |] eqn:Es; [| reflexivity].
    apply lexString_length in Es. rewrite go; [reflexivity | lia]. }
  destruct ((c =? 45) || isDigit c).
  { destruct (lexNumber (c :: r)) as [[lx rest] |] eqn:En; [| reflexivity].
    apply lexNumber_length in En. cbn [List.length] in En.
    rewrite go; [reflexivity | lia]. }
  destruct (stripPrefix (js "true") (c :: r)) as [rest |] eqn:Et.
  { apply stripPrefix_length in Et. cbn [List.length] in Et.
    rewrite go; [reflexivity | cbn in Et; lia]. }
  destruct (stripPrefix (js "false") (c :: r)) as [rest |] eqn:Ef.
  { apply stripPrefix_length in Ef. cbn [List.length] in Ef.
    rewrite go; [reflexivity | cbn in Ef; lia]. }
  destruct (stripPrefix (js "null") (c :: r)) as [rest |] eqn:El;
    [| reflexivity].
  apply stripPrefix_length in El. cbn [List.length] in El.
  rewrite go; [reflexivity | cbn in El; lia].
Qed.

(** *** White space around a JSON text *)

Lemma lex_leading (w s : jsstring) :
  forallb isJsonWs w = true -> lex (w ++ s) = lex s.
Proof.
  induction w as [| c w' IH]; intros H; cbn [app forallb] in *.
  - reflexivity.
  - apply andb_true_iff in H. destruct H as [Hc Hw].
    rewrite <- (IH Hw). unfold lex. cbn [List.length lexTokens].
    rewrite Hc. reflexivity.
Qed.

Lemma lex_trailing_ws (s : jsstring) (x : char16) (ts : list token) :
  isJsonWs x = true -> lex (s ++ [x]) = Some ts -> lex s = Some ts.
Proof.
  unfold lex. intros Hx H.
  destruct (lexTokens_snoc _ _ _ H) as [[_ Hl] | He].
  - rewrite <- Hl. apply lexTokens_fuel; rewrite ?length_app; cbn; lia.
  - apply tokenEnd_plain in He. destruct He as (_ & He & _).
    rewrite Hx in He. discriminate He.
Qed.

Lemma lex_trailing (s w : jsstring) (ts : list token) :
  forallb isJsonWs w = true -> lex (s ++ w) = Some ts -> lex s = Some ts.
Proof.
  induction w as [| x w' IH] using rev_ind; intros Hw H.
  - rewrite app_nil_r in H. exact H.
  - rewrite forallb_app in Hw. apply andb_true_iff in Hw.
    destruct Hw as [Hw' Hx]. cbn in Hx. rewrite andb_true_r in Hx.
    rewrite app_assoc in H. apply lex_trailing_ws in H; [| exact Hx].
    apply IH; assumption.
Qed.

Lemma lex_first (c : char16) (s : jsstring) (ts : list token) :
  lex (c :: s) = Some ts -> isJsonWs c = true \/ isTokenStart c = true.
Proof.
  unfold lex. cbn [List.length lexTokens]. intros H.
  unfold isTokenStart.
  destruct (isJsonWs c); [left; reflexivity | right].
  repeat match goal with
         | |- context [?a =? ?b] =>
             destruct (a =? b) eqn:?; [rewrite ?orb_true_r; reflexivity |]
         end.
  destruct (isDigit c); [rewrite ?orb_true_r; reflexivity |].
  exfalso. cbn [orb] in H. vm_compute (js "true") in H.
  vm_compute (js "false") in H. vm_compute (js "null") in H.
  cbn [stripPrefix] in H.
  repeat match type of H with
         | context [?a =? c] =>
             destruct (N.eqb_spec a c); [subst; discriminate |]
         end.
  discriminate H.
Qed.

Lemma lex_last (s : jsstring) (x : char16) (ts : list token) :
  lex (s ++ [x]) = Some ts -> isJsonWs x = true \/ isTokenEnd x = true.
Proof.
  unfold lex. intros H.
  destruct (lexTokens_snoc _ _ _ H) as [[Hw _] | He];
    [left; exact Hw | right; exact He].
Qed.

End JsonFacts.

(** ** Trimming and fence removal on a wrapped JSON text *)

Module Wrapping.

Import JsonFacts.

Ltac list_eq := repeat rewrite <- app_assoc; cbn [app]; reflexivity.

Lemma forallb_rev (f : char16 -> bool) (l : jsstring) :
  forallb f (rev l) = forallb f l.
Proof.
  induction l as [| c l' IH]; cbn [rev forallb]; [reflexivity |].
  rewrite forallb_app, IH. cbn [forallb].
  rewrite andb_true_r. apply andb_comm.
Qed.

Lemma trimStart_keep (w : jsstring) (a : char16) (s : jsstring) :
  forallb isWhiteSpace w = true -> isWhiteSpace a = false ->
  trimStart (w ++ a :: s) = a :: s.
Proof.
  intros Hw Ha. induction w as [| c w' IH]; cbn [app trimStart forallb] in *.
  - rewrite Ha. reflexivity.
  - apply andb_true_iff in Hw. destruct Hw as [Hc Hw].
    rewrite Hc. apply IH, Hw.
Qed.

Lemma trimEnd_keep (s : jsstring) (z : char16) (w : jsstring) :
  forallb isWhiteSpace w = true -> isWhiteSpace z = false ->
  trimEnd (s ++ z :: w) = s ++ [z].
Proof.
  intros Hw Hz. unfold trimEnd.
  rewrite rev_app_distr. cbn [rev]. rewrite <- app_assoc. cbn [app].
  rewrite trimStart_keep.
  - cbn [rev]. rewrite rev_involutive. reflexivity.
  - rewrite forallb_rev. exact Hw.
  - exact Hz.
Qed.

Lemma stripPrefix_app (p s : jsstring) : stripPrefix p (p ++ s) = Some s.
Proof.
  induction p as [| c p' IH]; cbn [app stripPrefix].
  - reflexivity.
  - rewrite N.eqb_refl. exact IH.
Qed.

Lemma stripSuffix_app (p s : jsstring) : stripSuffix p (s ++ p) = Some s.
Proof.
  unfold stripSuffix. rewrite rev_app_distr, stripPrefix_app.
  cbn [option_map]. rewrite rev_involutive. reflexivity.
Qed.

Lemma stripSuffix_mismatch (p s : jsstring) (c d : char16) :
  c <> d -> stripSuffix (p ++ [c]) (s ++ [d]) = None.
Proof.
  intros H. unfold stripSuffix. rewrite !rev_app_distr.
  cbn [rev app stripPrefix].
  destruct (N.eqb_spec c d) as [E | _]; [contradiction | reflexivity].
Qed.

Lemma stripSuffix_single (s : jsstring) (d : char16) :
  d <> 10 -> stripSuffix [10] (s ++ [d]) = None.
Proof.
  intros H. apply (@stripSuffix_mismatch [] s 10 d). congruence.
Qed.

Lemma jsonWs_not_backtick (c : char16) : isJsonWs c = true -> c <> 96.
Proof.
  unfold isJsonWs. intros H E. subst c. discriminate H.
Qed.

(** A list with its leading and its trailing white space set apart. *)
Lemma ws_front (s : jsstring) :
  exists w r,
    s = w ++ r /\ forallb isJsonWs w = true /\
    (r = [] \/ exists a m, r = a :: m /\ isJsonWs a = false).
Proof.
  induction s as [| c s' (w & r & -> & Hw & Hr)].
  - exists [], []. repeat split. left. reflexivity.
  - destruct (isJsonWs c) eqn:E.
    + exists (c :: w), r. cbn [app forallb]. rewrite E, Hw.
      repeat split. exact Hr.
    + exists [], (c :: w ++ r). repeat split.
      right. exists c, (w ++ r). split; [reflexivity | exact E].
Qed.

Lemma ws_split (s : jsstring) :
  exists w1 core w2,
    s = w1 ++ core ++ w2 /\
    forallb isJsonWs w1 = true /\ forallb isJsonWs w2 = true /\
    (core = [] \/
     (exists a m, core = a :: m /\ isJsonWs a = false) /\
     (exists m z, core = m ++ [z] /\ isJsonWs z = false)).
Proof.
  destruct (ws_front s) as (w1 & r & -> & Hw1 & Hr).
  destruct Hr as [-> | (a & m & -> & Ha)].
  { exists w1, [], []. repeat split; [exact Hw1 | left; reflexivity]. }
  destruct (ws_front (rev (a :: m))) as (w & r' & E & Hw & Hr').
  assert (E' : a :: m = rev r' ++ rev w).
  { rewrite <- rev_app_distr, <- E, rev_involutive. reflexivity. }
  destruct Hr' as [-> | (z & m' & -> & Hz)].
  - exfalso. cbn [rev app] in E'.
    assert (Hin : In a (rev w)) by (rewrite <- E'; left; reflexivity).
    rewrite <- forallb_rev in Hw.
    rewrite forallb_forall in Hw. apply Hw in Hin.
    rewrite Ha in Hin. discriminate Hin.
  - exists w1, (rev (z :: m')), (rev w).
    rewrite <- E'. repeat split.
    + exact Hw1.
    + rewrite forallb_rev. exact Hw.
    + right. split.
      * cbn [rev] in E' |- *.
        destruct (rev m' ++ [z]) as [| a0 m0] eqn:E0.
        { destruct (rev m'); discriminate E0. }
        cbn [app] in E'. inversion E'; subst.
        exists a0, m0. split; [reflexivity | exact Ha].
      * exists (rev m'), z. split; [reflexivity | exact Hz].
Qed.

Lemma jsonWs_all_whiteSpace (w : jsstring) :
  forallb isJsonWs w = true -> forallb isWhiteSpace w = true.
Proof.
  rewrite !forallb_forall. intros H c Hc.
  apply jsonWs_is_whiteSpace, H, Hc.
Qed.

Section Core.

Variables w1 core w2 : jsstring.
Variable ts : list token.

Hypothesis Hw1 : forallb isJsonWs w1 = true.
Hypothesis Hw2 : forallb isJsonWs w2 = true.
Hypothesis Hfirst : exists a m, core = a :: m /\ isTokenStart a = true.
Hypothesis Hlast : exists m z, core = m ++ [z] /\ isTokenEnd z = true.
Hypothesis Hlex : lex (w1 ++ core ++ w2) = Some ts.

Lemma lex_between (q1 q2 q2' : jsstring) :
  forallb isJsonWs q1 = true -> w2 = q2 ++ q2' ->
  lex (q1 ++ core ++ q2) = Some ts.
Proof.
  intros Hq1 E. rewrite (lex_leading _ _ Hq1).
  rewrite (lex_leading _ _ Hw1) in Hlex.
  rewrite E, app_assoc in Hlex.
  apply (lex_trailing _ q2'); [| exact Hlex].
  rewrite E, forallb_app in Hw2. apply andb_true_iff in Hw2. apply Hw2.
Qed.

Lemma trimStart_wrapped (o1 lead rest : jsstring) :
  forallb isWhiteSpace o1 = true -> isLeadingFence lead ->
  trimStart (o1 ++ lead ++ w1 ++ core ++ rest)
    = frontKept w1 lead ++ core ++ rest.
Proof.
  intros Ho Hl. destruct Hfirst as (a & m & -> & Ha).
  apply tokenStart_plain in Ha. destruct Ha as (Ha & _).
  destruct Hl as [-> | [-> | ->]]; cbn [frontKept app].
  - replace (o1 ++ w1 ++ a :: m ++ rest)
      with ((o1 ++ w1) ++ a :: m ++ rest) by list_eq.
    apply trimStart_keep; [| exact Ha].
    rewrite forallb_app, Ho, (jsonWs_all_whiteSpace _ Hw1). reflexivity.
  - vm_compute (js "```json"). cbn [app].
    apply trimStart_keep; [exact Ho | reflexivity].
  - vm_compute (js "```json"). cbn [app].
    apply trimStart_keep; [exact Ho | reflexivity].
Qed.

Lemma trimEnd_wrapped (front trail o2 : jsstring) :
  forallb isWhiteSpace o2 = true -> isTrailingFence trail ->
  trimEnd (front ++ core ++ w2 ++ trail ++ o2)
    = front ++ core ++ backKept w2 trail.
Proof.
  intros Ho Ht. destruct Hlast as (m & z & -> & Hz).
  apply tokenEnd_plain in Hz. destruct Hz as (Hz & _).
  destruct Ht as [-> | [-> | ->]]; cbn [backKept app].
  - replace (front ++ (m ++ [z]) ++ w2 ++ o2)
      with ((front ++ m) ++ z :: (w2 ++ o2)) by list_eq.
    rewrite trimEnd_keep; [list_eq | | exact Hz].
    rewrite forallb_app, Ho, (jsonWs_all_whiteSpace _ Hw2). reflexivity.
  - change (js "```") with [96; 96; 96].
    replace (front ++ (m ++ [z]) ++ w2 ++ [96; 96; 96] ++ o2)
      with ((front ++ (m ++ [z]) ++ w2 ++ [96; 96]) ++ 96 :: o2) by list_eq.
    rewrite trimEnd_keep; [list_eq | exact Ho | reflexivity].
  - change (js "```") with [96; 96; 96].
    replace (front ++ (m ++ [z]) ++ w2 ++ 10 :: [96; 96; 96] ++ o2)
      with ((front ++ (m ++ [z]) ++ w2 ++ [10; 96; 96]) ++ 96 :: o2)
      by list_eq.
    rewrite trimEnd_keep; [list_eq | exact Ho | reflexivity].
Qed.

Lemma trim_wrapped (o1 lead trail o2 : jsstring) :
  forallb isWhiteSpace o1 = true -> forallb isWhiteSpace o2 = true ->
  isLeadingFence lead -> isTrailingFence trail ->
  trim (o1 ++ lead ++ (w1 ++ core ++ w2) ++ trail ++ o2)
    = frontKept w1 lead ++ core ++ backKept w2 trail.
Proof.
  intros Ho1 Ho2 Hl Ht. unfold trim.
  replace (o1 ++ lead ++ (w1 ++ core ++ w2) ++ trail ++ o2)
    with (o1 ++ lead ++ w1 ++ core ++ w2 ++ trail ++ o2) by list_eq.
  rewrite (trimStart_wrapped _ _ Ho1 Hl).
  apply trimEnd_wrapped; assumption.
Qed.

Lemma replaceLeadingFence_wrapped (lead : jsstring) :
  isLeadingFence lead ->
  exists q1,
    forallb isJsonWs q1 = true /\
    forall rest,
      replaceLeadingFence (frontKept w1 lead ++ core ++ rest)
        = q1 ++ core ++ rest.
Proof.
  intros Hl. destruct Hfirst as (a & m & -> & Ha).
  apply tokenStart_plain in Ha. destruct Ha as (_ & _ & Ha96 & Ha10).
  destruct Hl as [-> | [-> | ->]].
  - exists []. split; [reflexivity |]. intros rest.
    unfold replaceLeadingFence. change (js "```json") with (96 :: js "``json").
    cbn [frontKept app stripPrefix].
    destruct (N.eqb_spec 96 a) as [E | _]; [congruence | reflexivity].
  - change (frontKept w1 (js "```json")) with (js "```json" ++ w1).
    destruct w1 as [| c w1'] eqn:Ew.
    + exists []. split; [reflexivity |]. intros rest.
      unfold replaceLeadingFence. rewrite app_nil_r, stripPrefix_app.
      cbn [app stripPrefix].
      destruct (N.eqb_spec 10 a) as [E | _]; [congruence | reflexivity].
    + cbn [forallb] in Hw1. apply andb_true_iff in Hw1.
      destruct Hw1 as [Hc Hw1'].
      destruct (N.eqb_spec 10 c) as [E | E].
      * exists w1'. split; [exact Hw1' |]. intros rest.
        unfold replaceLeadingFence. rewrite <- app_assoc, stripPrefix_app.
        cbn [app stripPrefix]. subst c. reflexivity.
      * exists (c :: w1'). split; [cbn; rewrite Hc; exact Hw1' |].
        intros rest.
        unfold replaceLeadingFence. rewrite <- app_assoc, stripPrefix_app.
        cbn [app stripPrefix].
        destruct (N.eqb_spec 10 c) as [E' | _]; [congruence | reflexivity].
  - change (frontKept w1 (js "```json" ++ [10]))
      with ((js "```json" ++ [10]) ++ w1).
    exists w1. split; [exact Hw1 |]. intros rest.
    unfold replaceLeadingFence. rewrite <- !app_assoc, stripPrefix_app.
    cbn [app stripPrefix]. reflexivity.
Qed.

Lemma replaceTrailingFence_wrapped (trail : jsstring) :
  isTrailingFence trail ->
  exists q2 q2',
    w2 = q2 ++ q2' /\
    forall front,
      replaceTrailingFence (front ++ core ++ backKept w2 trail)
        = front ++ core ++ q2.
Proof.
  intros Ht. destruct Hlast as (m & z & -> & Hz).
  apply tokenEnd_plain in Hz. destruct Hz as (_ & _ & Hz96 & Hz10).
  destruct Ht as [-> | [-> | ->]].
  - exists [], w2. split; [reflexivity |]. intros front.
    unfold replaceTrailingFence. cbn [backKept]. rewrite !app_nil_r.
    change (js "```") with ([96; 96] ++ [96]).
    replace (front ++ m ++ [z]) with ((front ++ m) ++ [z]) by list_eq.
    rewrite (@stripSuffix_mismatch [96; 96] (front ++ m) 96 z);
      [reflexivity | congruence].
  - change (backKept w2 (js "```")) with (w2 ++ js "```").
    destruct w2 as [| x w2' _] using rev_ind.
    + exists [], []. split; [reflexivity |]. intros front.
      unfold replaceTrailingFence. cbn [app].
      replace (front ++ (m ++ [z]) ++ js "```")
        with ((front ++ m ++ [z]) ++ js "```") by list_eq.
      rewrite stripSuffix_app.
      replace (front ++ m ++ [z]) with ((front ++ m) ++ [z]) by list_eq.
      rewrite (stripSuffix_single (front ++ m) Hz10). list_eq.
    + destruct (N.eq_dec x 10) as [-> | E].
      * exists w2', [10]. split; [reflexivity |]. intros front.
        unfold replaceTrailingFence.
        replace (front ++ (m ++ [z]) ++ (w2' ++ [10]) ++ js "```")
          with (((front ++ (m ++ [z]) ++ w2') ++ [10]) ++ js "```")
          by list_eq.
        rewrite stripSuffix_app.
        rewrite (stripSuffix_app [10]). reflexivity.
      * exists (w2' ++ [x]), []. split; [rewrite app_nil_r; reflexivity |].
        intros front. unfold replaceTrailingFence.
        replace (front ++ (m ++ [z]) ++ (w2' ++ [x]) ++ js "```")
          with ((front ++ (m ++ [z]) ++ w2' ++ [x]) ++ js "```") by list_eq.
        rewrite stripSuffix_app.
        replace (front ++ (m ++ [z]) ++ w2' ++ [x])
          with ((front ++ (m ++ [z]) ++ w2') ++ [x]) by list_eq.
        rewrite (stripSuffix_single _ E). list_eq.
  - change (backKept w2 (10 :: js "```")) with (w2 ++ 10 :: js "```").
    exists w2, []. split; [rewrite app_nil_r; reflexivity |].
    intros front. unfold replaceTrailingFence.
    replace (front ++ (m ++ [z]) ++ w2 ++ 10 :: js "```")
      with (((front ++ (m ++ [z]) ++ w2) ++ [10]) ++ js "```") by list_eq.
    rewrite stripSuffix_app.
    rewrite (stripSuffix_app [10]). reflexivity.
Qed.

Lemma cleanFences_stable (q1 q2 : jsstring) :
  forallb isJsonWs q1 = true -> forallb isJsonWs q2 = true ->
  cleanFences (q1 ++ core ++ q2) = q1 ++ core ++ q2.
Proof.
  intros Hq1 Hq2. unfold cleanFences.
  assert (E1 : replaceLeadingFence (q1 ++ core ++ q2) = q1 ++ core ++ q2).
  { destruct Hfirst as (a & m & -> & Ha).
    apply tokenStart_plain in Ha. destruct Ha as (_ & _ & Ha96 & _).
    unfold replaceLeadingFence. vm_compute (js "```json").
    destruct q1 as [| c q1']; cbn [app stripPrefix].
    - destruct (N.eqb_spec 96 a) as [E | _]; [congruence | reflexivity].
    - cbn [forallb] in Hq1. apply andb_true_iff in Hq1.
      destruct Hq1 as [Hc _]. apply jsonWs_not_backtick in Hc.
      destruct (N.eqb_spec 96 c) as [E | _]; [congruence | reflexivity]. }
  rewrite E1.
  destruct Hlast as (m & z & -> & Hz).
  apply tokenEnd_plain in Hz. destruct Hz as (_ & _ & Hz96 & _).
  unfold replaceTrailingFence.
  destruct q2 as [| x q2' _] using rev_ind.
  - rewrite app_nil_r.
    replace (q1 ++ m ++ [z]) with ((q1 ++ m) ++ [z]) by list_eq.
    rewrite (@stripSuffix_mismatch [96; 96] _ 96 z);
      [reflexivity | congruence].
  - rewrite forallb_app in Hq2. apply andb_true_iff in Hq2.
    destruct Hq2 as [_ Hx]. cbn in Hx. rewrite andb_true_r in Hx.
    apply jsonWs_not_backtick in Hx.
    replace (q1 ++ (m ++ [z]) ++ q2' ++ [x])
      with ((q1 ++ (m ++ [z]) ++ q2') ++ [x]) by list_eq.
    rewrite (@stripSuffix_mismatch [96; 96] _ 96 x);
      [reflexivity | congruence].
Qed.

End Core.

(** A text that [JSON.parse] accepts: white space, a core that begins with
    a character that starts a token and ends with one that ends a token,
    white space. *)
Lemma parsed_text_shape (payload : jsstring) (v : JSON) :
  parse payload = Some v ->
  exists w1 core w2 ts,
    payload = w1 ++ core ++ w2 /\
    forallb isJsonWs w1 = true /\ forallb isJsonWs w2 = true /\
    (exists a m, core = a :: m /\ isTokenStart a = true) /\
    (exists m z, core = m ++ [z] /\ isTokenEnd z = true) /\
    lex (w1 ++ core ++ w2) = Some ts /\
    parseValue ts [] = Some v.
Proof.
  unfold parse. intros Hp.
  destruct (lex payload) as [ts |] eqn:Hlex; [| discriminate Hp].
  destruct (ws_split payload) as (w1 & core & w2 & -> & Hw1 & Hw2 & Hc).
  exists w1, core, w2, ts.
  destruct Hc as [-> | [(a & m & -> & Ha) (m' & z & E & Hz)]].
  { exfalso. cbn [app] in Hlex.
    rewrite <- (app_nil_r (w1 ++ w2)) in Hlex.
    rewrite lex_leading in Hlex
      by (rewrite forallb_app, Hw1, Hw2; reflexivity).
    inversion Hlex; subst. discriminate Hp. }
  repeat split; try assumption.
  - exists a, m. split; [reflexivity |].
    rewrite (lex_leading _ _ Hw1) in Hlex.
    destruct (lex_first _ _ Hlex) as [Hws | Hs]; [| exact Hs].
    rewrite Ha in Hws. discriminate Hws.
  - exists m', z. split; [exact E |].
    rewrite E in Hlex.
    replace (w1 ++ (m' ++ [z]) ++ w2) with (((w1 ++ m') ++ [z]) ++ w2)
      in Hlex by list_eq.
    apply (lex_trailing _ _ Hw2) in Hlex.
    destruct (lex_last _ _ Hlex) as [Hws | He]; [| exact He].
    rewrite Hz in Hws. discriminate Hws.
Qed.

(** The reply is a well-formed JSON text, with the fences and the white
    space of the hypotheses around it: trimming and cleaning leave a text
    that parses to the same value, and that cleaning leaves alone. *)
Lemma wrapped_json_cleaned (o1 lead payload trail o2 : jsstring) (v : JSON) :
  forallb isWhiteSpace o1 = true -> forallb isWhiteSpace o2 = true ->
  isLeadingFence lead -> isTrailingFence trail ->
  parse payload = Some v ->
  parse (cleanFences (trim (o1 ++ lead ++ payload ++ trail ++ o2))) = Some v
  /\ cleanFences (cleanFences (trim (o1 ++ lead ++ payload ++ trail ++ o2)))
     = cleanFences (trim (o1 ++ lead ++ payload ++ trail ++ o2))
  /\ o1 ++ lead ++ payload ++ trail ++ o2 <> [].
Proof.
  intros Ho1 Ho2 Hl Ht Hp.
  destruct (parsed_text_shape _ Hp)
    as (w1 & core & w2 & ts & -> & Hw1 & Hw2 & Hf & He & Hlex & Hv).
  rewrite (@trim_wrapped w1 core w2 ts Hw1 Hw2 Hf He Hlex o1 lead trail o2
             Ho1 Ho2 Hl Ht).
  destruct (@replaceLeadingFence_wrapped w1 core w2 ts Hw1 Hf He Hlex lead Hl)
    as (q1 & Hq1 & E1).
  destruct (@replaceTrailingFence_wrapped w1 core w2 ts Hw2 Hf He Hlex trail Ht)
    as (q2 & q2' & E & E2).
  assert (Hq2 : forallb isJsonWs q2 = true).
  { rewrite E, forallb_app in Hw2. apply andb_true_iff in Hw2. apply Hw2. }
  assert (Ec : cleanFences (frontKept w1 lead ++ core ++ backKept w2 trail)
               = q1 ++ core ++ q2).
  { unfold cleanFences. rewrite E1, E2. reflexivity. }
  rewrite Ec. repeat split.
  - unfold parse.
    rewrite (@lex_between w1 core w2 ts Hw1 Hw2 Hlex q1 q2 q2' Hq1 E).
    exact Hv.
  - apply (@cleanFences_stable w1 core w2 ts Hf He Hlex q1 q2 Hq1 Hq2).
  - destruct Hf as (a & m & -> & _). intros E0.
    apply (f_equal (@List.length _)) in E0.
    rewrite !length_app in E0. cbn [List.length] in E0. lia.
Qed.

End Wrapping.

(** ** Base64 *)

Module Base64Facts.
Import Base64 Strings.Byte.

Lemma digit_spec v :
  v < 64 ->
  value (digit v) = Some v /\ (digit v =? pad) = false /\
  (digit v =? 44) = false.
Proof.
  intros H.
  rewrite <- (N2Nat.id v) in *.
  assert (Hn : (N.to_nat v < 64)%nat) by lia.
  revert Hn. generalize (N.to_nat v). clear. intros n Hn.
  do 64 (destruct n as [| n]; [vm_compute; repeat split |]).
  lia.
Qed.

Lemma pack1 x : (x / 4 * 64 + (x mod 4) * 16) / 16 = x.
Proof.
  pose proof (N.div_mod x 4 ltac:(lia)).
  symmetry. apply N.div_unique with (r := 0); lia.
Qed.

Lemma pack2 x y :
  y < 256 ->
  let n := (x / 4 * 64 + ((x mod 4) * 16 + y / 16)) * 64 + (y mod 16) * 4 in
  n / 1024 = x /\ (n / 4) mod 256 = y.
Proof.
  intros Hy n.
  assert (E : n = x * 1024 + y * 4).
  { subst n. pose proof (N.div_mod x 4). pose proof (N.div_mod y 16). lia. }
  rewrite E. clear E n. split.
  - symmetry. apply N.div_unique with (r := y * 4); lia.
  - replace ((x * 1024 + y * 4) / 4) with (x * 256 + y).
    + symmetry. apply N.mod_unique with (q := x); lia.
    + apply N.div_unique with (r := 0); lia.
Qed.

Lemma pack3 x y z :
  y < 256 -> z < 256 ->
  let n := ((x / 4 * 64 + ((x mod 4) * 16 + y / 16)) * 64
            + ((y mod 16) * 4 + z / 64)) * 64 + z mod 64 in
  n / 65536 = x /\ (n / 256) mod 256 = y /\ n mod 256 = z.
Proof.
  intros Hy Hz n.
  assert (E : n = x * 65536 + y * 256 + z).
  { subst n.
    pose proof (N.div_mod x 4). pose proof (N.div_mod y 16).
    pose proof (N.div_mod z 64). lia. }
  rewrite E. clear E n.
  repeat split.
  - symmetry. apply N.div_unique with (r := y * 256 + z); lia.
  - replace ((x * 65536 + y * 256 + z) / 256) with (x * 256 + y).
    + symmetry. apply N.mod_unique with (q := x); lia.
    + apply N.div_unique with (r := z); lia.
  - symmetry. apply N.mod_unique with (q := x * 256 + y); lia.
Qed.

Lemma to_N_lt (b : Init.Byte.byte) : to_N b < 256.
Proof. pose proof (to_N_bounded b). lia. Qed.

(** The six-bit values that [encode] writes. *)
Lemma sextets (x y z : N) :
  x < 256 -> y < 256 -> z < 256 ->
  x / 4 < 64 /\ (x mod 4) * 16 + y / 16 < 64 /\
  (y mod 16) * 4 + z / 64 < 64 /\ z mod 64 < 64 /\
  (x mod 4) * 16 < 64 /\ (y mod 16) * 4 < 64.
Proof.
  intros Hx Hy Hz.
  pose proof (N.mod_lt x 4 ltac:(lia)). pose proof (N.mod_lt y 16 ltac:(lia)).
  pose proof (N.mod_lt z 64 ltac:(lia)).
  assert (x / 4 < 64) by (apply N.Div0.div_lt_upper_bound; lia).
  assert (y / 16 < 16) by (apply N.Div0.div_lt_upper_bound; lia).
  assert (z / 64 < 4) by (apply N.Div0.div_lt_upper_bound; lia).
  lia.
Qed.

(** Induction over a list three elements at a time, as [encode] recurses. *)
Lemma list_ind3 (A : Type) (P : list A -> Prop) :
  P [] -> (forall a, P [a]) -> (forall a b, P [a; b]) ->
  (forall a b c r, P r -> P (a :: b :: c :: r)) ->
  forall l, P l.
Proof.
  intros P0 P1 P2 P3 l.
  enough (H : P l /\ (forall a, P (a :: l)) /\ (forall a b, P (a :: b :: l)))
    by apply H.
  induction l as [| c r (H0 & H1 & H2)]; repeat split; auto.
Qed.

(** Decoding what [encode] wrote gives the bytes back. *)
Lemma decode_encode (bs : list Init.Byte.byte) : decode (encode bs) = Some bs.
Proof.
  induction bs as [| a | a b | a b c r IH] using list_ind3.
  - reflexivity.
  - cbn [encode decode].
    destruct (sextets (to_N_lt a) (to_N_lt a) (to_N_lt a))
      as (H1 & _ & _ & _ & H5 & _).
    destruct (digit_spec H1) as (-> & _ & _).
    destruct (digit_spec H5) as (-> & _ & _).
    rewrite N.eqb_refl. cbn [andb].
    rewrite pack1, of_to_N. reflexivity.
  - cbn [encode decode].
    destruct (sextets (to_N_lt a) (to_N_lt b) (to_N_lt b))
      as (H1 & H2 & _ & _ & _ & H6).
    destruct (digit_spec H1) as (-> & _ & _).
    destruct (digit_spec H2) as (-> & _ & _).
    destruct (digit_spec H6) as (-> & -> & _).
    cbn [andb]. rewrite N.eqb_refl.
    destruct (pack2 (to_N a) (to_N_lt b)) as (-> & ->).
    rewrite !of_to_N. reflexivity.
  - cbn [encode decode].
    destruct (sextets (to_N_lt a) (to_N_lt b) (to_N_lt c))
      as (H1 & H2 & H3 & H4 & _ & _).
    destruct (digit_spec H1) as (-> & _ & _).
    destruct (digit_spec H2) as (-> & _ & _).
    destruct (digit_spec H3) as (-> & -> & _).
    destruct (digit_spec H4) as (-> & -> & _).
    cbn [andb]. fold (encode r). rewrite IH.
    unfold bytes3.
    destruct (pack3 (to_N a) (to_N_lt b) (to_N_lt c)) as (-> & -> & ->).
    rewrite !of_to_N. reflexivity.
Qed.

Lemma encode_no_comma (bs : list Init.Byte.byte) : ~ In 44 (encode bs).
Proof.
  induction bs as [| a | a b | a b c r IH] using list_ind3.
  - intros [].
  - cbn [encode In].
    destruct (sextets (to_N_lt a) (to_N_lt a) (to_N_lt a))
      as (H1 & _ & _ & _ & H5 & _).
    destruct (digit_spec H1) as (_ & _ & E1).
    destruct (digit_spec H5) as (_ & _ & E5).
    apply N.eqb_neq in E1, E5. unfold pad. intuition congruence.
  - cbn [encode In].
    destruct (sextets (to_N_lt a) (to_N_lt b) (to_N_lt b))
      as (H1 & H2 & _ & _ & _ & H6).
    destruct (digit_spec H1) as (_ & _ & E1).
    destruct (digit_spec H2) as (_ & _ & E2).
    destruct (digit_spec H6) as (_ & _ & E6).
    apply N.eqb_neq in E1, E2, E6. unfold pad. intuition congruence.
  - cbn [encode In]. fold (encode r).
    destruct (sextets (to_N_lt a) (to_N_lt b) (to_N_lt c))
      as (H1 & H2 & H3 & H4 & _ & _).
    destruct (digit_spec H1) as (_ & _ & E1).
    destruct (digit_spec H2) as (_ & _ & E2).
    destruct (digit_spec H3) as (_ & _ & E3).
    destruct (digit_spec H4) as (_ & _ & E4).
    apply N.eqb_neq in E1, E2, E3, E4. intuition congruence.
Qed.
End Base64Facts.

(** ** Facts about MIME types *)

Module MimeFacts.

Import Mime.

Lemma dropWhile_length (f : char16 -> bool) (s : jsstring) :
  (List.length (dropWhile f s) <= List.length s)%nat.
Proof.
  induction s as [| c r IH]; cbn [dropWhile]; [lia |].
  destruct (f c); cbn [List.length] in *; lia.
Qed.

Lemma collect_length (stop : char16 -> bool) (s : jsstring) :
  (List.length (snd (collect stop s)) <= List.length s)%nat.
Proof.
  induction s as [| c r IH]; cbn [collect]; [cbn; lia |].
  destruct (stop c); [cbn; lia |].
  destruct (collect stop r) as [taken rest]. cbn [snd List.length] in *. lia.
Qed.

Lemma collectQuoted_length (s : jsstring) :
  (List.length (snd (collectQuoted s)) <= List.length s)%nat.
Proof.
  assert (H : forall n s, (List.length s <= n)%nat ->
                (List.length (snd (collectQuoted s)) <= List.length s)%nat).
  { clear s. induction n as [| n IH]; intros s Hn.
    - destruct s; [cbn; lia | cbn in Hn; lia].
    - destruct s as [| c r]; [cbn; lia |]. cbn [collectQuoted].
      destruct (c =? 34); [cbn; lia |].
      destruct (c =? 92).
      + destruct r as [| d r']; [cbn; lia |].
        assert (Hr : (List.length r' <= n)%nat) by (cbn in Hn; lia).
        specialize (IH r' Hr).
        destruct (collectQuoted r') as [value rest].
        cbn [snd List.length] in *. lia.
      + assert (Hr : (List.length r <= n)%nat) by (cbn in Hn; lia).
        specialize (IH r Hr).
        destruct (collectQuoted r) as [value rest].
        cbn [snd List.length] in *. lia. }
  exact (H (List.length s) s (le_n _)).
Qed.

(** The parameter loop never runs out of fuel: any fuel that covers the
    input gives the same parameters. *)
Lemma parseParameters_fuel (n m : nat) :
  forall rest ps,
    (List.length rest <= n)%nat -> (List.length rest <= m)%nat ->
    parseParameters n rest ps = parseParameters m rest ps.
Proof.
  revert m. induction n as [| n IH]; intros m rest ps Hn Hm.
  - destruct rest; [| cbn in Hn; lia]. destruct m; reflexivity.
  - destruct rest as [| semicolon afterSemicolon];
      [destruct m; reflexivity |].
    destruct m as [| m]; [cbn in Hm; lia |].
    cbn [parseParameters].
    pose proof (dropWhile_length isHTTPWhitespace afterSemicolon) as Hd.
    pose proof (collect_length (fun c => (c =? 59) || (c =? 61))
                  (dropWhile isHTTPWhitespace afterSemicolon)) as Hc.
    destruct (collect (fun c => (c =? 59) || (c =? 61))
                (dropWhile isHTTPWhitespace afterSemicolon))
      as [name0 atStop].
    cbn [snd] in Hc. cbn [List.length] in Hn, Hm.
    destruct atStop as [| c afterStop]; [reflexivity |].
    cbn [List.length] in Hc.
    destruct (c =? 59); [apply IH; cbn [List.length]; lia |].
    assert (Hplain :
      (let (value0, atSemicolon) := collect (N.eqb 59) afterStop in
       match removeTrailing isHTTPWhitespace value0 with
       | [] => parseParameters n atSemicolon ps
       | _ :: _ =>
           parseParameters n atSemicolon
             (setParameter (asciiLowercase name0)
                (removeTrailing isHTTPWhitespace value0) ps)
       end)
      = (let (value0, atSemicolon) := collect (N.eqb 59) afterStop in
         match removeTrailing isHTTPWhitespace value0 with
         | [] => parseParameters m atSemicolon ps
         | _ :: _ =>
             parseParameters m atSemicolon
               (setParameter (asciiLowercase name0)
                  (removeTrailing isHTTPWhitespace value0) ps)
         end)).
    { pose proof (collect_length (N.eqb 59) afterStop) as Hv.
      destruct (collect (N.eqb 59) afterStop) as [value0 atSemicolon].
      cbn [snd] in Hv.
      destruct (removeTrailing isHTTPWhitespace value0);
        apply IH; lia. }
    destruct afterStop as [| d afterQuote]; [exact Hplain |].
    destruct d as [| d]; [exact Hplain |].
    do 6 (destruct d as [d | d |]; try exact Hplain).
    pose proof (collectQuoted_length afterQuote) as Hq.
    destruct (collectQuoted afterQuote) as [value afterValue].
    cbn [snd] in Hq.
    pose proof (collect_length (N.eqb 59) afterValue) as Hv.
    cbn [List.length] in Hc.
    apply IH; lia.
Qed.

Section Kept.

(** A property of code units that lower-casing keeps and that the marks
    written by the serializer have. *)
Variable P : char16 -> Prop.
Hypothesis lower :
  forall c, P c -> P (if (65 <=? c) && (c <=? 90) then c + 32 else c).
Hypothesis slash : P 47.
Hypothesis semicolon : P 59.
Hypothesis equals : P 61.
Hypothesis quote : P 34.
Hypothesis backslash : P 92.

Lemma dropWhile_kept (f : char16 -> bool) (s : jsstring) :
  Forall P s -> Forall P (dropWhile f s).
Proof.
  induction 1 as [| c r Hc Hr IH]; cbn [dropWhile]; [constructor |].
  destruct (f c); [exact IH | constructor; assumption].
Qed.

Lemma removeTrailing_kept (f : char16 -> bool) (s : jsstring) :
  Forall P s -> Forall P (removeTrailing f s).
Proof.
  intros H. unfold removeTrailing.
  apply Forall_rev, dropWhile_kept, Forall_rev, H.
Qed.

Lemma collect_kept (stop : char16 -> bool) (s : jsstring) :
  Forall P s ->
  Forall P (fst (collect stop s)) /\ Forall P (snd (collect stop s)).
Proof.
  induction 1 as [| c r Hc Hr IH]; cbn [collect]; [split; constructor |].
  destruct (stop c); [split; constructor; assumption |].
  destruct (collect stop r) as [taken rest]. cbn [fst snd] in *.
  split; [constructor; tauto | tauto].
Qed.

Lemma collectQuoted_kept (s : jsstring) :
  Forall P s ->
  Forall P (fst (collectQuoted s)) /\ Forall P (snd (collectQuoted s)).
Proof.
  assert (H : forall n s, (List.length s <= n)%nat -> Forall P s ->
                Forall P (fst (collectQuoted s)) /\
                Forall P (snd (collectQuoted s))).
  { clear s. induction n as [| n IH]; intros s Hn Hs.
    - destruct s; [split; constructor | cbn in Hn; lia].
    - destruct s as [| c r]; [split; constructor |]. cbn [collectQuoted].
      inversion Hs as [| ? ? Hc Hr]; subst.
      destruct (c =? 34); [split; [constructor | exact Hr] |].
      destruct (c =? 92).
      + destruct r as [| d r'];
          [split; [constructor; [exact backslash | constructor]
                  | constructor] |].
        inversion Hr as [| ? ? Hd Hr']; subst.
        assert (Hl : (List.length r' <= n)%nat) by (cbn in Hn; lia).
        specialize (IH r' Hl Hr').
        destruct (collectQuoted r') as [value rest]. cbn [fst snd] in *.
        split; [constructor; tauto | tauto].
      + assert (Hl : (List.length r <= n)%nat) by (cbn in Hn; lia).
        specialize (IH r Hl Hr).
        destruct (collectQuoted r) as [value rest]. cbn [fst snd] in *.
        split; [constructor; tauto | tauto]. }
  exact (H (List.length s) s (le_n _)).
Qed.

Lemma asciiLowercase_kept (s : jsstring) :
  Forall P s -> Forall P (asciiLowercase s).
Proof.
  induction 1 as [| c r Hc Hr IH]; cbn [asciiLowercase map];
    constructor; [apply lower, Hc | exact IH].
Qed.

Lemma setParameter_kept (name value : jsstring)
  (ps : list (jsstring * jsstring)) :
  Forall P name -> Forall P value -> keptParameters P ps ->
  keptParameters P (setParameter name value ps).
Proof.
  intros Hn Hv Hps. unfold setParameter.
  destruct (_ && _); [| exact Hps].
  apply Forall_app. split; [exact Hps |].
  constructor; [split; assumption | constructor].
Qed.

Lemma parseParameters_kept (fuel : nat) :
  forall rest ps,
    Forall P rest -> keptParameters P ps ->
    keptParameters P (parseParameters fuel rest ps).
Proof.
  induction fuel as [| fuel IH]; intros rest ps Hr Hps; [exact Hps |].
  destruct rest as [| semicolon' afterSemicolon]; [exact Hps |].
  cbn [parseParameters].
  inversion Hr as [| ? ? _ Ha]; subst.
  destruct (collect_kept (fun c => (c =? 59) || (c =? 61))
              (dropWhile_kept isHTTPWhitespace Ha)) as [Hname Hstop].
  destruct (collect (fun c => (c =? 59) || (c =? 61))
              (dropWhile isHTTPWhitespace afterSemicolon))
    as [name0 atStop].
  cbn [fst snd] in Hname, Hstop.
  destruct atStop as [| c afterStop]; [exact Hps |].
  destruct (c =? 59); [apply IH; assumption |].
  inversion Hstop as [| ? ? _ Hafter]; subst.
  assert (Hplain :
    keptParameters P
      (let (value0, atSemicolon) := collect (N.eqb 59) afterStop in
       match removeTrailing isHTTPWhitespace value0 with
       | [] => parseParameters fuel atSemicolon ps
       | _ :: _ =>
           parseParameters fuel atSemicolon
             (setParameter (asciiLowercase name0)
                (removeTrailing isHTTPWhitespace value0) ps)
       end)).
  { destruct (collect_kept (N.eqb 59) Hafter) as [Hv Hs].
    destruct (collect (N.eqb 59) afterStop) as [value0 atSemicolon].
    cbn [fst snd] in Hv, Hs.
    pose proof (removeTrailing_kept isHTTPWhitespace Hv) as Hv'.
    destruct (removeTrailing isHTTPWhitespace value0) as [| v vs] eqn:E;
      apply IH; try assumption.
    apply setParameter_kept;
      [apply asciiLowercase_kept, Hname | exact Hv' | exact Hps]. }
  destruct afterStop as [| d afterQuote]; [exact Hplain |].
  destruct d as [| d]; [exact Hplain |].
  do 6 (destruct d as [d | d |]; try exact Hplain).
  inversion Hafter as [| ? ? _ Hq]; subst.
  destruct (collectQuoted_kept Hq) as [Hv Hs].
  destruct (collectQuoted afterQuote) as [value afterValue].
  cbn [fst snd] in Hv, Hs.
  apply IH.
  - apply (collect_kept (N.eqb 59) Hs).
  - apply setParameter_kept;
      [apply asciiLowercase_kept, Hname | exact Hv | exact Hps].
Qed.

Lemma escape_kept (value : jsstring) :
  Forall P value -> Forall P (escape value).
Proof.
  induction 1 as [| c r Hc Hr IH]; cbn [escape flat_map]; [constructor |].
  fold (escape r).
  destruct (_ || _); cbn [app]; repeat constructor; assumption.
Qed.

Lemma serializeValue_kept (value : jsstring) :
  Forall P value -> Forall P (serializeValue value).
Proof.
  intros H. unfold serializeValue.
  destruct value as [| c r]; [repeat constructor; exact quote |].
  destruct (forallb isHTTPToken (c :: r)); [exact H |].
  apply Forall_app. split; [repeat constructor; exact quote |].
  apply Forall_app. split; [apply escape_kept, H |].
  repeat constructor; exact quote.
Qed.

Lemma serialize_kept (m : MIMEType) :
  Forall P (type m) -> Forall P (subtype m) ->
  keptParameters P (parameters m) ->
  Forall P (serialize m).
Proof.
  intros Ht Hs Hp. unfold serialize.
  apply Forall_app. split; [exact Ht |].
  apply Forall_app. split; [repeat constructor; exact slash |].
  apply Forall_app. split; [exact Hs |].
  induction Hp as [| p ps [Hn Hv] _ IH]; cbn [flat_map]; [constructor |].
  apply Forall_app. split; [| exact IH].
  apply Forall_app. split; [repeat constructor; exact semicolon |].
  apply Forall_app. split; [exact Hn |].
  apply Forall_app. split; [repeat constructor; exact equals |].
  apply serializeValue_kept, Hv.
Qed.

Lemma parse_kept (input : jsstring) (m : MIMEType) :
  Forall P input -> parse input = Some m -> Forall P (serialize m).
Proof.
  intros Hi. unfold parse.
  pose proof (removeTrailing_kept isHTTPWhitespace
                (dropWhile_kept isHTTPWhitespace Hi)) as Hs.
  destruct (collect_kept (N.eqb 47) Hs) as [Ht Hslash].
  destruct (collect (N.eqb 47)
              (removeTrailing isHTTPWhitespace
                 (dropWhile isHTTPWhitespace input)))
    as [type0 atSlash].
  cbn [fst snd] in Ht, Hslash.
  destruct type0 as [| t0 ts]; [discriminate |].
  destruct (forallb isHTTPToken (t0 :: ts)); [| discriminate].
  destruct atSlash as [| c afterSlash]; [discriminate |].
  inversion Hslash as [| ? ? _ Hafter]; subst.
  destruct (collect_kept (N.eqb 59) Hafter) as [Hsub Hsemi].
  destruct (collect (N.eqb 59) afterSlash) as [subtype0 atSemicolon].
  cbn [fst snd] in Hsub, Hsemi.
  pose proof (removeTrailing_kept isHTTPWhitespace Hsub) as Hsub'.
  destruct (removeTrailing isHTTPWhitespace subtype0) as [| s0 ss];
    [discriminate |].
  destruct (forallb isHTTPToken (s0 :: ss)); [| discriminate].
  intros E. inversion E; subst m. clear E.
  apply serialize_kept; cbn [type subtype parameters].
  - exact (asciiLowercase_kept Ht).
  - exact (asciiLowercase_kept Hsub').
  - apply parseParameters_kept; [exact Hsemi | constructor].
Qed.

End Kept.

End MimeFacts.

(** A type without a comma is written without a comma. *)
Lemma mediaType_no_comma (type : jsstring) :
  ~ In 44 type -> ~ In 44 (mediaType type).
Proof.
  intros H. unfold mediaType.
  destruct (Mime.parse type) as [m |] eqn:E.
  - assert (K : Forall (fun c => c <> 44) (Mime.serialize m)).
    { apply (@MimeFacts.parse_kept (fun c => c <> 44)) with (input := type);
        try discriminate; [| | exact E].
      - intros c Hc. destruct ((65 <=? c) && (c <=? 90)) eqn:B; [| exact Hc].
        apply andb_prop in B. destruct B as [B1 B2].
        apply N.leb_le in B1. lia.
      - apply Forall_forall. intros c Hin ->. exact (H Hin). }
    intros Hin. exact (proj1 (Forall_forall _ _) K 44 Hin eq_refl).
  - vm_compute. intuition discriminate.
Qed.

(** ** Reading the image *)

Section Reading.

Variable generateContent : GenAI.Parameters -> Promise GenAI.Response.

Lemma fileToGenerativePart_unreadable (file : File) :
  readFails file = true ->
  fileToGenerativePart file = (Pending, [ReadAsDataURL file]).
Proof.
  intros H. unfold fileToGenerativePart, base64EncodedDataPromise,
    readAsDataURL.
  rewrite H. reflexivity.
Qed.

(** C4, on the code: when the file cannot be read, the promise of
    [fileToGenerativePart] is never settled, so it is not rejected with
    any error; the three service calls and a run of [handleAnalyze] with
    that file hang with it, and the application stays [loading]. *)
Theorem unreadable_file_never_settles (file : File) (p : jsstring) :
  readFails file = true ->
  fst (fileToGenerativePart file) = Pending /\
  fst (analyzeImage generateContent file p) = Pending /\
  fst (extractTextFromImage generateContent file) = Pending /\
  fst (getPromptSuggestions generateContent file) = Pending /\
  forall firstLeft s,
    imageFile s = Some file ->
    completed (handleAnalyze generateContent firstLeft s) = None /\
    appState (suspended (handleAnalyze generateContent firstLeft s))
      = loading.
Proof.
  intros H.
  assert (Ha : forall q, analyzeImage generateContent file q
                  = (Pending, [ReadAsDataURL file])).
  { intros q. unfold analyzeImage.
    rewrite (fileToGenerativePart_unreadable file H). reflexivity. }
  assert (He : extractTextFromImage generateContent file
               = (Pending, [ReadAsDataURL file])).
  { unfold extractTextFromImage.
    rewrite (fileToGenerativePart_unreadable file H). reflexivity. }
  repeat split.
  - rewrite (fileToGenerativePart_unreadable file H). reflexivity.
  - rewrite Ha. reflexivity.
  - rewrite He. reflexivity.
  - unfold getPromptSuggestions.
    rewrite (fileToGenerativePart_unreadable file H). reflexivity.
  - unfold handleAnalyze, joinedCalls. rewrite H0, Ha, He. reflexivity.
  - unfold handleAnalyze, joinedCalls, analyzeRequested.
    rewrite H0, Ha, He. reflexivity.
Qed.

End Reading.

Lemma unreadable_file_never_settles_witness :
  fst (fileToGenerativePart brokenFile) = Pending /\
  completed (handleAnalyze (replyWith (Some (js "{}"))) true
               (selected brokenFile)) = None.
Proof.
  pose proof (unreadable_file_never_settles (replyWith (Some (js "{}")))
                brokenFile (js "Analyze this image") eq_refl)
    as (H1 & _ & _ & _ & H5).
  split; [exact H1 | exact (proj1 (H5 true (selected brokenFile) eq_refl))].
Defined.

(** ** The inline-data part *)

Lemma split_without_separator (sep : char16) (s : jsstring) :
  ~ In sep s -> split sep s = [s].
Proof.
  induction s as [| c r IH]; intros H; cbn [split].
  - reflexivity.
  - destruct (N.eqb_spec c sep) as [-> | _].
    + contradiction H. left. reflexivity.
    + rewrite IH; [reflexivity | intros Hin; apply H; right; exact Hin].
Qed.

Lemma split_at_first_separator (sep : char16) (h t : jsstring) :
  ~ In sep h -> split sep (h ++ sep :: t) = h :: split sep t.
Proof.
  induction h as [| c r IH]; intros H; cbn [split app].
  - rewrite N.eqb_refl. reflexivity.
  - destruct (N.eqb_spec c sep) as [-> | _].
    + contradiction H. left. reflexivity.
    + rewrite IH; [reflexivity | intros Hin; apply H; right; exact Hin].
Qed.

(** The payload that [split(',')[1]] takes out of a data URL. *)
Lemma payload_after_header (header payload : jsstring) :
  ~ In 44 header -> ~ In 44 payload ->
  nth_error (split 44 (js "data:" ++ header ++ js ";base64," ++ payload)) 1
    = Some payload.
Proof.
  intros Hh Hp.
  assert (E : js "data:" ++ header ++ js ";base64," ++ payload
              = (js "data:" ++ header ++ js ";base64") ++ 44 :: payload)
    by (rewrite <- !app_assoc; reflexivity).
  rewrite E. clear E.
  rewrite split_at_first_separator.
  - rewrite (@split_without_separator 44 payload Hp). reflexivity.
  - rewrite !in_app_iff. intros [Hin | [Hin | Hin]].
    + vm_compute in Hin. intuition discriminate.
    + exact (Hh Hin).
    + vm_compute in Hin. intuition discriminate.
Qed.

Lemma dataURL_payload (type : jsstring) (bs : list Init.Byte.byte) :
  ~ In 44 (mediaType type) ->
  nth_error (split 44 (dataURL type bs)) 1 = Some (Base64.encode bs).
Proof.
  intros H. unfold dataURL.
  apply payload_after_header; [exact H | apply Base64Facts.encode_no_comma].
Qed.

(** When the media type is written without a comma (as it is for every type
    that has none), the [data] of the inline-data part is the base64 text
    of the file's bytes, and decoding it gives exactly those bytes back. *)
Lemma inline_data_round_trip (file : File) :
  readFails file = false ->
  ~ In 44 (mediaType (type file)) ->
  exists payload,
    fst (fileToGenerativePart file)
      = Fulfilled (GenAI.inlineData (Some payload) (type file)) /\
    payload = Base64.encode (content file) /\
    Base64.decode payload = Some (content file).
Proof.
  intros Hr Hc. exists (Base64.encode (content file)).
  split; [| split; [reflexivity | apply Base64Facts.decode_encode]].
  unfold fileToGenerativePart, base64EncodedDataPromise, readAsDataURL.
  rewrite Hr. cbn [bind perform await ret fst snd app].
  rewrite (@dataURL_payload (type file) (content file) Hc). reflexivity.
Qed.

(** C9 fails on the code.  The type of [parameterFile] is a MIME type with a
    parameter whose value holds a comma; the reader writes it into the data
    URL, [split] cuts the URL at that comma too, and the piece taken as the
    payload is the rest of the header: it is not the base64 text of the
    bytes and does not decode at all. *)
Theorem comma_in_type_breaks_round_trip :
  readAsDataURL parameterFile
    = Some (js "data:image/png;x=" ++ [34] ++ js "a,b" ++ [34] ++
            js ";base64,iVBORw==") /\
  split 44 (js "data:image/png;x=" ++ [34] ++ js "a,b" ++ [34] ++
            js ";base64,iVBORw==")
    = [js "data:image/png;x=" ++ [34] ++ js "a";
       js "b" ++ [34] ++ js ";base64";
       js "iVBORw=="] /\
  fst (fileToGenerativePart parameterFile)
    = Fulfilled (GenAI.inlineData (Some (js "b" ++ [34] ++ js ";base64"))
                   (js "image/png;x=a,b")) /\
  Base64.encode (content parameterFile) = js "iVBORw==" /\
  Base64.decode (js "b" ++ [34] ++ js ";base64") = None.
Proof.
  repeat split; vm_compute; reflexivity.
Qed.

(** ** Empty and absent replies *)

Section EmptyReply.

Variable generateContent : GenAI.Parameters -> Promise GenAI.Response.
Variable file : File.
Variable reply : option jsstring.

Hypothesis readable : readFails file = false.
Hypothesis answered :
  forall request, generateContent request = Fulfilled {| GenAI.text := reply |}.

(** C3, as the code has it: for an absent or empty reply both structured
    calls fail without parsing.  The guard throws the empty-response [Error]
    before [JSON.parse] is reached: the effects are the read, the request
    and the [console.error] of that very error, with no parse among them.
    The [catch] of the function, which received and logged it, then rejects
    the call with the function's general failure error. *)
Theorem empty_reply_fails_before_parsing (p : jsstring) :
  reply = None \/ reply = Some [] ->
  (fst (analyzeImage generateContent file p) = Rejected failedAnalysis /\
   (exists request,
      snd (analyzeImage generateContent file p)
        = [ReadAsDataURL file; GenerateContent request;
           ConsoleError (js "Error analyzing image with Gemini API:")
             emptyAnalysis]) /\
   parsesNothing (snd (analyzeImage generateContent file p))) /\
  (fst (getPromptSuggestions generateContent file)
     = Rejected failedSuggestions /\
   (exists request,
      snd (getPromptSuggestions generateContent file)
        = [ReadAsDataURL file; GenerateContent request;
           ConsoleError
             (js "Error getting prompt suggestions from Gemini API:")
             emptySuggestions]) /\
   parsesNothing (snd (getPromptSuggestions generateContent file))).
Proof.
  intros He.
  split; run_service readable answered;
    (destruct He as [-> | ->];
     (split; [reflexivity |
      split; [eexists; reflexivity | no_effect]])).
Qed.

(** C5, as the code has it: the free-text call never fails on the reply.
    An absent reply gives the empty text, and any reply that is present,
    the empty one too, is returned as it is: not trimmed, no fence
    removed, nothing parsed. *)
Theorem extractText_returns_reply_unchanged :
  fst (extractTextFromImage generateContent file)
    = Fulfilled {| text := match reply with Some t => t | None => [] end |}
  /\ parsesNothing (snd (extractTextFromImage generateContent file)).
Proof.
  run_service readable answered.
  split; [reflexivity | no_effect].
Qed.

End EmptyReply.

Lemma empty_reply_fails_before_parsing_witness :
  fst (analyzeImage (replyWith (Some [])) sampleFile (js "Analyze this image"))
    = Rejected failedAnalysis /\
  parsesNothing
    (snd (analyzeImage (replyWith (Some [])) sampleFile
            (js "Analyze this image"))).
Proof.
  pose proof (@empty_reply_fails_before_parsing
                (replyWith (Some [])) sampleFile (Some [])
                eq_refl (fun _ => eq_refl)
                (js "Analyze this image") (or_intror eq_refl))
    as [(H1 & _ & H3) _].
  split; [exact H1 | exact H3].
Defined.

(** C3 as the specification states it fails: on the empty reply the calls
    do not fail with the empty-response error.  That error is thrown inside
    the function's own [try]; what the caller receives is the error of the
    [catch], the very one a reply that is not JSON gives, with another
    message. *)
Lemma empty_reply_error_is_the_general_one :
  fst (analyzeImage (replyWith (Some [])) sampleFile (js "Analyze this image"))
    = Rejected failedAnalysis /\
  fst (analyzeImage (replyWith (Some (js "{"))) sampleFile
         (js "Analyze this image"))
    = Rejected failedAnalysis /\
  message failedAnalysis <> message emptyAnalysis /\
  fst (getPromptSuggestions (replyWith (Some [])) sampleFile)
    = Rejected failedSuggestions /\
  fst (getPromptSuggestions (replyWith (Some (js "{"))) sampleFile)
    = Rejected failedSuggestions /\
  message failedSuggestions <> message emptySuggestions.
Proof.
  repeat split; try (vm_compute; reflexivity);
    intros H; vm_compute in H; discriminate H.
Qed.

Lemma extractText_returns_reply_unchanged_witness :
  fst (extractTextFromImage (replyWith (Some (js " a "))) sampleFile)
    = Fulfilled {| text := js " a " |}.
Proof.
  exact (proj1 (extractText_returns_reply_unchanged
                  (replyWith (Some (js " a "))) sampleFile
                  eq_refl (fun _ => eq_refl))).
Defined.

(** C5 as the specification states it fails: with no reply the call does not
    fail but returns the empty text, and a reply with white space around it
    comes back untrimmed. *)
Lemma extractText_neither_fails_nor_trims :
  fst (extractTextFromImage (replyWith None) sampleFile)
    = Fulfilled {| text := [] |} /\
  fst (extractTextFromImage (replyWith (Some [])) sampleFile)
    = Fulfilled {| text := [] |} /\
  fst (extractTextFromImage (replyWith (Some (js " a "))) sampleFile)
    = Fulfilled {| text := js " a " |} /\
  trim (js " a ") = js "a" /\
  js " a " <> js "a".
Proof.
  repeat split; try reflexivity.
  intros E. vm_compute in E. discriminate E.
Qed.

(** ** Replies that are present *)

Section PresentReply.

Variable generateContent : GenAI.Parameters -> Promise GenAI.Response.
Variable file : File.
Variable rawText : jsstring.

Hypothesis readable : readFails file = false.
Hypothesis answered :
  forall request,
    generateContent request = Fulfilled {| GenAI.text := Some rawText |}.
Hypothesis present : rawText <> [].

(** A reply that is present is trimmed, cleaned and handed to [JSON.parse];
    what that returns is the result, as it is. *)
Lemma analyzeImage_present (p : jsstring) :
  fst (analyzeImage generateContent file p) =
  match parse (cleanFences (trim rawText)) with
  | Some v => Fulfilled v
  | None => Rejected failedAnalysis
  end.
Proof.
  run_service readable answered.
  destruct rawText as [| c r]; [contradiction present; reflexivity |].
  unfold JSON_parse, cleanFences.
  cbn [bind perform await tryCatch ret throw fst snd app].
  destruct (parse _); reflexivity.
Qed.

Lemma getPromptSuggestions_present :
  fst (getPromptSuggestions generateContent file) =
  match parse (cleanFences (trim rawText)) with
  | Some v => Fulfilled v
  | None => Rejected failedSuggestions
  end.
Proof.
  run_service readable answered.
  destruct rawText as [| c r]; [contradiction present; reflexivity |].
  unfold JSON_parse, cleanFences.
  cbn [bind perform await tryCatch ret throw fst snd app].
  destruct (parse _); reflexivity.
Qed.

End PresentReply.

(** C8: the fenced reply of the scenario is unchanged by [trim], loses its
    two fences, and parses to the object whose [text] is hello, a line feed
    (code unit 10), world; both structured calls return that object. *)
Theorem fenced_hello_is_parsed
  (generateContent : GenAI.Parameters -> Promise GenAI.Response)
  (file : File) (p : jsstring) :
  readFails file = false ->
  (forall request,
     generateContent request = Fulfilled {| GenAI.text := Some fencedHello |}) ->
  trim fencedHello = fencedHello /\
  replaceLeadingFence fencedHello =
    js "{" ++ quoted "text" ++ js ":" ++ [34] ++ js "hello\nworld" ++ [34] ++
    js "}" ++ [10] ++ js "```" /\
  cleanFences fencedHello =
    js "{" ++ quoted "text" ++ js ":" ++ [34] ++ js "hello\nworld" ++ [34] ++
    js "}" /\
  parse (cleanFences (trim fencedHello)) = Some helloObject /\
  get (js "text") helloObject
    = Some (JString [104; 101; 108; 108; 111; 10; 119; 111; 114; 108; 100]) /\
  fst (analyzeImage generateContent file p) = Fulfilled helloObject /\
  fst (getPromptSuggestions generateContent file) = Fulfilled helloObject.
Proof.
  intros Hr Ha.
  assert (Hp : parse (cleanFences (trim fencedHello)) = Some helloObject)
    by (vm_compute; reflexivity).
  assert (Hne : fencedHello <> []) by (intros E; vm_compute in E; discriminate E).
  repeat split; try (vm_compute; reflexivity).
  - rewrite (@analyzeImage_present generateContent file fencedHello Hr Ha Hne p), Hp. reflexivity.
  - rewrite (@getPromptSuggestions_present generateContent file fencedHello Hr Ha Hne), Hp. reflexivity.
Qed.

Lemma fenced_hello_is_parsed_witness :
  fst (analyzeImage (replyWith (Some fencedHello)) sampleFile
         (js "Analyze this image")) = Fulfilled helloObject.
Proof.
  exact (proj1 (proj2 (proj2 (proj2 (proj2 (proj2
    (@fenced_hello_is_parsed (replyWith (Some fencedHello)) sampleFile
       (js "Analyze this image") eq_refl (fun _ => eq_refl)))))))).
Defined.

(** ** Replies wrapped in fences *)

Section FencedReply.

Variable generateContent : GenAI.Parameters -> Promise GenAI.Response.
Variable file : File.
Variables o1 lead payload trail o2 : jsstring.

Hypothesis readable : readFails file = false.
Hypothesis answered :
  forall request,
    generateContent request
      = Fulfilled {| GenAI.text := Some (o1 ++ lead ++ payload ++ trail ++ o2) |}.
Hypothesis around : forallb isWhiteSpace o1 = true /\ forallb isWhiteSpace o2 = true.
Hypothesis fences : isLeadingFence lead /\ isTrailingFence trail.

(** C1, as the code has it: the reply is a well-formed JSON text, wrapped or
    not in a leading fence of three backticks and json and in a trailing
    fence of three backticks, each with or without a line feed on its inner
    side, and with any white space around the whole.  Then both structured
    calls return what [JSON.parse] gives for the bare text; the cleaned
    string parses like the bare text, and cleaning it again changes
    nothing. *)
Theorem json_fenced_reply_is_parsed (p : jsstring) (v : JSON) :
  parse payload = Some v ->
  fst (analyzeImage generateContent file p) = Fulfilled v /\
  fst (getPromptSuggestions generateContent file) = Fulfilled v /\
  parse (cleanFences (trim (o1 ++ lead ++ payload ++ trail ++ o2)))
    = parse payload /\
  cleanFences (cleanFences (trim (o1 ++ lead ++ payload ++ trail ++ o2)))
    = cleanFences (trim (o1 ++ lead ++ payload ++ trail ++ o2)).
Proof.
  intros Hp.
  destruct (@Wrapping.wrapped_json_cleaned o1 lead payload trail o2 v
              (proj1 around) (proj2 around) (proj1 fences) (proj2 fences) Hp)
    as (Hparse & Hstable & Hne).
  repeat split.
  - rewrite (@analyzeImage_present generateContent file _ readable answered
               Hne p), Hparse. reflexivity.
  - rewrite (@getPromptSuggestions_present generateContent file _ readable
               answered Hne), Hparse. reflexivity.
  - rewrite Hparse, Hp. reflexivity.
  - exact Hstable.
Qed.

End FencedReply.

Lemma json_fenced_reply_is_parsed_witness :
  fst (analyzeImage (replyWith (Some fencedHello)) sampleFile
         (js "Analyze this image")) = Fulfilled helloObject.
Proof.
  refine (proj1 (@json_fenced_reply_is_parsed
            (replyWith (Some fencedHello)) sampleFile
            [] (js "```json" ++ [10])
            (js "{" ++ quoted "text" ++ js ":" ++ [34] ++ js "hello\nworld"
             ++ [34] ++ js "}")
            (10 :: js "```") []
            eq_refl (fun _ => eq_refl) (conj eq_refl eq_refl)
            (conj (or_intror (or_intror eq_refl)) (or_intror (or_intror eq_refl)))
            (js "Analyze this image") helloObject _)).
  vm_compute. reflexivity.
Defined.

(** C1 as the specification states it fails: a fence line without a
    language tag is a leading fence in the specification's sense and the
    text inside is well-formed JSON, yet the leading fence stays, the cleaned
    string is not JSON, and both calls are rejected. *)
Lemma untagged_fence_is_rejected :
  untaggedFence = (js "```" ++ [] ++ [10]) ++ (js "{}" ++ [10]) ++ js "```" /\
  isSpecLeadingFence (js "```" ++ [] ++ [10]) /\
  isSpecTrailingFence (js "```") /\
  parse (js "{}" ++ [10]) = Some (JObject []) /\
  cleanFences (trim untaggedFence) = js "```" ++ [10] ++ js "{}" /\
  fst (analyzeImage (replyWith (Some untaggedFence)) sampleFile
         (js "Analyze this image")) = Rejected failedAnalysis /\
  fst (getPromptSuggestions (replyWith (Some untaggedFence)) sampleFile)
    = Rejected failedSuggestions.
Proof.
  repeat split; try (vm_compute; reflexivity).
  - right. exists []. split; [intros H; exact H | reflexivity].
  - right. reflexivity.
Qed.

(** ** Replies that lack a required field *)

(** C2, as the code has it: a reply that is valid JSON is returned as
    [JSON.parse] gives it, whether or not the fields that the schema
    requires are there; nothing compares the value with the schema. *)
Theorem valid_json_is_returned_unchecked
  (generateContent : GenAI.Parameters -> Promise GenAI.Response)
  (file : File) (p reply : jsstring) (v : JSON) :
  readFails file = false ->
  (forall request,
     generateContent request = Fulfilled {| GenAI.text := Some reply |}) ->
  parse reply = Some v ->
  fst (analyzeImage generateContent file p) = Fulfilled v /\
  fst (getPromptSuggestions generateContent file) = Fulfilled v.
Proof.
  intros Hr Ha Hp.
  destruct (@Wrapping.wrapped_json_cleaned [] [] reply [] [] v
              eq_refl eq_refl (or_introl eq_refl) (or_introl eq_refl) Hp)
    as (Hparse & _ & Hne).
  cbn [app] in Hparse, Hne. rewrite app_nil_r in Hparse, Hne.
  split.
  - rewrite (@analyzeImage_present generateContent file reply Hr Ha Hne p),
      Hparse. reflexivity.
  - rewrite (@getPromptSuggestions_present generateContent file reply Hr Ha
               Hne), Hparse. reflexivity.
Qed.

Lemma valid_json_is_returned_unchecked_witness :
  fst (analyzeImage (replyWith (Some noPalette)) sampleFile
         (js "Analyze this image")) = Fulfilled noPaletteObject.
Proof.
  refine (proj1 (@valid_json_is_returned_unchecked
            (replyWith (Some noPalette)) sampleFile
            (js "Analyze this image") noPalette noPaletteObject
            eq_refl (fun _ => eq_refl) _)).
  vm_compute. reflexivity.
Defined.

(** C2 as the specification states it fails: the reply is valid JSON, the
    required [color_palette] is missing from it, and [analyzeImage] does not
    fail but returns the object; [getPromptSuggestions] returns it too,
    though it has no [suggestions]. *)
Lemma missing_field_is_not_rejected :
  parse noPalette = Some noPaletteObject /\
  get (js "color_palette") noPaletteObject = None /\
  missingRequired analysisSchema noPaletteObject = true /\
  fst (analyzeImage (replyWith (Some noPalette)) sampleFile
         (js "Analyze this image")) = Fulfilled noPaletteObject /\
  missingRequired suggestionsSchema noPaletteObject = true /\
  fst (getPromptSuggestions (replyWith (Some noPalette)) sampleFile)
    = Fulfilled noPaletteObject.
Proof.
  repeat split; vm_compute; reflexivity.
Qed.

(** ** The three calls, case by case *)

Section Calls.

Variable generateContent : GenAI.Parameters -> Promise GenAI.Response.
Variable file : File.

Lemma fileToGenerativePart_cases :
  fileToGenerativePart file =
  if readFails file then (Pending, [ReadAsDataURL file])
  else (Fulfilled (imagePartOf file), [ReadAsDataURL file]).
Proof.
  unfold fileToGenerativePart, base64EncodedDataPromise, imagePartOf,
    readAsDataURL.
  destruct (readFails file); reflexivity.
Qed.

(** Every way [analyzeImage] can go. *)
Lemma analyzeImage_cases (p : jsstring) :
  analyzeImage generateContent file p =
  if readFails file then (Pending, [ReadAsDataURL file]) else
  let start :=
    [ReadAsDataURL file; GenerateContent (analysisRequest file p)] in
  let label := js "Error analyzing image with Gemini API:" in
  match generateContent (analysisRequest file p) with
  | Pending => (Pending, start)
  | Rejected e => (Rejected failedAnalysis, start ++ [ConsoleError label e])
  | Fulfilled response =>
      match GenAI.text response with
      | Some (c :: r) =>
          match parse (cleanFences (trim (c :: r))) with
          | Some v =>
              (Fulfilled v, start ++ [JsonParse (cleanFences (trim (c :: r)))])
          | None =>
              (Rejected failedAnalysis,
               start ++ [JsonParse (cleanFences (trim (c :: r)));
                         ConsoleError label SyntaxError])
          end
      | _ =>
          (Rejected failedAnalysis, start ++ [ConsoleError label emptyAnalysis])
      end
  end.
Proof.
  unfold analyzeImage. rewrite fileToGenerativePart_cases.
  destruct (readFails file); [reflexivity |].
  unfold ai_models_generateContent.
  cbn [bind perform await tryCatch ret throw fst snd app].
  fold (analysisRequest file p).
  destruct (generateContent (analysisRequest file p)) as [[[[| c r] |]] | e |];
    try reflexivity.
  cbn [GenAI.text]. unfold JSON_parse, cleanFences.
  cbn [bind perform await tryCatch ret throw fst snd app].
  destruct (parse _); reflexivity.
Qed.

Lemma getPromptSuggestions_cases :
  getPromptSuggestions generateContent file =
  if readFails file then (Pending, [ReadAsDataURL file]) else
  let start :=
    [ReadAsDataURL file; GenerateContent (suggestionsRequest file)] in
  let label := js "Error getting prompt suggestions from Gemini API:" in
  match generateContent (suggestionsRequest file) with
  | Pending => (Pending, start)
  | Rejected e => (Rejected failedSuggestions, start ++ [ConsoleError label e])
  | Fulfilled response =>
      match GenAI.text response with
      | Some (c :: r) =>
          match parse (cleanFences (trim (c :: r))) with
          | Some v =>
              (Fulfilled v, start ++ [JsonParse (cleanFences (trim (c :: r)))])
          | None =>
              (Rejected failedSuggestions,
               start ++ [JsonParse (cleanFences (trim (c :: r)));
                         ConsoleError label SyntaxError])
          end
      | _ =>
          (Rejected failedSuggestions,
           start ++ [ConsoleError label emptySuggestions])
      end
  end.
Proof.
  unfold getPromptSuggestions. rewrite fileToGenerativePart_cases.
  destruct (readFails file); [reflexivity |].
  unfold ai_models_generateContent.
  cbn [bind perform await tryCatch ret throw fst snd app].
  fold (suggestionsRequest file).
  destruct (generateContent (suggestionsRequest file))
    as [[[[| c r] |]] | e |]; try reflexivity.
  cbn [GenAI.text]. unfold JSON_parse, cleanFences.
  cbn [bind perform await tryCatch ret throw fst snd app].
  destruct (parse _); reflexivity.
Qed.

Lemma extractTextFromImage_cases :
  extractTextFromImage generateContent file =
  if readFails file then (Pending, [ReadAsDataURL file]) else
  let start :=
    [ReadAsDataURL file; GenerateContent (extractionRequest file)] in
  match generateContent (extractionRequest file) with
  | Pending => (Pending, start)
  | Rejected e =>
      (Rejected failedExtraction,
       start ++ [ConsoleError (js "Error extracting text with Gemini API:") e])
  | Fulfilled response =>
      (Fulfilled {| text := match GenAI.text response with
                            | Some t => t
                            | None => []
                            end |}, start)
  end.
Proof.
  unfold extractTextFromImage. rewrite fileToGenerativePart_cases.
  destruct (readFails file); [reflexivity |].
  unfold ai_models_generateContent.
  cbn [bind perform await tryCatch ret throw fst snd app].
  fold (extractionRequest file).
  destruct (generateContent (extractionRequest file)) as [response | e |];
    reflexivity.
Qed.

End Calls.

Section Outcomes.

Variable generateContent : GenAI.Parameters -> Promise GenAI.Response.
Variable file : File.

Lemma analyzeImage_outcome (p : jsstring) :
  fst (analyzeImage generateContent file p) = Pending \/
  (exists v, fst (analyzeImage generateContent file p) = Fulfilled v) \/
  fst (analyzeImage generateContent file p) = Rejected failedAnalysis.
Proof.
  rewrite analyzeImage_cases.
  destruct (readFails file); [left; reflexivity |]. cbv zeta.
  destruct (generateContent (analysisRequest file p))
    as [[[[| c r] |]] | e |]; cbn [GenAI.text fst]; auto.
  destruct (parse _); cbn [fst]; eauto.
Qed.

Lemma extractTextFromImage_outcome :
  fst (extractTextFromImage generateContent file) = Pending \/
  (exists t, fst (extractTextFromImage generateContent file) = Fulfilled t) \/
  fst (extractTextFromImage generateContent file) = Rejected failedExtraction.
Proof.
  rewrite extractTextFromImage_cases.
  destruct (readFails file); [left; reflexivity |]. cbv zeta.
  destruct (generateContent (extractionRequest file)) as [resp | e |];
    cbn [fst]; eauto.
Qed.

Lemma getPromptSuggestions_outcome :
  fst (getPromptSuggestions generateContent file) = Pending \/
  (exists v, fst (getPromptSuggestions generateContent file) = Fulfilled v) \/
  fst (getPromptSuggestions generateContent file) = Rejected failedSuggestions.
Proof.
  rewrite getPromptSuggestions_cases.
  destruct (readFails file); [left; reflexivity |]. cbv zeta.
  destruct (generateContent (suggestionsRequest file))
    as [[[[| c r] |]] | e |]; cbn [GenAI.text fst]; auto.
  destruct (parse _); cbn [fst]; eauto.
Qed.

Lemma analyzeImage_requests (p : jsstring) :
  requestsOf (snd (analyzeImage generateContent file p))
    = if readFails file then [] else [analysisRequest file p].
Proof.
  rewrite analyzeImage_cases.
  destruct (readFails file); [reflexivity |]. cbv zeta.
  destruct (generateContent (analysisRequest file p))
    as [[[[| c r] |]] | e |]; cbn [GenAI.text]; try reflexivity.
  destruct (parse _); reflexivity.
Qed.

Lemma extractTextFromImage_requests :
  requestsOf (snd (extractTextFromImage generateContent file))
    = if readFails file then [] else [extractionRequest file].
Proof.
  rewrite extractTextFromImage_cases.
  destruct (readFails file); [reflexivity |]. cbv zeta.
  destruct (generateContent (extractionRequest file)) as [resp | e |];
    reflexivity.
Qed.

Lemma getPromptSuggestions_requests :
  requestsOf (snd (getPromptSuggestions generateContent file))
    = if readFails file then [] else [suggestionsRequest file].
Proof.
  rewrite getPromptSuggestions_cases.
  destruct (readFails file); [reflexivity |]. cbv zeta.
  destruct (generateContent (suggestionsRequest file))
    as [[[[| c r] |]] | e |]; cbn [GenAI.text]; try reflexivity.
  destruct (parse _); reflexivity.
Qed.

End Outcomes.

(** ** The combined analyze and extract operation *)

Section Combined.

Variable generateContent : GenAI.Parameters -> Promise GenAI.Response.
Variable firstLeft : bool.

(** What [setError] receives is never the empty string. *)
Lemma analyzeSettled_error (err : JsError) (s : State) :
  exists m,
    error (analyzeSettled (inr err) s) = Some m /\ m <> [] /\
    (message err <> [] -> m = message err).
Proof.
  unfold analyzeSettled; cbn [error].
  destruct (message err) as [| c m'] eqn:E.
  - exists (js "An unknown error occurred."). repeat split.
    + intros H; vm_compute in H; discriminate H.
    + intros H; contradiction H; reflexivity.
  - exists (c :: m'). repeat split. discriminate.
Qed.

Lemma handleAnalyze_joined (s : State) (file : File) :
  imageFile s = Some file ->
  completed (handleAnalyze generateContent firstLeft s) =
  match fst (joinedCalls generateContent firstLeft file (prompt s)) with
  | Fulfilled r => Some (analyzeSettled (inl r) (analyzeRequested s))
  | Rejected err => Some (analyzeSettled (inr err) (analyzeRequested s))
  | Pending => None
  end.
Proof.
  intros H. unfold handleAnalyze. rewrite H.
  destruct (joinedCalls generateContent firstLeft file (prompt s)).
  reflexivity.
Qed.

Lemma joinedCalls_outcome (file : File) (p : jsstring) :
  fst (joinedCalls generateContent firstLeft file p) =
  match fst (analyzeImage generateContent file p),
        fst (extractTextFromImage generateContent file) with
  | Fulfilled a, Fulfilled b => Fulfilled (a, b)
  | Rejected e, Rejected e' => Rejected (if firstLeft then e else e')
  | Rejected e, _ => Rejected e
  | _, Rejected e => Rejected e
  | _, _ => Pending
  end.
Proof.
  unfold joinedCalls, Promise_all.
  destruct (analyzeImage generateContent file p) as [pa la].
  destruct (extractTextFromImage generateContent file) as [pb lb].
  reflexivity.
Qed.

(** With a readable file and a service that settles every request, each
    call settles, and so does the joined call. *)
Lemma joinedCalls_settles (file : File) (p : jsstring) :
  readFails file = false ->
  (forall request, settled (generateContent request) = true) ->
  settled (fst (joinedCalls generateContent firstLeft file p)) = true.
Proof.
  intros Hr Hs. rewrite joinedCalls_outcome.
  assert (Ha : settled (fst (analyzeImage generateContent file p)) = true).
  { unfold analyzeImage, fileToGenerativePart, base64EncodedDataPromise,
      readAsDataURL, ai_models_generateContent.
    rewrite Hr. cbn [bind perform await tryCatch ret throw fst snd app].
    match goal with |- context [generateContent ?r] =>
      specialize (Hs r); destruct (generateContent r) as [[[[| c t] |]] | e |]
    end; try discriminate Hs; try reflexivity.
    cbn [GenAI.text]. unfold JSON_parse.
    cbn [bind perform await tryCatch ret throw fst snd app].
    destruct (parse _); reflexivity. }
  assert (He : settled (fst (extractTextFromImage generateContent file))
               = true).
  { unfold extractTextFromImage, fileToGenerativePart,
      base64EncodedDataPromise, readAsDataURL, ai_models_generateContent.
    rewrite Hr. cbn [bind perform await tryCatch ret throw fst snd app].
    match goal with |- context [generateContent ?r] =>
      specialize (Hs r); destruct (generateContent r) as [resp | e |]
    end; try discriminate Hs; reflexivity. }
  destruct (fst (analyzeImage generateContent file p));
    destruct (fst (extractTextFromImage generateContent file));
    try discriminate Ha; try discriminate He; reflexivity.
Qed.

(** C6: when one of the two joined calls fails and the other succeeds, the
    run ends in failure: the error shown is the message of the error the
    failed call was rejected with, and both results are still null, so the
    result of the call that succeeded is dropped. *)
Theorem one_failure_fails_the_join (s : State) (file : File) :
  imageFile s = Some file ->
  ((exists e t,
      fst (analyzeImage generateContent file (prompt s)) = Rejected e /\
      fst (extractTextFromImage generateContent file) = Fulfilled t) \/
   (exists a e,
      fst (analyzeImage generateContent file (prompt s)) = Fulfilled a /\
      fst (extractTextFromImage generateContent file) = Rejected e)) ->
  exists s' e,
    completed (handleAnalyze generateContent firstLeft s) = Some s' /\
    (fst (analyzeImage generateContent file (prompt s)) = Rejected e \/
     fst (extractTextFromImage generateContent file) = Rejected e) /\
    error s' = Some (message e) /\ message e <> [] /\
    analysisResult s' = None /\
    textResult s' = None.
Proof.
  intros Hf Hcase.
  assert (Hj : exists e,
             fst (joinedCalls generateContent firstLeft file (prompt s))
               = Rejected e /\
             (fst (analyzeImage generateContent file (prompt s)) = Rejected e
              \/ fst (extractTextFromImage generateContent file)
                   = Rejected e) /\
             message e <> []).
  { rewrite joinedCalls_outcome.
    destruct Hcase as [(e & t & Ha & He) | (a & e & Ha & He)];
      exists e; rewrite Ha, He; (split; [reflexivity |]).
    - split; [left; reflexivity |].
      destruct (analyzeImage_outcome generateContent file (prompt s))
        as [H | [(v & H) | H]]; rewrite Ha in H; inversion H.
      intros E; vm_compute in E; discriminate E.
    - split; [right; reflexivity |].
      destruct (extractTextFromImage_outcome generateContent file)
        as [H | [(v & H) | H]]; rewrite He in H; inversion H.
      intros E; vm_compute in E; discriminate E. }
  destruct Hj as (e & Hj & Hwho & Hne).
  rewrite (handleAnalyze_joined s Hf), Hj.
  destruct (analyzeSettled_error e (analyzeRequested s)) as (m & Hm & _ & Hme).
  exists (analyzeSettled (inr e) (analyzeRequested s)), e.
  split; [reflexivity |]. split; [exact Hwho |].
  split; [rewrite Hm, (Hme Hne); reflexivity |].
  split; [exact Hne |].
  split; unfold analyzeRequested; rewrite Hf; reflexivity.
Qed.

(** C7: with an image selected, as soon as the joined call settles, in
    success or in failure, the handler runs to its end and leaves the
    application [interactive]. *)
Theorem settled_join_is_interactive (s : State) (file : File) :
  imageFile s = Some file ->
  settled (fst (joinedCalls generateContent firstLeft file (prompt s)))
    = true ->
  exists s',
    completed (handleAnalyze generateContent firstLeft s) = Some s' /\
    appState s' = interactive.
Proof.
  intros Hf Hs. rewrite (handleAnalyze_joined s Hf).
  destruct (fst (joinedCalls generateContent firstLeft file (prompt s)))
    as [[a t] | e |].
  - eexists; split; reflexivity.
  - eexists; split; reflexivity.
  - discriminate Hs.
Qed.

End Combined.

Lemma one_failure_fails_the_join_witness :
  exists s' e,
    completed (handleAnalyze (replyToFreeTextOnly (js "STOP")) true
                 (selected sampleFile)) = Some s' /\
    (fst (analyzeImage (replyToFreeTextOnly (js "STOP")) sampleFile
            (prompt (selected sampleFile))) = Rejected e \/
     fst (extractTextFromImage (replyToFreeTextOnly (js "STOP")) sampleFile)
       = Rejected e) /\
    error s' = Some (message e) /\ message e <> [] /\
    analysisResult s' = None /\ textResult s' = None.
Proof.
  apply (@one_failure_fails_the_join (replyToFreeTextOnly (js "STOP")) true
           (selected sampleFile) sampleFile eq_refl).
  left. exists failedAnalysis, {| text := js "STOP" |}.
  split; reflexivity.
Defined.

Lemma settled_join_is_interactive_witness :
  exists s',
    completed (handleAnalyze (replyWith (Some (js "{}"))) true
                 (selected sampleFile)) = Some s' /\
    appState s' = interactive.
Proof.
  apply (@settled_join_is_interactive (replyWith (Some (js "{}"))) true
           (selected sampleFile) sampleFile eq_refl).
  vm_compute. reflexivity.
Defined.

(** ** The state machine *)

Lemma step_keeps_loadingHasImage (s : State) (ev : Event) :
  loadingHasImage s -> loadingHasImage (step s ev).
Proof.
  unfold loadingHasImage. intros Inv.
  destruct ev as [file | | | joined]; cbn [step].
  - intros _; discriminate.
  - intros H; discriminate H.
  - unfold analyzeRequested.
    destruct (imageFile s) as [f |] eqn:E.
    + intros _; discriminate.
    + intros H _. exact (Inv H eq_refl).
  - destruct joined as [[a t] | err]; intros H; discriminate H.
Qed.

(** Every state the application can reach satisfies the invariant. *)
Lemma reachable_loadingHasImage (evs : list Event) :
  loadingHasImage (run initial evs).
Proof.
  unfold run.
  assert (H : loadingHasImage initial) by (intros H; discriminate H).
  revert H. generalize initial.
  induction evs as [| ev evs IH]; intros s Hs; cbn [fold_left].
  - exact Hs.
  - apply IH, step_keeps_loadingHasImage, Hs.
Qed.

(** C10: every transition keeps the invariant that a [loading] state has an
    image selected; and [handleAnalyze] with no image selected changes
    nothing in the state and performs no effect, so no outbound call. *)
Theorem loading_state_has_image
  (generateContent : GenAI.Parameters -> Promise GenAI.Response)
  (firstLeft : bool) (s : State) (ev : Event) :
  loadingHasImage s ->
  loadingHasImage (step s ev) /\
  (imageFile s = None ->
   step s AnalyzeRequested = s /\
   suspended (handleAnalyze generateContent firstLeft s) = s /\
   completed (handleAnalyze generateContent firstLeft s) = Some s /\
   effects (handleAnalyze generateContent firstLeft s) = [] /\
   callsNothing (effects (handleAnalyze generateContent firstLeft s))).
Proof.
  intros Inv. split.
  - apply step_keeps_loadingHasImage, Inv.
  - intros Hn. unfold handleAnalyze. cbn [step]. unfold analyzeRequested.
    rewrite Hn. cbn [suspended completed effects].
    repeat split. intros r H. exact H.
Qed.

Lemma loading_state_has_image_witness :
  loadingHasImage (step (step (selected sampleFile) AnalyzeRequested)
                     (AnalyzeSettled (inr failedAnalysis))) /\
  effects (handleAnalyze (replyWith None) true initial) = [].
Proof.
  split.
  - apply (@loading_state_has_image (replyWith None) true
             (step (selected sampleFile) AnalyzeRequested)
             (AnalyzeSettled (inr failedAnalysis))).
    intros _. discriminate.
  - apply (@loading_state_has_image (replyWith None) true initial
             AnalyzeRequested).
    + intros H; discriminate H.
    + reflexivity.
Defined.

(** * Further properties of the code *)

(** ** The three calls: outcomes and requests *)

(** X1: whatever the file and the service do, a call that fails fails with
    its own fixed message; no other error leaves any of the three calls. *)
Theorem calls_fail_with_one_message
  (generateContent : GenAI.Parameters -> Promise GenAI.Response)
  (file : File) (p : jsstring) :
  (fst (analyzeImage generateContent file p) = Pending \/
   (exists v, fst (analyzeImage generateContent file p) = Fulfilled v) \/
   fst (analyzeImage generateContent file p) = Rejected failedAnalysis) /\
  (fst (extractTextFromImage generateContent file) = Pending \/
   (exists t, fst (extractTextFromImage generateContent file) = Fulfilled t) \/
   fst (extractTextFromImage generateContent file)
     = Rejected failedExtraction) /\
  (fst (getPromptSuggestions generateContent file) = Pending \/
   (exists v, fst (getPromptSuggestions generateContent file) = Fulfilled v) \/
   fst (getPromptSuggestions generateContent file)
     = Rejected failedSuggestions).
Proof.
  split; [apply analyzeImage_outcome |].
  split; [apply extractTextFromImage_outcome |].
  apply getPromptSuggestions_outcome.
Qed.

(** X2: each call sends at most one request, the one built from the file,
    and none when the file cannot be read; the two
    structured calls hand at most one text to [JSON.parse], and the
    free-text call never parses, whatever the service answers. *)
Theorem one_request_per_call
  (generateContent : GenAI.Parameters -> Promise GenAI.Response)
  (file : File) (p : jsstring) :
  (requestsOf (snd (analyzeImage generateContent file p))
     = (if readFails file then [] else [analysisRequest file p]) /\
   (List.length (parsesOf (snd (analyzeImage generateContent file p))) <= 1)%nat)
  /\
  (requestsOf (snd (extractTextFromImage generateContent file))
     = (if readFails file then [] else [extractionRequest file]) /\
   parsesOf (snd (extractTextFromImage generateContent file)) = [])
  /\
  (requestsOf (snd (getPromptSuggestions generateContent file))
     = (if readFails file then [] else [suggestionsRequest file]) /\
   (List.length (parsesOf (snd (getPromptSuggestions generateContent file)))
      <= 1)%nat).
Proof.
  repeat split;
    try apply analyzeImage_requests;
    try apply extractTextFromImage_requests;
    try apply getPromptSuggestions_requests.
  - rewrite analyzeImage_cases.
    destruct (readFails file); [cbn; lia |]. cbv zeta.
    destruct (generateContent (analysisRequest file p))
      as [[[[| c r] |]] | e |]; cbn [GenAI.text]; try (cbn; lia).
    destruct (parse _); cbn; lia.
  - rewrite extractTextFromImage_cases.
    destruct (readFails file); [reflexivity |]. cbv zeta.
    destruct (generateContent (extractionRequest file)) as [resp | e |];
      reflexivity.
  - rewrite getPromptSuggestions_cases.
    destruct (readFails file); [cbn; lia |]. cbv zeta.
    destruct (generateContent (suggestionsRequest file))
      as [[[[| c r] |]] | e |]; cbn [GenAI.text]; try (cbn; lia).
    destruct (parse _); cbn; lia.
Qed.

Section ServiceFailure.

Variable generateContent : GenAI.Parameters -> Promise GenAI.Response.
Variable file : File.
Variable cause : JsError.

Hypothesis readable : readFails file = false.
Hypothesis refused : forall request, generateContent request = Rejected cause.

(** X3: when the service rejects the request, each call logs the error it
    received, parses nothing, and is rejected with its own message, not with
    the error of the service. *)
Theorem service_failure_is_logged_and_replaced (p : jsstring) :
  analyzeImage generateContent file p
    = (Rejected failedAnalysis,
       [ReadAsDataURL file; GenerateContent (analysisRequest file p);
        ConsoleError (js "Error analyzing image with Gemini API:") cause]) /\
  extractTextFromImage generateContent file
    = (Rejected failedExtraction,
       [ReadAsDataURL file; GenerateContent (extractionRequest file);
        ConsoleError (js "Error extracting text with Gemini API:") cause]) /\
  getPromptSuggestions generateContent file
    = (Rejected failedSuggestions,
       [ReadAsDataURL file; GenerateContent (suggestionsRequest file);
        ConsoleError (js "Error getting prompt suggestions from Gemini API:")
          cause]).
Proof.
  rewrite analyzeImage_cases, extractTextFromImage_cases,
    getPromptSuggestions_cases, readable, !refused.
  repeat split.
Qed.

End ServiceFailure.

Lemma service_failure_is_logged_and_replaced_witness :
  fst (analyzeImage (failWith (Error (js "503"))) sampleFile
         (js "Analyze this image")) = Rejected failedAnalysis.
Proof.
  exact (f_equal fst
           (proj1 (@service_failure_is_logged_and_replaced
                     (failWith (Error (js "503"))) sampleFile
                     (Error (js "503")) eq_refl (fun _ => eq_refl)
                     (js "Analyze this image")))).
Defined.

(** X4: for a readable file whose media type holds no comma, the one request
    of each call carries the file itself: an inline-data part with the
    file's type and with data that decodes to the file's bytes, followed by
    the text part of that call (the prompt, the extraction instruction, or
    nothing). *)
Theorem request_carries_the_image
  (generateContent : GenAI.Parameters -> Promise GenAI.Response)
  (file : File) (p : jsstring) :
  readFails file = false ->
  ~ In 44 (type file) ->
  exists payload,
    Base64.decode payload = Some (content file) /\
    (exists request,
       requestsOf (snd (analyzeImage generateContent file p)) = [request] /\
       GenAI.parts request
         = [GenAI.inlineData (Some payload) (type file); GenAI.textPart p]) /\
    (exists request,
       requestsOf (snd (extractTextFromImage generateContent file))
         = [request] /\
       GenAI.parts request
         = [GenAI.inlineData (Some payload) (type file);
            GenAI.textPart extractPrompt]) /\
    (exists request,
       requestsOf (snd (getPromptSuggestions generateContent file))
         = [request] /\
       GenAI.parts request = [GenAI.inlineData (Some payload) (type file)]).
Proof.
  intros Hr Hc. exists (Base64.encode (content file)).
  pose proof (analyzeImage_requests generateContent file p) as Ha.
  pose proof (extractTextFromImage_requests generateContent file) as He.
  pose proof (getPromptSuggestions_requests generateContent file) as Hs.
  rewrite Hr in Ha, He, Hs.
  assert (Hpart : imagePartOf file
                  = GenAI.inlineData (Some (Base64.encode (content file)))
                      (type file)).
  { unfold imagePartOf, readAsDataURL. rewrite Hr.
    rewrite (@dataURL_payload (type file) (content file)
               (@mediaType_no_comma (type file) Hc)).
    reflexivity. }
  split; [apply Base64Facts.decode_encode |].
  split; [| split]; eexists; (split; [eassumption |]);
    cbn [GenAI.parts analysisRequest extractionRequest suggestionsRequest];
    rewrite Hpart; reflexivity.
Qed.

Lemma request_carries_the_image_witness :
  exists payload,
    Base64.decode payload = Some (content sampleFile) /\
    exists request,
      requestsOf (snd (analyzeImage (replyWith None) sampleFile (js "Hi")))
        = [request] /\
      GenAI.parts request
        = [GenAI.inlineData (Some payload) (type sampleFile);
           GenAI.textPart (js "Hi")].
Proof.
  destruct (@request_carries_the_image (replyWith None) sampleFile (js "Hi")
              eq_refl) as (payload & Hd & Ha & _).
  - vm_compute. intuition discriminate.
  - exists payload. split; [exact Hd | exact Ha].
Defined.

(** ** Trimming and the two replacements, on any string *)

Lemma trimStart_nil (s : jsstring) :
  trimStart s = [] <-> forallb isWhiteSpace s = true.
Proof.
  induction s as [| c r IH]; cbn [trimStart forallb].
  - split; reflexivity.
  - destruct (isWhiteSpace c); cbn [andb]; [exact IH |].
    split; discriminate.
Qed.

Lemma trimStart_head (s : jsstring) :
  trimStart s = [] \/
  exists c r, trimStart s = c :: r /\ isWhiteSpace c = false.
Proof.
  induction s as [| c r IH]; cbn [trimStart].
  - left. reflexivity.
  - destruct (isWhiteSpace c) eqn:E; [exact IH |].
    right. exists c, r. split; [reflexivity | exact E].
Qed.

(** [trim] leaves nothing exactly when every code unit is white space. *)
Lemma trim_nil (s : jsstring) :
  trim s = [] <-> forallb isWhiteSpace s = true.
Proof.
  unfold trim, trimEnd. split.
  - intros H. apply (f_equal (@rev _)) in H.
    rewrite rev_involutive in H. cbn [rev] in H.
    apply trimStart_nil in H. rewrite Wrapping.forallb_rev in H.
    destruct (trimStart_head s) as [E | (c & r & E & Hc)].
    + apply trimStart_nil, E.
    + rewrite E in H. cbn [forallb] in H. rewrite Hc in H. discriminate H.
  - intros H. apply trimStart_nil in H. rewrite H. reflexivity.
Qed.

Lemma stripPrefix_Some (p : jsstring) :
  forall s r, stripPrefix p s = Some r -> s = p ++ r.
Proof.
  induction p as [| c p' IH]; intros s r H.
  - inversion H; subst. reflexivity.
  - destruct s as [| d s']; [discriminate H |].
    cbn [stripPrefix] in H.
    destruct (N.eqb_spec c d) as [-> | _]; [| discriminate H].
    rewrite (IH _ _ H). reflexivity.
Qed.

Lemma stripSuffix_Some (p s r : jsstring) :
  stripSuffix p s = Some r -> s = r ++ p.
Proof.
  unfold stripSuffix. intros H.
  destruct (stripPrefix (rev p) (rev s)) as [x |] eqn:E; [| discriminate H].
  inversion H; subst. apply stripPrefix_Some in E.
  apply (f_equal (@rev _)) in E.
  rewrite rev_involutive, rev_app_distr, rev_involutive in E. exact E.
Qed.

Lemma replaceLeadingFence_prefix (s : jsstring) :
  exists a,
    isLeadingFence a /\ s = a ++ replaceLeadingFence s /\
    (a = [] <-> stripPrefix (js "```json") s = None).
Proof.
  unfold replaceLeadingFence.
  destruct (stripPrefix (js "```json") s) as [r |] eqn:E.
  - apply stripPrefix_Some in E.
    destruct (stripPrefix [10] r) as [r' |] eqn:E'.
    + apply stripPrefix_Some in E'. exists (js "```json" ++ [10]).
      split; [right; right; reflexivity |]. split.
      * rewrite E, E', <- app_assoc. reflexivity.
      * split; discriminate.
    + exists (js "```json").
      split; [right; left; reflexivity |]. split; [exact E |].
      split; discriminate.
  - exists []. split; [left; reflexivity |]. repeat split.
Qed.

Lemma replaceTrailingFence_suffix (s : jsstring) :
  exists b,
    isTrailingFence b /\ s = replaceTrailingFence s ++ b /\
    (b = [] <-> stripSuffix (js "```") s = None).
Proof.
  unfold replaceTrailingFence.
  destruct (stripSuffix (js "```") s) as [r |] eqn:E.
  - apply stripSuffix_Some in E.
    destruct (stripSuffix [10] r) as [r' |] eqn:E'.
    + apply stripSuffix_Some in E'. exists (10 :: js "```").
      split; [right; right; reflexivity |]. split.
      * rewrite E, E', <- app_assoc. reflexivity.
      * split; discriminate.
    + exists (js "```").
      split; [right; left; reflexivity |]. split; [exact E |].
      split; discriminate.
  - exists []. split; [left; reflexivity |].
    split; [rewrite app_nil_r; reflexivity |]. repeat split.
Qed.

(** X5: on any string the two replacements take away at most one leading
    fence and one trailing fence and leave everything between as it is; the
    string comes back unchanged exactly when it neither begins with three
    backticks and json nor ends with three backticks. *)
Theorem cleanFences_only_removes_fences (s : jsstring) :
  (exists a b,
     isLeadingFence a /\ isTrailingFence b /\ s = a ++ cleanFences s ++ b) /\
  (cleanFences s = s <->
   stripPrefix (js "```json") s = None /\ stripSuffix (js "```") s = None).
Proof.
  unfold cleanFences.
  destruct (replaceLeadingFence_prefix s) as (a & Ha & Ea & Na).
  destruct (replaceTrailingFence_suffix (replaceLeadingFence s))
    as (b & Hb & Eb & Nb).
  split.
  - exists a, b. repeat split; try assumption.
    rewrite <- Eb. exact Ea.
  - split.
    + intros E.
      assert (Hlen : (List.length a + List.length b = 0)%nat).
      { apply (f_equal (@List.length _)) in Ea, Eb.
        rewrite length_app in Ea, Eb. rewrite E in Eb. lia. }
      assert (a = []) by (destruct a; [reflexivity | cbn in Hlen; lia]).
      assert (b = []) by (destruct b; [reflexivity | cbn in Hlen; lia]).
      subst a b. cbn [app] in Ea. rewrite <- Ea in Nb.
      split; [apply Na | apply Nb]; reflexivity.
    + intros [H1 H2].
      apply Na in H1. subst a. cbn [app] in Ea. rewrite <- Ea in *.
      apply Nb in H2. subst b. rewrite app_nil_r in Eb. symmetry. exact Eb.
Qed.

(** ** Replies that pass the guard and cannot be parsed *)

Section UnparsableReply.

Variable generateContent : GenAI.Parameters -> Promise GenAI.Response.
Variable file : File.
Variable rawText : jsstring.

Hypothesis readable : readFails file = false.
Hypothesis answered :
  forall request,
    generateContent request = Fulfilled {| GenAI.text := Some rawText |}.

(** X6: a reply that is not empty but holds white space only passes the
    empty-reply guard; the empty string is handed to [JSON.parse], whose
    [SyntaxError] is logged, and the call is rejected with its message. *)
Theorem blank_reply_is_parsed_and_rejected (p : jsstring) :
  rawText <> [] ->
  forallb isWhiteSpace rawText = true ->
  analyzeImage generateContent file p
    = (Rejected failedAnalysis,
       [ReadAsDataURL file; GenerateContent (analysisRequest file p);
        JsonParse [];
        ConsoleError (js "Error analyzing image with Gemini API:")
          SyntaxError]) /\
  getPromptSuggestions generateContent file
    = (Rejected failedSuggestions,
       [ReadAsDataURL file; GenerateContent (suggestionsRequest file);
        JsonParse [];
        ConsoleError (js "Error getting prompt suggestions from Gemini API:")
          SyntaxError]).
Proof.
  intros Hne Hws.
  rewrite analyzeImage_cases, getPromptSuggestions_cases, readable, !answered.
  cbv zeta. cbn [GenAI.text].
  destruct rawText as [| c r] eqn:E; [contradiction Hne; reflexivity |].
  apply trim_nil in Hws. rewrite Hws.
  split; reflexivity.
Qed.

(** X7: when the trimmed reply begins with a backtick and not with three
    backticks and json (a fence with another tag, in another case, or with
    none), the leading fence stays and both structured calls are rejected,
    whatever follows. *)
Theorem other_fence_is_rejected (p : jsstring) (rest : jsstring) :
  trim rawText = 96 :: rest ->
  stripPrefix (js "```json") (trim rawText) = None ->
  fst (analyzeImage generateContent file p) = Rejected failedAnalysis /\
  fst (getPromptSuggestions generateContent file)
    = Rejected failedSuggestions.
Proof.
  intros Ht Hp.
  assert (Hne : rawText <> []).
  { intros E. rewrite E in Ht. discriminate Ht. }
  assert (Hparse : parse (cleanFences (trim rawText)) = None).
  { unfold cleanFences, replaceLeadingFence at 1. rewrite Hp.
    destruct (replaceTrailingFence_suffix (trim rawText))
      as (b & _ & Eb & _).
    destruct (replaceTrailingFence (trim rawText)) as [| c x] eqn:Ex.
    - reflexivity.
    - rewrite Ht in Eb. cbn [app] in Eb. inversion Eb; subst c.
      unfold parse.
      destruct (lex (96 :: x)) as [ts |] eqn:El; [| reflexivity].
      destruct (JsonFacts.lex_first _ _ El) as [H | H]; discriminate H. }
  rewrite (@analyzeImage_present generateContent file rawText readable
             answered Hne p).
  rewrite (@getPromptSuggestions_present generateContent file rawText
             readable answered Hne).
  rewrite Hparse. split; reflexivity.
Qed.

End UnparsableReply.

Lemma blank_reply_is_parsed_and_rejected_witness :
  fst (analyzeImage (replyWith (Some [32; 10])) sampleFile
         (js "Analyze this image")) = Rejected failedAnalysis.
Proof.
  refine (f_equal fst
            (proj1 (@blank_reply_is_parsed_and_rejected
                      (replyWith (Some [32; 10])) sampleFile [32; 10]
                      eq_refl (fun _ => eq_refl)
                      (js "Analyze this image") _ eq_refl))).
  discriminate.
Defined.

Lemma other_fence_is_rejected_witness :
  fst (analyzeImage
         (replyWith (Some (js "```JSON" ++ [10] ++ js "{}" ++ [10] ++ js "```")))
         sampleFile (js "Analyze this image")) = Rejected failedAnalysis.
Proof.
  refine (proj1 (@other_fence_is_rejected
                   (replyWith (Some (js "```JSON" ++ [10] ++ js "{}" ++ [10]
                                     ++ js "```")))
                   sampleFile _ eq_refl (fun _ => eq_refl)
                   (js "Analyze this image")
                   (js "``JSON" ++ [10] ++ js "{}" ++ [10] ++ js "```")
                   _ _)); vm_compute; reflexivity.
Defined.

(** ** Runs of [handleAnalyze] *)

Lemma requestsOf_app (l1 l2 : list Effect) :
  requestsOf (l1 ++ l2) = requestsOf l1 ++ requestsOf l2.
Proof.
  induction l1 as [| e l1 IH]; [reflexivity |].
  destruct e; cbn [app requestsOf]; rewrite IH; reflexivity.
Qed.

(** The requests among the effects do not depend on how the effects of
    different calls are ordered. *)
Lemma requestsOf_Permutation (l1 l2 : list Effect) :
  Permutation l1 l2 -> Permutation (requestsOf l1) (requestsOf l2).
Proof.
  induction 1 as [| e l1 l2 _ IH | e1 e2 l | l1 l2 l3 _ IH1 _ IH2].
  - apply Permutation_refl.
  - destruct e; cbn [requestsOf]; [| apply perm_skip | |]; exact IH.
  - destruct e1, e2; cbn [requestsOf];
      try apply Permutation_refl; apply perm_swap.
  - exact (Permutation_trans IH1 IH2).
Qed.

Section Runs.

Variable generateContent : GenAI.Parameters -> Promise GenAI.Response.
Variable firstLeft : bool.
Variable s : State.
Variable file : File.

Hypothesis chosen : imageFile s = Some file.

(** The effects of a run are those of the two calls. *)
Lemma handleAnalyze_effects :
  Permutation
    (effects (handleAnalyze generateContent firstLeft s))
    (snd (analyzeImage generateContent file (prompt s))
     ++ snd (extractTextFromImage generateContent file)).
Proof.
  unfold handleAnalyze, joinedCalls, Promise_all. rewrite chosen.
  destruct (analyzeImage generateContent file (prompt s)) as [pa la].
  destruct (extractTextFromImage generateContent file) as [pb lb].
  first [apply Permutation_refl | apply Permutation_app_comm].
Qed.

(** X8: a run sends two requests for a readable image, the analysis request
    with the prompt of the state and the extraction request, each once, and
    none for an unreadable one; no request of a run carries a system
    instruction, so [handleAnalyze] never asks for prompt suggestions.
    Nothing is said of the order of the two requests. *)
Theorem run_sends_two_requests :
  Permutation
    (requestsOf (effects (handleAnalyze generateContent firstLeft s)))
    (if readFails file then []
     else [analysisRequest file (prompt s); extractionRequest file]) /\
  forall request,
    In request
      (requestsOf (effects (handleAnalyze generateContent firstLeft s))) ->
    match GenAI.config request with
    | Some c => GenAI.systemInstruction c = None
    | None => True
    end.
Proof.
  assert (H : Permutation
                (requestsOf
                   (effects (handleAnalyze generateContent firstLeft s)))
                (if readFails file then []
                 else [analysisRequest file (prompt s);
                       extractionRequest file])).
  { apply (Permutation_trans (requestsOf_Permutation handleAnalyze_effects)).
    rewrite requestsOf_app, analyzeImage_requests,
      extractTextFromImage_requests.
    destruct (readFails file); apply Permutation_refl. }
  split; [exact H |].
  intros r Hr. apply (Permutation_in r H) in Hr.
  destruct (readFails file); [destruct Hr |].
  destruct Hr as [<- | [<- | []]]; exact I || reflexivity.
Qed.

(** X9: the message a run leaves in [error] is the message of one of the two
    calls; the fallback text of [handleAnalyze] is never shown. *)
Theorem run_error_is_a_call_message (s' : State) :
  completed (handleAnalyze generateContent firstLeft s) = Some s' ->
  (error s' = None \/
   error s' = Some (message failedAnalysis) \/
   error s' = Some (message failedExtraction)) /\
  error s' <> Some (js "An unknown error occurred.").
Proof.
  rewrite (@handleAnalyze_joined generateContent firstLeft s file chosen),
    joinedCalls_outcome.
  pose proof (analyzeImage_outcome generateContent file (prompt s)) as Ha.
  pose proof (extractTextFromImage_outcome generateContent file) as He.
  assert (Hreq : error (analyzeRequested s) = None)
    by (unfold analyzeRequested; rewrite chosen; reflexivity).
  intros H.
  assert (Hs : error s' = None \/
               error s' = Some (message failedAnalysis) \/
               error s' = Some (message failedExtraction)).
  { revert H.
    destruct Ha as [Ea | [(a & Ea) | Ea]]; rewrite Ea;
      destruct He as [Ee | [(t & Ee) | Ee]]; rewrite Ee;
      try destruct firstLeft; intros H; inversion H; subst;
      cbn [analyzeSettled error]; auto. }
  split; [exact Hs |].
  destruct Hs as [-> | [-> | ->]]; intros E; vm_compute in E; discriminate E.
Qed.

(** When both calls succeed, the run ends with both results in place, no
    error, and the image and the prompt untouched. *)
Lemma handleAnalyze_fulfilled (a : JSON) (t : TextExtractionResponse) :
  fst (analyzeImage generateContent file (prompt s)) = Fulfilled a ->
  fst (extractTextFromImage generateContent file) = Fulfilled t ->
  completed (handleAnalyze generateContent firstLeft s)
    = Some {| appState := interactive;
              imageFile := Some file;
              prompt := prompt s;
              analysisResult := Some a;
              textResult := Some t;
              error := None |}.
Proof.
  intros Ha Ht.
  rewrite (@handleAnalyze_joined generateContent firstLeft s file chosen),
    joinedCalls_outcome, Ha, Ht.
  unfold analyzeSettled, analyzeRequested. rewrite chosen. reflexivity.
Qed.

(** X10: a call that fails ends the run at once, even when the other call
    never settles: the error is set, the results stay null and the
    application is interactive again. *)
Theorem failure_ends_run_while_other_pends (e : JsError) :
  (fst (analyzeImage generateContent file (prompt s)) = Rejected e /\
   fst (extractTextFromImage generateContent file) = Pending) \/
  (fst (analyzeImage generateContent file (prompt s)) = Pending /\
   fst (extractTextFromImage generateContent file) = Rejected e) ->
  exists m,
    m <> [] /\
    completed (handleAnalyze generateContent firstLeft s)
      = Some {| appState := interactive;
                imageFile := Some file;
                prompt := prompt s;
                analysisResult := None;
                textResult := None;
                error := Some m |}.
Proof.
  intros H.
  rewrite (@handleAnalyze_joined generateContent firstLeft s file chosen),
    joinedCalls_outcome.
  destruct (analyzeSettled_error e (analyzeRequested s)) as (m & Hm & Hne & _).
  exists m. split; [exact Hne |].
  assert (E : analyzeSettled (inr e) (analyzeRequested s)
              = {| appState := interactive;
                   imageFile := Some file;
                   prompt := prompt s;
                   analysisResult := None;
                   textResult := None;
                   error := Some m |}).
  { revert Hm. unfold analyzeSettled, analyzeRequested. rewrite chosen.
    cbn [error imageFile prompt analysisResult textResult].
    intros Hm. inversion Hm as [Hm']. rewrite Hm'. reflexivity. }
  destruct H as [[-> ->] | [-> ->]]; rewrite <- E; reflexivity.
Qed.

End Runs.

Lemma run_sends_two_requests_witness :
  Permutation
    (requestsOf (effects (handleAnalyze (replyWith None) true
                            (selected sampleFile))))
    [analysisRequest sampleFile (js "Analyze this image");
     extractionRequest sampleFile].
Proof.
  exact (proj1 (@run_sends_two_requests (replyWith None) true
                  (selected sampleFile) sampleFile eq_refl)).
Defined.

Lemma run_error_is_a_call_message_witness :
  error (analyzeSettled (inr failedAnalysis)
           (analyzeRequested (selected sampleFile)))
    <> Some (js "An unknown error occurred.").
Proof.
  refine (proj2 (@run_error_is_a_call_message (replyWith None) true
                   (selected sampleFile) sampleFile eq_refl _ _)).
  vm_compute. reflexivity.
Defined.

Lemma failure_ends_run_while_other_pends_witness :
  exists m,
    m <> [] /\
    completed (handleAnalyze silentOnFreeText true (selected sampleFile))
      = Some {| appState := interactive;
                imageFile := Some sampleFile;
                prompt := js "Analyze this image";
                analysisResult := None;
                textResult := None;
                error := Some m |}.
Proof.
  apply (@failure_ends_run_while_other_pends silentOnFreeText true
           (selected sampleFile) sampleFile eq_refl failedAnalysis).
  left. split; vm_compute; reflexivity.
Defined.

(** ** The uploader *)

(** X11: with no image selected, a paste selects the first file of the
    clipboard exactly when its type begins with image/, while the file input
    selects its first file whatever the type; later files are ignored. *)
Theorem uploader_selects_first_file (s : State) (file : File) :
  imageFile s = None ->
  (forall files,
     imageFile (Uploader.handlePaste handleImageChange files s) = Some file
     <-> exists rest tail,
           files = file :: rest /\ type file = js "image/" ++ tail) /\
  (forall files,
     imageFile (Uploader.handleFileChange handleImageChange files s)
       = Some file
     <-> exists rest, files = Some (file :: rest)).
Proof.
  intros Hs. split; intros files; split.
  - destruct files as [| f rest]; cbn [Uploader.handlePaste];
      [rewrite Hs; discriminate |].
    unfold Uploader.startsWith.
    destruct (stripPrefix (js "image/") (type f)) as [tail |] eqn:E;
      [| rewrite Hs; discriminate].
    cbn [handleImageChange imageFile]. intros H. inversion H; subst f.
    exists rest, tail. split; [reflexivity |].
    exact (@stripPrefix_Some (js "image/") (type file) tail E).
  - intros (rest & tail & -> & Ht). cbn [Uploader.handlePaste].
    unfold Uploader.startsWith.
    rewrite Ht, (@Wrapping.stripPrefix_app (js "image/") tail).
    reflexivity.
  - destruct files as [[| f rest] |]; cbn [Uploader.handleFileChange];
      try (rewrite Hs; discriminate).
    cbn [handleImageChange imageFile]. intros H. inversion H; subst f.
    exists rest. reflexivity.
  - intros (rest & ->). reflexivity.
Qed.

Lemma uploader_selects_first_file_witness :
  imageFile (Uploader.handlePaste handleImageChange [sampleFile; brokenFile]
               initial)
    = Some sampleFile.
Proof.
  apply (proj1 (@uploader_selects_first_file initial sampleFile eq_refl)).
  exists [brokenFile], (js "png"). split; reflexivity.
Defined.

(** ** Sessions *)

Lemma ui_invariant (s : State) (n : nat) :
  Session.Ui s n ->
  prompt s = js "Analyze this image" /\
  (appState s = idle -> s = initial) /\
  (appState s = loading ->
   imageFile s <> None /\ analysisResult s = None /\ textResult s = None /\
   error s = None /\ (1 <= n)%nat).
Proof.
  induction 1 as [| s n file _ (IHp & _) _ | s n _ (IHp & _) _
                  | s n _ (IHp & _) Hi _ | s n joined _ (IHp & _)].
  - repeat split; discriminate.
  - repeat split; discriminate.
  - split; [exact IHp |]. split; [| discriminate].
    intros _. unfold handleReset. rewrite IHp. reflexivity.
  - unfold analyzeRequested.
    destruct (imageFile s) as [f |] eqn:E; [| contradiction Hi; reflexivity].
    cbn [prompt appState imageFile analysisResult textResult error].
    split; [exact IHp |]. split; [discriminate |].
    intros _. repeat split; [discriminate | lia].
  - destruct joined as [[a t] | e];
      (split; [exact IHp |]); split; discriminate.
Qed.

(** X12: in every session the prompt is the initial one: no control of the
    screen changes it. *)
Theorem prompt_is_never_changed (s : State) (n : nat) :
  Session.Ui s n -> prompt s = js "Analyze this image".
Proof.
  intros H. exact (proj1 (ui_invariant H)).
Qed.

Lemma prompt_is_never_changed_witness :
  prompt (analyzeSettled (inr failedAnalysis)
            (analyzeRequested (handleImageChange sampleFile initial)))
    = js "Analyze this image".
Proof.
  apply (@prompt_is_never_changed _ 0%nat).
  apply Session.ui_settle, Session.ui_analyze;
    [apply Session.ui_select; [apply Session.ui_start | reflexivity]
    | discriminate | discriminate].
Defined.

(** X13: the application is idle only in its initial state: a reset leaves
    nothing behind, whatever happened before. *)
Theorem idle_is_initial (s : State) (n : nat) :
  Session.Ui s n -> appState s = idle -> s = initial.
Proof.
  intros H. exact (proj1 (proj2 (ui_invariant H))).
Qed.

Lemma idle_is_initial_witness :
  handleReset
    (analyzeSettled (inr failedAnalysis)
       (analyzeRequested (handleImageChange sampleFile initial)))
    = initial.
Proof.
  apply (@idle_is_initial _ 0%nat); [| reflexivity].
  apply Session.ui_reset; [| discriminate].
  apply Session.ui_settle, Session.ui_analyze;
    [apply Session.ui_select; [apply Session.ui_start | reflexivity]
    | discriminate | discriminate].
Defined.

(** X14: while the application is loading, a run is in flight, and the screen
    shows the loading indicator and the disabled button and nothing else: no
    error, no card of an earlier run. *)
Theorem loading_shows_only_the_indicator
  (numberIsZero : jsstring -> bool) (s : State) (n : nat) :
  Session.Ui s n -> appState s = loading ->
  (1 <= n)%nat /\
  View.render numberIsZero s
    = Some (View.WorkspaceScreen
              {| View.analyzeDisabled := true;
                 View.loadingShown := true;
                 View.errorShown := None;
                 View.cards := None;
                 View.textShown := None |}).
Proof.
  intros H L.
  destruct (proj2 (proj2 (ui_invariant H)) L) as (Hi & Ha & Ht & He & Hn).
  split; [exact Hn |].
  unfold View.render.
  destruct (imageFile s) as [f |]; [| contradiction Hi; reflexivity].
  rewrite Ha, Ht, He, L. reflexivity.
Qed.

Lemma loading_shows_only_the_indicator_witness :
  View.render (fun _ => false)
    (analyzeRequested
       (analyzeSettled (inr failedAnalysis)
          (analyzeRequested (handleImageChange sampleFile initial))))
    = Some (View.WorkspaceScreen
              {| View.analyzeDisabled := true;
                 View.loadingShown := true;
                 View.errorShown := None;
                 View.cards := None;
                 View.textShown := None |}).
Proof.
  refine (proj2 (@loading_shows_only_the_indicator (fun _ => false)
                   (analyzeRequested
                      (analyzeSettled (inr failedAnalysis)
                         (analyzeRequested
                            (handleImageChange sampleFile initial))))
                   1%nat _ eq_refl)).
  apply Session.ui_analyze; [| discriminate | discriminate].
  apply Session.ui_settle, Session.ui_analyze;
    [apply Session.ui_select; [apply Session.ui_start | reflexivity]
    | discriminate | discriminate].
Defined.


(** X16: the loading state does not count runs.  With two runs in flight (the
    second started after a reset), the first outcome to arrive makes the
    application interactive again and enables the button, while one run is
    still in flight. *)
Theorem first_outcome_ends_loading_of_both
  (numberIsZero : jsstring -> bool) (first second : File) (e : JsError) :
  let before :=
    analyzeRequested
      (handleImageChange second
         (handleReset (analyzeRequested (handleImageChange first initial))))
  in
  let s := analyzeSettled (inr e) before in
  Session.Ui before 2 /\ appState before = loading /\
  Session.Ui s 1 /\ appState s = interactive /\
  exists w,
    View.render numberIsZero s = Some (View.WorkspaceScreen w) /\
    View.analyzeDisabled w = false /\ View.loadingShown w = false.
Proof.
  cbv zeta.
  assert (U : Session.Ui
                (analyzeRequested
                   (handleImageChange second
                      (handleReset
                         (analyzeRequested (handleImageChange first initial)))))
                2).
  { apply Session.ui_analyze; [| discriminate | discriminate].
    apply Session.ui_select; [| reflexivity].
    apply Session.ui_reset; [| discriminate].
    apply Session.ui_analyze; [| discriminate | discriminate].
    apply Session.ui_select; [apply Session.ui_start | reflexivity]. }
  split; [exact U |]. split; [reflexivity |].
  split; [apply Session.ui_settle; exact U |]. split; [reflexivity |].
  eexists. split; [reflexivity |]. split; reflexivity.
Qed.

(** ** What a finished run puts on the screen *)

Lemma traverse_Some (A : Type) (l : list A) :
  View.traverse (@Some A) l = Some l.
Proof.
  induction l as [| a l IH]; cbn [View.traverse]; [| rewrite IH]; reflexivity.
Qed.

Lemma objectCard_plain (obj : JSON) :
  plainObject obj = true -> View.objectCard obj = Some (plainCard obj).
Proof.
  destruct obj as [| b | n | str | items | m]; try discriminate.
  unfold plainObject, View.objectCard, plainCard.
  cbn [View.readProperty get].
  destruct (lookup (js "icon") m) as [[| b | n | k | items | m'] |];
    try discriminate; reflexivity.
Qed.

Lemma traverse_objectCard (objs : list JSON) :
  forallb plainObject objs = true ->
  View.traverse View.objectCard objs = Some (map plainCard objs).
Proof.
  induction objs as [| obj objs IH]; [reflexivity |].
  cbn [forallb View.traverse map]. intros H.
  apply andb_prop in H. destruct H as [Ho Hr].
  rewrite (objectCard_plain obj Ho), (IH Hr). reflexivity.
Qed.

Lemma readProperty_truthy (numberIsZero : jsstring -> bool)
  (key : jsstring) (v : JSON) :
  View.truthy numberIsZero v = true ->
  View.readProperty key v = Some (get key v).
Proof.
  destruct v; try reflexivity. discriminate.
Qed.

Lemma textBlock_visible (t : TextExtractionResponse) :
  View.textBlock (Some t)
    = if forallb isWhiteSpace (text t) then None else Some (text t).
Proof.
  unfold View.textBlock.
  destruct (trim (text t)) as [| c r] eqn:E.
  - rewrite (proj1 (trim_nil (text t)) E). reflexivity.
  - destruct (forallb isWhiteSpace (text t)) eqn:W; [| reflexivity].
    rewrite (proj2 (trim_nil (text t)) W) in E. discriminate E.
Qed.

Section Shown.

Variable numberIsZero : jsstring -> bool.
Variable generateContent : GenAI.Parameters -> Promise GenAI.Response.
Variable firstLeft : bool.
Variable s : State.
Variable file : File.
Variable analysis : JSON.
Variable extracted : TextExtractionResponse.

Hypothesis chosen : imageFile s = Some file.
Hypothesis analysed :
  fst (analyzeImage generateContent file (prompt s)) = Fulfilled analysis.
Hypothesis read :
  fst (extractTextFromImage generateContent file) = Fulfilled extracted.

(** X17: for a result with the shape of the schema, evaluating the screen
    does not throw and uses the result in full: title and summary, one grid
    entry per detected object, in order, with the icon found for its keyword,
    and the palette as it came. *)
Theorem shaped_result_is_rendered :
  hasAnalysisShape analysis = true ->
  exists objs colors s',
    get (js "detected_objects") analysis = Some (JArray objs) /\
    get (js "color_palette") analysis = Some (JArray colors) /\
    completed (handleAnalyze generateContent firstLeft s) = Some s' /\
    View.render numberIsZero s'
      = Some (View.WorkspaceScreen
                {| View.analyzeDisabled := false;
                   View.loadingShown := false;
                   View.errorShown := None;
                   View.cards := Some
                     {| View.title := get (js "title") analysis;
                        View.summary := get (js "summary") analysis;
                        View.objects := map plainCard objs;
                        View.palette := colors |};
                   View.textShown := View.textBlock (Some extracted) |}).
Proof.
  intros Hshape.
  destruct analysis as [| b | n | str | items | m] eqn:Ea; try discriminate.
  cbn [hasAnalysisShape] in Hshape. cbn [get].
  destruct (lookup (js "detected_objects") m) as [[| | | | objs |] |] eqn:Ed;
    try discriminate.
  destruct (lookup (js "color_palette") m) as [[| | | | colors |] |] eqn:Ec;
    try discriminate.
  exists objs, colors. eexists.
  split; [reflexivity |]. split; [reflexivity |].
  split; [exact (@handleAnalyze_fulfilled generateContent firstLeft s file
                   chosen _ _ analysed read) |].
  unfold View.render, View.analysisBlock.
  cbn [imageFile analysisResult textResult error appState View.truthy
       View.readProperty View.isLoading View.errorBlock].
  rewrite Ed, Ec. cbn [View.arrayMap].
  rewrite (traverse_objectCard objs Hshape), traverse_Some.
  reflexivity.
Qed.

(** X18: a result is not checked before it is drawn.  When the accepted value
    is truthy but [detected_objects] or [color_palette] is not an array, the
    run ends without an error message and evaluating the screen throws. *)
Theorem unshaped_result_breaks_render :
  View.truthy numberIsZero analysis = true ->
  isArray (get (js "detected_objects") analysis)
    && isArray (get (js "color_palette") analysis) = false ->
  exists s',
    completed (handleAnalyze generateContent firstLeft s) = Some s' /\
    appState s' = interactive /\ error s' = None /\
    View.render numberIsZero s' = None.
Proof.
  intros Ht Hn. eexists.
  split; [exact (@handleAnalyze_fulfilled generateContent firstLeft s file
                   chosen _ _ analysed read) |].
  split; [reflexivity |]. split; [reflexivity |].
  unfold View.render, View.analysisBlock.
  cbn [imageFile analysisResult].
  rewrite Ht, !(readProperty_truthy numberIsZero _ analysis Ht).
  unfold View.arrayMap.
  destruct (get (js "detected_objects") analysis)
    as [[| | | | objs |] |]; try reflexivity.
  destruct (get (js "color_palette") analysis)
    as [[| | | | colors |] |];
    try (destruct (View.traverse View.objectCard objs); reflexivity).
  discriminate Hn.
Qed.

(** X19: a falsy result (null, false, zero, the empty string) is accepted all
    the same: it is stored, no analysis card is built for it and no error is
    shown. *)
Theorem falsy_result_gives_no_card :
  View.truthy numberIsZero analysis = false ->
  exists s',
    completed (handleAnalyze generateContent firstLeft s) = Some s' /\
    analysisResult s' = Some analysis /\
    View.render numberIsZero s'
      = Some (View.WorkspaceScreen
                {| View.analyzeDisabled := false;
                   View.loadingShown := false;
                   View.errorShown := None;
                   View.cards := None;
                   View.textShown := View.textBlock (Some extracted) |}).
Proof.
  intros Hf. eexists.
  split; [exact (@handleAnalyze_fulfilled generateContent firstLeft s file
                   chosen _ _ analysed read) |].
  split; [reflexivity |].
  unfold View.render, View.analysisBlock.
  cbn [imageFile analysisResult]. rewrite Hf. reflexivity.
Qed.

End Shown.

Section ShownText.

Variable numberIsZero : jsstring -> bool.
Variable generateContent : GenAI.Parameters -> Promise GenAI.Response.
Variable firstLeft : bool.
Variable s : State.
Variable file : File.
Variable analysis : JSON.
Variable analysisCards : option View.AnalysisCards.
Variable reply : option jsstring.

Hypothesis chosen : imageFile s = Some file.
Hypothesis analysed :
  fst (analyzeImage generateContent file (prompt s)) = Fulfilled analysis.
Hypothesis drawn :
  View.analysisBlock numberIsZero (Some analysis) = Some analysisCards.
Hypothesis answered :
  generateContent (extractionRequest file)
    = Fulfilled {| GenAI.text := reply |}.

(** X20: in a run whose analysis is fulfilled and can be drawn, the text card
    of the screen shows the reply of the extraction exactly as it came,
    white space included, when the reply has a code unit that is not white
    space; a missing, empty or blank reply gives no text card. *)
Theorem text_card_needs_visible_text :
  exists s',
    completed (handleAnalyze generateContent firstLeft s) = Some s' /\
    View.render numberIsZero s'
      = Some (View.WorkspaceScreen
                {| View.analyzeDisabled := false;
                   View.loadingShown := false;
                   View.errorShown := None;
                   View.cards := analysisCards;
                   View.textShown :=
                     match reply with
                     | Some r =>
                         if forallb isWhiteSpace r then None else Some r
                     | None => None
                     end |}).
Proof.
  assert (readable : readFails file = false).
  { destruct (readFails file) eqn:E; [| reflexivity].
    rewrite analyzeImage_cases, E in analysed. discriminate analysed. }
  assert (Hread : fst (extractTextFromImage generateContent file)
                  = Fulfilled {| text := match reply with
                                         | Some t => t
                                         | None => []
                                         end |}).
  { rewrite extractTextFromImage_cases, readable. cbv zeta.
    rewrite answered. reflexivity. }
  eexists.
  split; [exact (@handleAnalyze_fulfilled generateContent firstLeft s file
                   chosen _ _ analysed Hread) |].
  unfold View.render.
  cbn [imageFile analysisResult textResult error appState View.isLoading
       View.errorBlock].
  rewrite drawn, textBlock_visible. cbn [text].
  destruct reply; reflexivity.
Qed.

End ShownText.

Lemma shaped_result_is_rendered_witness :
  exists objs colors s',
    get (js "detected_objects") fullReplyObject = Some (JArray objs) /\
    get (js "color_palette") fullReplyObject = Some (JArray colors) /\
    completed (handleAnalyze (replyWith (Some fullReply)) true
                 (selected sampleFile)) = Some s' /\
    View.render (fun _ => false) s'
      = Some (View.WorkspaceScreen
                {| View.analyzeDisabled := false;
                   View.loadingShown := false;
                   View.errorShown := None;
                   View.cards := Some
                     {| View.title := get (js "title") fullReplyObject;
                        View.summary := get (js "summary") fullReplyObject;
                        View.objects := map plainCard objs;
                        View.palette := colors |};
                   View.textShown :=
                     View.textBlock (Some {| text := fullReply |}) |}).
Proof.
  apply (@shaped_result_is_rendered (fun _ => false)
           (replyWith (Some fullReply)) true (selected sampleFile) sampleFile
           fullReplyObject {| text := fullReply |} eq_refl);
    vm_compute; reflexivity.
Defined.

Lemma unshaped_result_breaks_render_witness :
  exists s',
    completed (handleAnalyze (replyWith (Some noPalette)) true
                 (selected sampleFile)) = Some s' /\
    appState s' = interactive /\ error s' = None /\
    View.render (fun _ => false) s' = None.
Proof.
  apply (@unshaped_result_breaks_render (fun _ => false)
           (replyWith (Some noPalette)) true (selected sampleFile) sampleFile
           noPaletteObject {| text := noPalette |} eq_refl);
    vm_compute; reflexivity.
Defined.

Lemma falsy_result_gives_no_card_witness :
  exists s',
    completed (handleAnalyze (replyWith (Some (js "null"))) true
                 (selected sampleFile)) = Some s' /\
    analysisResult s' = Some JNull /\
    View.render (fun _ => false) s'
      = Some (View.WorkspaceScreen
                {| View.analyzeDisabled := false;
                   View.loadingShown := false;
                   View.errorShown := None;
                   View.cards := None;
                   View.textShown := Some (js "null") |}).
Proof.
  apply (@falsy_result_gives_no_card (fun _ => false)
           (replyWith (Some (js "null"))) true (selected sampleFile)
           sampleFile JNull {| text := js "null" |} eq_refl);
    vm_compute; reflexivity.
Defined.

Lemma text_card_needs_visible_text_witness :
  exists s',
    completed (handleAnalyze (replyByKind (js "null") [32; 10]) true
                 (selected sampleFile)) = Some s' /\
    View.render (fun _ => false) s'
      = Some (View.WorkspaceScreen
                {| View.analyzeDisabled := false;
                   View.loadingShown := false;
                   View.errorShown := None;
                   View.cards := None;
                   View.textShown := None |}).
Proof.
  apply (@text_card_needs_visible_text (fun _ => false)
           (replyByKind (js "null") [32; 10]) true (selected sampleFile)
           sampleFile JNull None (Some [32; 10]) eq_refl);
    vm_compute; reflexivity.
Defined.

(** ** The two structured calls side by side *)

(** X21: [getPromptSuggestions] treats a reply exactly as [analyzeImage] does.
    When the service settles the two requests alike, the two calls hand the
    same text to [JSON.parse] and end alike, up to the message of the
    failure. *)
Theorem structured_calls_handle_replies_alike
  (generateContent : GenAI.Parameters -> Promise GenAI.Response)
  (file : File) (p : jsstring) :
  generateContent (suggestionsRequest file)
    = generateContent (analysisRequest file p) ->
  fst (getPromptSuggestions generateContent file)
    = match fst (analyzeImage generateContent file p) with
      | Rejected _ => Rejected failedSuggestions
      | outcome => outcome
      end /\
  parsesOf (snd (getPromptSuggestions generateContent file))
    = parsesOf (snd (analyzeImage generateContent file p)).
Proof.
  intros H.
  rewrite analyzeImage_cases, getPromptSuggestions_cases, H.
  destruct (readFails file); [split; reflexivity |]. cbv zeta.
  destruct (generateContent (analysisRequest file p))
    as [[[[| c r] |]] | e |]; cbn [GenAI.text]; try (split; reflexivity).
  destruct (parse _); split; reflexivity.
Qed.

Lemma structured_calls_handle_replies_alike_witness :
  fst (getPromptSuggestions (replyWith (Some fencedHello)) sampleFile)
    = Fulfilled helloObject /\
  parsesOf (snd (getPromptSuggestions (replyWith (Some fencedHello))
                   sampleFile))
    = parsesOf (snd (analyzeImage (replyWith (Some fencedHello)) sampleFile
                       [])).
Proof.
  exact (@structured_calls_handle_replies_alike
           (replyWith (Some fencedHello)) sampleFile [] eq_refl).
Defined.
